(** * mimopy: the network graph, the link metrics and the array response

  A shallow embedding of [mimopy/network.py], of the parts of
  [mimopy/devices/antenna_array.py] that the network and the channel
  generator call, and of [RayClusterChannel.generate_channel_matrix]
  from [mimopy/channels/ray_cluster.py].

  Python objects are mutable and shared.  Objects are therefore named by
  their identity (a natural number); the containers of [Network] hold
  identities, and Python's default [==] and [hash] on them is equality
  of identities.  A method that mutates [self] and may raise is a
  computation in a state monad whose result is a value or an exception;
  the state that comes with an exception is the state at the [raise],
  which is what a caller that catches the exception goes on with. *)

From Stdlib Require Import String Ascii List Bool Arith ZArith Lia.
From Stdlib Require Import Reals Lra.
Import ListNotations.

Set Implicit Arguments.

(* ------------------------------------------------------------------ *)
(** ** Exceptions and the state monad *)

Module Py.

Inductive exn : Type :=
| KeyError | ValueError | TypeError | AttributeError
| RecursionError | IndexError.

Inductive res (A : Type) : Type :=
| Ret (a : A)
| Raise (e : exn).
Arguments Ret {A} a.
Arguments Raise {A} e.

Definition M (S A : Type) : Type := S -> res A * S.

Definition ret {S A} (a : A) : M S A := fun s => (Ret a, s).
Definition raise {S A} (e : exn) : M S A := fun s => (Raise e, s).
Definition bind {S A B} (m : M S A) (k : A -> M S B) : M S B :=
  fun s => match m s with
           | (Ret a, s') => k a s'
           | (Raise e, s') => (Raise e, s')
           end.
Definition get {S} : M S S := fun s => (Ret s, s).
Definition modify {S} (f : S -> S) : M S unit := fun s => (Ret tt, f s).

(** [for x in l: body(x)] *)
Fixpoint for_each {S A} (l : list A) (body : A -> M S unit) : M S unit :=
  match l with
  | [] => ret tt
  | x :: l' => bind (body x) (fun _ => for_each l' body)
  end.

(** Sequencing of computations that read but do not write. *)
Definition rbind {A B} (r : res A) (k : A -> res B) : res B :=
  match r with
  | Ret a => k a
  | Raise e => Raise e
  end.

Definition raised {A S} (r : res A * S) : bool :=
  match fst r with Raise _ => true | Ret _ => false end.

End Py.
Import Py.

Declare Scope py_scope.
Delimit Scope py_scope with py.
Notation "x <- c1 ;; c2" := (bind c1 (fun x => c2))
(at level 61, c1 at next level, right associativity) : py_scope.
Notation "c1 ;; c2" := (bind c1 (fun _ => c2))
(at level 61, right associativity) : py_scope.
Notation "x <~ c1 ;; c2" := (rbind c1 (fun x => c2))
(at level 61, c1 at next level, right associativity) : py_scope.
Local Open Scope py_scope.

(* ------------------------------------------------------------------ *)
(** ** Python dictionaries

  A [dict] keeps its entries in insertion order, and [Network] shows
  that order ([nodes], [links.values()]), so a dictionary is the list
  of its entries, each key once. *)

Class PyEq (K : Type) : Type :=
{ py_eqb : K -> K -> bool;
  py_eqb_spec : forall x y, reflect (x = y) (py_eqb x y) }.

#[export] Instance PyEq_nat : PyEq nat :=
{| py_eqb := Nat.eqb; py_eqb_spec := Nat.eqb_spec |}.
#[export] Instance PyEq_string : PyEq string :=
{| py_eqb := String.eqb; py_eqb_spec := String.eqb_spec |}.

Section PyDict.
Context {K V : Type} `{PyEq K}.

Definition dict : Type := list (K * V).

(** [d.get(k)]; [d[k]] raises [KeyError] where this is [None] *)
Fixpoint dget (k : K) (d : dict) : option V :=
  match d with
  | [] => None
  | (k', v) :: d' => if py_eqb k k' then Some v else dget k d'
  end.

(** [k in d] *)
Definition dmem (k : K) (d : dict) : bool :=
  match dget k d with Some _ => true | None => false end.

(** [d[k] = v] *)
Fixpoint dset (k : K) (v : V) (d : dict) : dict :=
  match d with
  | [] => [(k, v)]
  | (k', v') :: d' =>
      if py_eqb k k' then (k', v) :: d' else (k', v') :: dset k v d'
  end.

(** [d.pop(k, None)] *)
Fixpoint dpop (k : K) (d : dict) : dict :=
  match d with
  | [] => []
  | (k', v') :: d' => if py_eqb k k' then d' else (k', v') :: dpop k d'
  end.

Definition dkeys (d : dict) : list K := map fst d.
Definition dvalues (d : dict) : list V := map snd d.

Lemma py_eqb_refl (k : K) : py_eqb k k = true.
Proof. destruct (py_eqb_spec k k); congruence. Qed.

Lemma py_eqb_neq (k k' : K) : k <> k' -> py_eqb k k' = false.
Proof. destruct (py_eqb_spec k k'); congruence. Qed.

Lemma dget_dset_same k v d : dget k (dset k v d) = Some v.
Proof.
  induction d as [|[k' v'] d IH]; simpl.
  - now rewrite py_eqb_refl.
  - destruct (py_eqb k k') eqn:E; simpl; rewrite E; auto.
Qed.

Lemma dget_dset_other k k' v d : k <> k' -> dget k (dset k' v d) = dget k d.
Proof.
  intros Hne. induction d as [|[k0 v0] d IH]; simpl.
  - now rewrite py_eqb_neq.
  - destruct (py_eqb k' k0) eqn:E; simpl.
    + destruct (py_eqb_spec k' k0); try discriminate. subst k0.
      now rewrite py_eqb_neq.
    + now rewrite IH.
Qed.

Lemma dget_dset k k' v d :
  dget k (dset k' v d) = if py_eqb k k' then Some v else dget k d.
Proof.
  destruct (py_eqb_spec k k') as [->|Hne].
  - apply dget_dset_same.
  - now apply dget_dset_other.
Qed.

Lemma dmem_dset k k' v d :
  dmem k (dset k' v d) = py_eqb k k' || dmem k d.
Proof. unfold dmem. rewrite dget_dset. now destruct (py_eqb k k'). Qed.

Lemma dpop_absent k d : dget k d = None -> dpop k d = d.
Proof.
  induction d as [|[k' v'] d IH]; simpl; auto.
  destruct (py_eqb k k'); [discriminate|]. intros E. now rewrite IH.
Qed.

Lemma dget_Some_In k v d : dget k d = Some v -> In v (dvalues d).
Proof.
  induction d as [|[k' v'] d IH]; simpl; [discriminate|].
  destruct (py_eqb k k'); intros E.
  - left. congruence.
  - right. auto.
Qed.

Lemma dkeys_dset_incl k v d k0 : In k0 (dkeys d) -> In k0 (dkeys (dset k v d)).
Proof.
  induction d as [|[k' v'] d IH]; simpl; [tauto|].
  destruct (py_eqb k k'); simpl; tauto.
Qed.

Lemma dmem_In k d : dmem k d = true <-> In k (dkeys d).
Proof.
  unfold dmem. induction d as [|[k' v'] d IH]; simpl.
  - split; [discriminate | tauto].
  - destruct (py_eqb_spec k k') as [->|Hne]; [tauto|].
    rewrite IH. split; [tauto|]. intros [E|?]; [congruence | assumption].
Qed.

Lemma dvalues_dpop_incl k d : incl (dvalues (dpop k d)) (dvalues d).
Proof.
  induction d as [|[k' v] d IH]; simpl; [apply incl_refl|].
  destruct (py_eqb k k'); simpl.
  - apply incl_tl, incl_refl.
  - apply incl_cons; [now left|]. now apply incl_tl.
Qed.

Lemma dvalues_dset_In k v x d :
  In x (dvalues (dset k v d)) -> x = v \/ In x (dvalues d).
Proof.
  induction d as [|[k' v'] d IH]; simpl.
  - intros [<-|[]]. now left.
  - destruct (py_eqb k k'); simpl; intros [<-|Hx]; auto.
    destruct (IH Hx); auto.
Qed.

Lemma dget_In k v d : dget k d = Some v -> In (k, v) d.
Proof.
  induction d as [|[k' v'] d IH]; simpl; [discriminate|].
  destruct (py_eqb_spec k k') as [->|Hne].
  - intros [= ->]. now left.
  - intros E. right. auto.
Qed.

Lemma In_dset k v k0 v0 d : In (k0, v0) (dset k v d) -> (k0, v0) = (k, v) \/ In (k0, v0) d.
Proof.
  induction d as [|[k' v'] d IH]; simpl.
  - intros [E|[]]. left. congruence.
  - destruct (py_eqb_spec k k') as [->|Hne]; simpl.
    + intros [E|Hin]; [left; congruence | right; now right].
    + intros [E|Hin]; [right; now left|]. destruct (IH Hin); auto.
Qed.

Lemma In_dpop k k0 v0 d : In (k0, v0) (dpop k d) -> In (k0, v0) d.
Proof.
  induction d as [|[k' v'] d IH]; simpl; [tauto|].
  destruct (py_eqb k k'); simpl; [tauto|]. intros [E|Hin]; auto.
Qed.

Lemma dkeys_dset_present k v d : dmem k d = true -> dkeys (dset k v d) = dkeys d.
Proof.
  unfold dmem. induction d as [|[k' v'] d IH]; simpl; [discriminate|].
  destruct (py_eqb k k'); simpl; [reflexivity|]. intros E. now rewrite IH.
Qed.

Lemma dpop_dset_fresh k v d : dget k d = None -> dpop k (dset k v d) = d.
Proof.
  induction d as [|[k' v'] d IH]; simpl.
  - intros _. now rewrite py_eqb_refl.
  - destruct (py_eqb k k') eqn:E; [discriminate|]. intros Hd. simpl.
    now rewrite E, IH.
Qed.

Lemma dset_same k v d : dget k d = Some v -> dset k v d = d.
Proof.
  induction d as [|[k' v'] d IH]; simpl; [discriminate|].
  destruct (py_eqb k k'); [intros [= ->]; reflexivity|]. intros E. now rewrite IH.
Qed.

Lemma dset_dset k v v' d : dset k v (dset k v' d) = dset k v d.
Proof.
  induction d as [|[k' v0] d IH]; simpl.
  - now rewrite py_eqb_refl.
  - destruct (py_eqb k k') eqn:E; simpl; rewrite E; [reflexivity|]. now rewrite IH.
Qed.

Lemma dget_dpop_other k k' d : k <> k' -> dget k (dpop k' d) = dget k d.
Proof.
  intros Hne. induction d as [|[k0 v0] d IH]; simpl; [reflexivity|].
  destruct (py_eqb_spec k' k0) as [->|Hne'].
  - now rewrite py_eqb_neq.
  - simpl. now rewrite IH.
Qed.

Lemma dset_comm k k' v v' d :
  k <> k' -> dmem k d = true -> dmem k' d = true ->
  dset k v (dset k' v' d) = dset k' v' (dset k v d).
Proof.
  unfold dmem. intros Hne. induction d as [|[k0 v0] d IH]; simpl; [discriminate|].
  destruct (py_eqb_spec k k0) as [->|Hk]; destruct (py_eqb_spec k' k0) as [->|Hk'];
    simpl.
  - congruence.
  - intros _ _. rewrite py_eqb_refl. now rewrite (py_eqb_neq Hk').
  - intros _ _. rewrite py_eqb_refl. now rewrite (py_eqb_neq Hk).
  - intros H1 H2. rewrite (py_eqb_neq Hk), (py_eqb_neq Hk'). now rewrite IH.
Qed.

End PyDict.
Arguments dict K V : clear implicits.


(** An argument that is one object or an iterable of them: a method
    tests which it is and loops in the second case. *)
Inductive arg (A : Type) : Type :=
| One (a : A)
| Many (l : list A).
Arguments One {A} a.
Arguments Many {A} l.

(* ------------------------------------------------------------------ *)
(** ** Numbers and arrays

    A Python [float] is read as a real number and a [complex] as a pair
    of reals; a NumPy array is its shape together with its entries in
    row-major order, which is what [squeeze] and [reshape] leave alone. *)

Module Cx.

Definition C : Type := (R * R)%type.

Definition C0 : C := (0, 0)%R.
Definition C1 : C := (1, 0)%R.
(** [1j] *)
Definition Ci : C := (0, 1)%R.

Definition Cadd (a b : C) : C := (fst a + fst b, snd a + snd b)%R.
Definition Cmul (a b : C) : C :=
  (fst a * fst b - snd a * snd b, fst a * snd b + snd a * fst b)%R.
(** [z.conj()] *)
Definition Cconj (a : C) : C := (fst a, - snd a)%R.
(** [z * x] for a real [x] *)
Definition Cscale (a : C) (x : R) : C := (fst a * x, snd a * x)%R.
(** [z / x] for a real [x] *)
Definition Cdivr (a : C) (x : R) : C := (fst a / x, snd a / x)%R.
(** [np.exp(z)] *)
Definition Cexp (a : C) : C := (exp (fst a) * cos (snd a), exp (fst a) * sin (snd a))%R.

End Cx.
Import Cx.

Record ndarray (A : Type) : Type := { shape : list nat; data : list A }.
Arguments shape {A} n.
Arguments data {A} n.

Definition size (sh : list nat) : nat := fold_right Nat.mul 1 sh.

(** [np.squeeze(a)]: the axes of length one go. *)
Definition squeeze {A} (a : ndarray A) : ndarray A :=
  {| shape := filter (fun d => negb (Nat.eqb d 1)) (shape a); data := data a |}.

(** [a.reshape( *lead, -1)]: the last axis takes what is left; NumPy
    refuses when the entries do not divide among the leading axes. *)
Definition reshape_rest {A} (lead : list nat) (a : ndarray A) : res (ndarray A) :=
  let p := size lead in
  let n := length (data a) in
  if Nat.eqb p 0 then Raise ValueError
  else if Nat.eqb (n mod p) 0
       then Ret {| shape := lead ++ [n / p]; data := data a |}
       else Raise ValueError.

(** [a.reshape(-1, 1)] *)
Definition reshape_column {A} (a : ndarray A) : ndarray A :=
  {| shape := [length (data a); 1]; data := data a |}.

(** [a[i, j, k]] of an array of three axes *)
Definition at3 {A} (a : ndarray A) (i j k : nat) (d : A) : A :=
  match shape a with
  | [_; d1; d2] => nth ((i * d1 + j) * d2 + k) (data a) d
  | _ => d
  end.

(** [a[i, j]] of an array of two axes *)
Definition at2 {A} (a : ndarray A) (i j : nat) (d : A) : A :=
  match shape a with
  | [_; d1] => nth (i * d1 + j) (data a) d
  | _ => d
  end.

(* ------------------------------------------------------------------ *)
(** ** [devices/antenna_array.py] *)

Module Ant.

Definition vec3 : Type := (R * R * R)%type.
Definition vx (p : vec3) : R := fst (fst p).
Definition vy (p : vec3) : R := snd (fst p).
Definition vz (p : vec3) : R := snd p.
Definition vadd (p q : vec3) : vec3 := (vx p + vx q, vy p + vy q, vz p + vz q)%R.
Definition vsub (p q : vec3) : vec3 := (vx p - vx q, vy p - vy q, vz p - vz q)%R.

(** [ndarray.dtype], as far as it decides what an operation does:
    [np.array] of integers is an [int64] array, and NumPy refuses to
    store the floating-point result of an in-place operation in it. *)
Inductive dtype : Type := int64 | float64.

(** [np.result_type(a, b)] *)
Definition promote (a b : dtype) : dtype :=
  match a, b with
  | int64, int64 => int64
  | _, _ => float64
  end.

(** The attributes [__init__] sets.  [coordinates] has one row per
    element, and [coordinates_dtype] is the element type of that array;
    nothing ties [num_antennas] to the number of rows. *)
Record AntennaArray : Type :=
  { num_antennas : nat;
    coordinates : list vec3;
    coordinates_dtype : dtype;
    weights : list C;
    name : string;
    frequency : R;
    power : R;
    noise_power : R }.

(** [np.finfo(float).tiny] *)
Definition tiny : R := (/ 2 ^ 1022)%R.

(** [AntennaArray.N] *)
Definition N (self : AntennaArray) : nat := num_antennas self.

(** [AntennaArray._noise_power] *)
Definition _noise_power (self : AntennaArray) : R :=
  if Rlt_dec 0 (noise_power self) then noise_power self else tiny.

(** The attributes and properties of the class that hold a number, by
    name: what [getattr(self, attr)] finds.  A name that the class does
    not define is [None], the [AttributeError] of the attribute access. *)
Definition getattr (self : AntennaArray) (attr : string) : option R :=
  if String.eqb attr "num_antennas" then Some (INR (num_antennas self))
  else if String.eqb attr "N" then Some (INR (num_antennas self))
  else if String.eqb attr "Nr" then Some (INR (num_antennas self))
  else if String.eqb attr "Nt" then Some (INR (num_antennas self))
  else if String.eqb attr "frequency" then Some (frequency self)
  else if String.eqb attr "power" then Some (power self)
  else if String.eqb attr "noise_power" then Some (noise_power self)
  else if String.eqb attr "_noise_power" then Some (_noise_power self)
  else if String.eqb attr "power_dbm" then Some (10 * (ln (power self) / ln 10))%R
  else if String.eqb attr "noise_power_dbm" then Some (10 * (ln (_noise_power self) / ln 10))%R
  else None.

(** [np.mean(self.coordinates, axis=0)] *)
Definition mean (l : list vec3) : vec3 :=
  let n := INR (length l) in
  (fold_right Rplus 0 (map vx l) / n,
   fold_right Rplus 0 (map vy l) / n,
   fold_right Rplus 0 (map vz l) / n)%R.

(** [AntennaArray.location] and [AntennaArray.array_center] *)
Definition location (self : AntennaArray) : vec3 := mean (coordinates self).
Definition array_center (self : AntennaArray) : vec3 := mean (coordinates self).

Definition with_coordinates (f : list vec3 -> list vec3) (self : AntennaArray) : AntennaArray :=
  {| num_antennas := num_antennas self; coordinates := f (coordinates self);
     coordinates_dtype := coordinates_dtype self;
     weights := weights self; name := name self; frequency := frequency self;
     power := power self; noise_power := noise_power self |}.

(** [self.coordinates = a] for a new array [a] *)
Definition assign_coordinates (dt : dtype) (cs : list vec3) (self : AntennaArray)
    : AntennaArray :=
  {| num_antennas := num_antennas self; coordinates := cs; coordinates_dtype := dt;
     weights := weights self; name := name self; frequency := frequency self;
     power := power self; noise_power := noise_power self |}.

(** The setter of [location]: [self.coordinates += location -
    self.location].  The mean, and with it the difference, is a
    [float64] array, which the in-place sum cannot store in integer
    coordinates: NumPy raises [UFuncTypeError], a [TypeError], and the
    coordinates stay.  Otherwise every row moves by the difference (the
    sums are those of the reals here, and rounded in the source). *)
Definition set_location (loc : vec3) : M AntennaArray unit :=
  fun self =>
    let delta_location := vsub loc (location self) in
    match coordinates_dtype self with
    | int64 => (Raise TypeError, self)
    | float64 => (Ret tt, with_coordinates (map (fun p => vadd p delta_location)) self)
    end.

(** The phase of one element at one direction, as the expression in
    [get_array_response] computes it. *)
Definition phase (dx dy dz az el : R) : R :=
  (dx * sin az * cos el + dy * cos az * cos el + dz * sin el)%R.

(** [AntennaArray.get_array_response] without a torch device.  [az] and
    [el] are the flattened angle arrays (a scalar is one entry). *)
Definition _get_array_response_numpy (self : AntennaArray) (az el : list R) : res (ndarray C) :=
  match coordinates self with
  | [] => Raise IndexError
  | p0 :: _ =>
      let dx := map (fun p => (vx p - vx p0)%R) (coordinates self) in
      let dy := map (fun p => (vy p - vy p0)%R) (coordinates self) in
      let dz := map (fun p => (vz p - vz p0)%R) (coordinates self) in
      let array_response :=
        {| shape := [length az; length el; length (coordinates self)];
           data :=
             flat_map (fun a =>
               flat_map (fun e =>
                 map (fun d =>
                        Cexp (Cscale (Cscale (Cscale Ci 2) PI)
                                     (phase (fst (fst d)) (snd (fst d)) (snd d) a e)))
                     (combine (combine dx dy) dz)) el) az |} in
      let array_response := squeeze array_response in
      Ret (if Nat.eqb (num_antennas self) 1
           then reshape_column array_response
           else array_response)
  end.

(** [AntennaArray._get_array_response_torch]; the tensor is returned as
    a NumPy array. *)
Definition _get_array_response_torch (self : AntennaArray) (az el : list R) : res (ndarray C) :=
  match coordinates self with
  | [] => Raise IndexError
  | p0 :: _ =>
      let nc := coordinates self in
      let dx := map (fun p => (vx p - vx p0)%R) nc in
      let dy := map (fun p => (vy p - vy p0)%R) nc in
      let dz := map (fun p => (vz p - vz p0)%R) nc in
      let array_response :=
        squeeze
          {| shape := [length az; length el; length nc];
             data :=
               flat_map (fun a =>
                 flat_map (fun e =>
                   map (fun d =>
                          Cexp (Cscale (Cscale (Cscale Ci 2) PI)
                                       (phase (fst (fst d)) (snd (fst d)) (snd d) a e)))
                       (combine (combine dx dy) dz)) el) az |} in
      Ret (if Nat.eqb (num_antennas self) 1
           then reshape_column array_response
           else array_response)
  end.

(** [AntennaArray.get_array_response(az, el, torch_device)] *)
Definition get_array_response (self : AntennaArray) (az el : list R)
    (torch_device : option string) : res (ndarray C) :=
  match torch_device with
  | Some _ => _get_array_response_torch self az el
  | None => _get_array_response_numpy self az el
  end.

(** [AntennaArray._match_coordinates]: for every queried row, in order,
    the indices of the rows of the array equal to it. *)
Definition vec3_eqb (p q : vec3) : bool :=
  (if Req_dec_T (vx p) (vx q) then true else false) &&
  (if Req_dec_T (vy p) (vy q) then true else false) &&
  (if Req_dec_T (vz p) (vz q) then true else false).

Definition _match_coordinates (self : AntennaArray) (coords : list vec3) : list nat :=
  flat_map (fun q =>
    map fst (filter (fun ip => vec3_eqb q (snd ip))
                    (combine (seq 0 (length (coordinates self))) (coordinates self))))
    coords.

(** [np.delete(a, indices, axis=0)]: an index past the end is an
    [IndexError]. *)
Definition np_delete {A} (a : list A) (indices : list nat) : res (list A) :=
  if forallb (fun i => Nat.ltb i (length a)) indices
  then Ret (map snd (filter (fun ip => negb (existsb (Nat.eqb (fst ip)) indices))
                            (combine (seq 0 (length a)) a)))
  else Raise IndexError.

(** The body shared by the two local functions of [remove_elements]. *)
Definition delete_rows (indices : list nat) : M AntennaArray unit :=
  fun self =>
    match np_delete (coordinates self) indices with
    | Raise e => (Raise e, self)
    | Ret cs =>
        let self1 := with_coordinates (fun _ => cs) self in
        match np_delete (weights self1) indices with
        | Raise e => (Raise e, self1)
        | Ret ws =>
            (Ret tt,
             {| num_antennas := num_antennas self1 - length indices;
                coordinates := coordinates self1;
                coordinates_dtype := coordinates_dtype self1; weights := ws;
                name := name self1; frequency := frequency self1;
                power := power self1; noise_power := noise_power self1 |})
        end
    end.

Definition _remove_elements_by_coord (coords : list vec3) : M AntennaArray unit :=
  fun self => delete_rows (_match_coordinates self coords) self.

Definition _remove_elements_by_idx (indices : list nat) : M AntennaArray unit :=
  delete_rows indices.

(** A call of a function defined with [params] parameters on [args]
    positional arguments: Python binds them before the body runs, and
    raises [TypeError] when their numbers differ. *)
Definition call {S A} (params args : nat) (body : M S A) : M S A :=
  if Nat.eqb params args then body else raise TypeError.

(** [AntennaArray.remove_elements].  The two local functions are
    defined as [(self, coordinates)] and [(self, indices)] and called
    with the one argument [coordinates], or [indices]. *)
Definition remove_elements (coords : option (list vec3)) (indices : option (list nat))
    : M AntennaArray unit :=
  match coords with
  | Some c => call 2 1 (_remove_elements_by_coord c)
  | None =>
      match indices with
      | Some i => call 2 1 (_remove_elements_by_idx i)
      | None => raise ValueError
      end
  end.

(* ------------------------------------------------------------------ *)
(** *** The array response *)

Lemma length_flat_map_uniform {A B} (f : A -> list B) (l : list A) (n : nat) :
  (forall a, length (f a) = n) -> length (flat_map f l) = length l * n.
Proof.
  intros Hf. induction l as [|a l IH]; simpl; [reflexivity|].
  rewrite length_app, Hf, IH. reflexivity.
Qed.

(** Entry [i * n + k] of rows of length [n] laid end to end is entry
    [k] of row [i]. *)
Lemma nth_flat_map_uniform {A B} (f : A -> list B) (l : list A) (n i k : nat) (d : B) (a0 : A) :
  (forall a, length (f a) = n) -> i < length l -> k < n ->
  nth (i * n + k) (flat_map f l) d = nth k (f (nth i l a0)) d.
Proof.
  intros Hf. revert i. induction l as [|a l IH]; intros i Hi Hk; simpl in Hi; [lia|].
  simpl flat_map. destruct i as [|i].
  - simpl. apply app_nth1. now rewrite Hf.
  - rewrite app_nth2; rewrite Hf; [|simpl; lia].
    replace (S i * n + k - n) with (i * n + k) by (simpl; lia).
    simpl nth. apply IH; [lia | assumption].
Qed.

Lemma combine3_map {A} (f g h : A -> R) (l : list A) :
  combine (combine (map f l) (map g l)) (map h l) = map (fun p => (f p, g p, h p)) l.
Proof. induction l as [|a l IH]; simpl; [reflexivity | now rewrite IH]. Qed.

(** [exp(1j * 2 * pi * x)], as the code multiplies it out, is
    [exp(i * (2 pi x))]. *)
Lemma Cexp_2pi (x : R) :
  Cexp (Cscale (Cscale (Cscale Ci 2) PI) x) = Cexp (Cscale Ci (2 * PI * x)).
Proof.
  unfold Cexp, Cscale, Ci. simpl.
  replace (0 * 2 * PI * x)%R with 0%R by ring.
  replace (0 * (2 * PI * x))%R with 0%R by ring.
  replace (1 * 2 * PI * x)%R with (1 * (2 * PI * x))%R by ring.
  reflexivity.
Qed.

Lemma Cexp_i_0 : Cexp (Cscale Ci (2 * PI * 0)) = C1.
Proof.
  unfold Cexp, Cscale, Ci, C1. simpl.
  replace (0 * (2 * PI * 0))%R with 0%R by ring.
  replace (1 * (2 * PI * 0))%R with 0%R by ring.
  rewrite exp_0, cos_0, sin_0. f_equal; ring.
Qed.

Lemma phase_origin (az el : R) (p : vec3) :
  phase (vx p - vx p) (vy p - vy p) (vz p - vz p) az el = 0%R.
Proof. unfold phase. ring. Qed.

(** The response of one element at one direction: [exp(i * 2 pi * (dx
    sin az cos el + dy cos az cos el + dz sin el))] for the displacement
    of [p] from [p0]. *)
Definition element_response (p0 p : vec3) (az el : R) : C :=
  Cexp (Cscale Ci (2 * PI * phase (vx p - vx p0) (vy p - vy p0) (vz p - vz p0) az el)).

(** The entries of the response, one row of elements per direction. *)
Definition response_entries (cs : list vec3) (p0 : vec3) (az el : list R) : list C :=
  flat_map (fun a => flat_map (fun e => map (fun p => element_response p0 p a e) cs) el) az.

Lemma get_array_response_data (self : AntennaArray) (p0 : vec3) (rest : list vec3)
    (az el : list R) (dev : option string) :
  coordinates self = p0 :: rest ->
  exists r, get_array_response self az el dev = Ret r /\
            data r = response_entries (p0 :: rest) p0 az el.
Proof.
  intros Hc.
  assert (E : forall a e,
             map (fun d => Cexp (Cscale (Cscale (Cscale Ci 2) PI)
                                        (phase (fst (fst d)) (snd (fst d)) (snd d) a e)))
                 (combine (combine (map (fun p => (vx p - vx p0)%R) (p0 :: rest))
                                   (map (fun p => (vy p - vy p0)%R) (p0 :: rest)))
                          (map (fun p => (vz p - vz p0)%R) (p0 :: rest)))
             = map (fun p => element_response p0 p a e) (p0 :: rest)).
  { intros a e. rewrite combine3_map, map_map. apply map_ext. intros p. simpl.
    apply Cexp_2pi. }
  assert (D : flat_map (fun a => flat_map (fun e =>
                 map (fun d => Cexp (Cscale (Cscale (Cscale Ci 2) PI)
                                            (phase (fst (fst d)) (snd (fst d)) (snd d) a e)))
                     (combine (combine (map (fun p => (vx p - vx p0)%R) (p0 :: rest))
                                       (map (fun p => (vy p - vy p0)%R) (p0 :: rest)))
                              (map (fun p => (vz p - vz p0)%R) (p0 :: rest)))) el) az
              = response_entries (p0 :: rest) p0 az el).
  { unfold response_entries. apply flat_map_ext. intros a.
    apply flat_map_ext. intros e. apply E. }
  destruct dev as [dev|]; simpl;
    [unfold _get_array_response_torch | unfold _get_array_response_numpy];
    rewrite Hc; eexists; (split; [reflexivity|]);
    destruct (Nat.eqb (num_antennas self) 1); simpl; exact D.
Qed.

Lemma response_entries_length (cs : list vec3) (p0 : vec3) (az el : list R) :
  length (response_entries cs p0 az el) = length az * (length el * length cs).
Proof.
  unfold response_entries. apply length_flat_map_uniform. intros a.
  apply length_flat_map_uniform. intros e. apply length_map.
Qed.

Lemma response_entries_nth (cs : list vec3) (p0 : vec3) (az el : list R) (i j k : nat) :
  i < length az -> j < length el -> k < length cs ->
  nth ((i * length el + j) * length cs + k) (response_entries cs p0 az el) C0
  = element_response p0 (nth k cs p0) (nth i az 0%R) (nth j el 0%R).
Proof.
  intros Hi Hj Hk. unfold response_entries.
  assert (L1 : forall a e, length (map (fun p => element_response p0 p a e) cs) = length cs)
    by (intros; apply length_map).
  assert (L2 : forall a, length (flat_map (fun e => map (fun p => element_response p0 p a e) cs) el)
                         = length el * length cs).
  { intros a. apply length_flat_map_uniform. intros e. apply L1. }
  replace ((i * length el + j) * length cs + k)
    with (i * (length el * length cs) + (j * length cs + k)) by lia.
  rewrite (nth_flat_map_uniform _ az C0 0%R L2 Hi) by nia.
  rewrite (nth_flat_map_uniform _ el C0 0%R (L1 (nth i az 0%R)) Hj Hk).
  rewrite (nth_indep _ C0 (element_response p0 p0 (nth i az 0%R) (nth j el 0%R)))
    by (rewrite length_map; exact Hk).
  apply (map_nth (fun p => element_response p0 p (nth i az 0%R) (nth j el 0%R))).
Qed.

(** The response the specification gives to an element displaced by
    [(dx, dy, dz)] from element 0, for a wave from [(az, el)]:
    [exp(i 2 pi (dx sin az cos el + dy cos az cos el + dz sin el))],
    that is the complex number of modulus one with that phase. *)
Definition claimed_response (dx dy dz az el : R) : C :=
  (cos (2 * PI * (dx * sin az * cos el + dy * cos az * cos el + dz * sin el)),
   sin (2 * PI * (dx * sin az * cos el + dy * cos az * cos el + dz * sin el)))%R.

Lemma element_response_claimed (p0 p : vec3) (az el : R) :
  element_response p0 p az el
  = claimed_response (vx p - vx p0) (vy p - vy p0) (vz p - vz p0) az el.
Proof.
  unfold element_response, claimed_response, phase, Cexp, Cscale, Ci. cbn [fst snd].
  rewrite Rmult_0_l, exp_0, Rmult_1_l, !Rmult_1_l. reflexivity.
Qed.

(** C5.  For an array with at least one element, and for all azimuths
    and elevations, on the NumPy path and on the torch path,
    [get_array_response] returns one entry per direction and element,
    and the entry for the element at displacement [(dx, dy, dz)] from
    element 0 is [exp(i 2 pi (dx sin az cos el + dy cos az cos el + dz
    sin el))], the number with real part the cosine and imaginary part
    the sine of that phase; the entry of element 0 is [1 + 0i] at every
    direction. *)
Theorem get_array_response_formula (self : AntennaArray) (p0 : vec3) (rest : list vec3)
    (az el : list R) (dev : option string) :
  coordinates self = p0 :: rest ->
  exists r,
    get_array_response self az el dev = Ret r /\
    length (data r) = length az * (length el * length (p0 :: rest)) /\
    (forall i j k, i < length az -> j < length el -> k < length (p0 :: rest) ->
       nth ((i * length el + j) * length (p0 :: rest) + k) (data r) C0
       = claimed_response (vx (nth k (p0 :: rest) p0) - vx p0)
                          (vy (nth k (p0 :: rest) p0) - vy p0)
                          (vz (nth k (p0 :: rest) p0) - vz p0)
                          (nth i az 0%R) (nth j el 0%R)) /\
    (forall i j, i < length az -> j < length el ->
       nth ((i * length el + j) * length (p0 :: rest) + 0) (data r) C0 = C1).
Proof.
  intros Hc. destruct (get_array_response_data self az el dev Hc) as (r & Hr & Hd).
  exists r. split; [assumption|]. rewrite Hd.
  split; [apply response_entries_length|]. split.
  - intros i j k Hi Hj Hk. rewrite response_entries_nth by assumption.
    apply element_response_claimed.
  - intros i j Hi Hj. rewrite response_entries_nth; [|assumption|assumption|simpl; lia].
    simpl nth. unfold element_response. rewrite phase_origin. apply Cexp_i_0.
Qed.

(* ------------------------------------------------------------------ *)
(** *** Moving an array, and removing elements *)

(** The two ways the setter of [location] can go. *)
Lemma set_location_int64 (loc : vec3) (self : AntennaArray) :
  coordinates_dtype self = int64 -> set_location loc self = (Raise TypeError, self).
Proof. intros E. unfold set_location. now rewrite E. Qed.

Lemma set_location_float64 (loc : vec3) (self : AntennaArray) :
  coordinates_dtype self = float64 ->
  set_location loc self
  = (Ret tt, with_coordinates (map (fun p => vadd p (vsub loc (location self)))) self).
Proof. intros E. unfold set_location. now rewrite E. Qed.

(** [remove_elements] never reaches the body of its local functions:
    with coordinates or with indices the call raises [TypeError], and
    with neither it raises [ValueError]; the array is as it was. *)
Lemma remove_elements_raises (coords : option (list vec3)) (indices : option (list nat))
    (self : AntennaArray) :
  exists e, remove_elements coords indices self = (Raise e, self).
Proof.
  destruct coords as [c|]; [|destruct indices as [i|]]; eexists; reflexivity.
Qed.

(** A two-element array, half a wavelength apart along [x]. *)
Definition two_elements : AntennaArray :=
  {| num_antennas := 2; coordinates := [(0, 0, 0)%R; (1 / 2, 0, 0)%R];
     coordinates_dtype := float64;
     weights := [C1; C1]; name := "AntennaArray"; frequency := 1;
     power := 1; noise_power := 0 |}.

Lemma get_array_response_formula_witness :
  coordinates two_elements = [(0, 0, 0)%R; (1 / 2, 0, 0)%R] /\
  exists r, get_array_response two_elements [(PI / 2)%R] [0%R] None = Ret r /\
            nth 0 (data r) C0 = C1 /\
            nth 1 (data r) C0 = (-1, 0)%R.
Proof.
  split; [reflexivity|].
  destruct (@get_array_response_formula two_elements (0, 0, 0)%R [(1 / 2, 0, 0)%R]
              [(PI / 2)%R] [0%R] None eq_refl) as (r & Hr & _ & Hk & H0).
  exists r. split; [exact Hr|]. split.
  - apply (H0 0 0); simpl; lia.
  - specialize (Hk 0 0 1). cbn [length Nat.mul Nat.add] in Hk.
    rewrite Hk by lia.
    unfold claimed_response. cbn [nth vx vy vz fst snd].
    rewrite sin_PI2, cos_0, sin_0.
    replace (2 * PI * ((1 / 2 - 0) * 1 * 1 + (0 - 0) * cos (PI / 2) * 1 + (0 - 0) * 0))%R
      with PI by field.
    now rewrite cos_PI, sin_PI.
Defined.

(* ------------------------------------------------------------------ *)
(** *** The noise floor, weights, and adding elements *)

Definition with_weights (ws : list C) (self : AntennaArray) : AntennaArray :=
  {| num_antennas := num_antennas self; coordinates := coordinates self;
     coordinates_dtype := coordinates_dtype self;
     weights := ws; name := name self; frequency := frequency self;
     power := power self; noise_power := noise_power self |}.

(** [np.ones(n)] *)
Definition ones (n : nat) : list C := repeat C1 n.

(** [AntennaArray.reset] *)
Definition reset (self : AntennaArray) : AntennaArray :=
  with_weights (ones (num_antennas self)) self.

(** [AntennaArray.set_weights]: one number for every element, or one
    per element. *)
Definition set_weights (ws : arg C) : M AntennaArray unit :=
  fun self =>
    match ws with
    | One w => (Ret tt, with_weights (map (fun o => Cmul w o) (ones (num_antennas self))) self)
    | Many l =>
        if negb (Nat.eqb (length l) (num_antennas self)) then (Raise ValueError, self)
        else (Ret tt, with_weights l self)
    end.

(** [self.weights[indices]] *)
Fixpoint take_indices {A} (l : list A) (indices : list nat) : res (list A) :=
  match indices with
  | [] => Ret []
  | i :: rest =>
      match nth_error l i with
      | None => Raise IndexError
      | Some x => xs <~ take_indices l rest ;; Ret (x :: xs)
      end
  end.

(** [AntennaArray.get_weights]; the indices it prints are not kept. *)
Definition get_weights (coords : option (list vec3)) (self : AntennaArray) : res (list C) :=
  match coords with
  | None => Ret (weights self)
  | Some c =>
      let indices := _match_coordinates self c in
      if Nat.eqb (length indices) 0 then Raise ValueError
      else take_indices (weights self) indices
  end.

(** The rows handed to [add_elements]: an array of shape [(k, 3)], or
    a plain list of [k] rows, with the element type [np.concatenate]
    finds for them. *)
Inductive rows_arg : Type :=
| NdArray (dt : dtype) (rows : list vec3)
| PyList (dt : dtype) (rows : list vec3).

(** [AntennaArray.add_elements].  The coordinates are assigned first.
    [np.concatenate] takes a list as well, unless it is empty (one axis
    against two); a list has no [shape], so the next statement raises
    [AttributeError] with the new coordinates in place. *)
Definition add_elements (coords : rows_arg) : M AntennaArray unit :=
  fun self =>
    let joined (dt : dtype) (rows : list vec3) :=
      {| num_antennas := num_antennas self;
         coordinates := coordinates self ++ rows;
         coordinates_dtype := promote (coordinates_dtype self) dt;
         weights := weights self; name := name self; frequency := frequency self;
         power := power self; noise_power := noise_power self |} in
    match coords with
    | PyList _ [] => (Raise ValueError, self)
    | PyList dt rows => (Raise AttributeError, joined dt rows)
    | NdArray dt rows =>
        let self1 := joined dt rows in
        (Ret tt,
         {| num_antennas := num_antennas self1 + length rows;
            coordinates := coordinates self1;
            coordinates_dtype := coordinates_dtype self1;
            weights := weights self1 ++ ones (length rows);
            name := name self1; frequency := frequency self1;
            power := power self1; noise_power := noise_power self1 |})
    end.

(** The sizes agree: as many rows and as many weights as [num_antennas]. *)
Definition sized (self : AntennaArray) : Prop :=
  length (coordinates self) = num_antennas self /\
  length (weights self) = num_antennas self.

Lemma tiny_pos : (0 < tiny)%R.
Proof. unfold tiny. apply Rinv_0_lt_compat, pow_lt. lra. Qed.

(** X1.  The noise power used in ratios is positive for every array: the
    stored value when that is positive, the smallest positive float
    otherwise. *)
Theorem noise_power_floor (self : AntennaArray) :
  (0 < _noise_power self)%R /\
  ((0 < noise_power self)%R -> _noise_power self = noise_power self) /\
  ((noise_power self <= 0)%R -> _noise_power self = tiny).
Proof.
  unfold _noise_power. destruct (Rlt_dec 0 (noise_power self)) as [Hp|Hn].
  - repeat split; auto. intros. lra.
  - repeat split; try apply tiny_pos; auto. intros. lra.
Qed.

Lemma Cmul_C1_r (w : C) : Cmul w C1 = w.
Proof. destruct w as [a b]. unfold Cmul, C1. cbn [fst snd]. f_equal; ring. Qed.

(** X4.  [set_weights] with one number gives every element that weight; with
    a vector of the wrong length it raises [ValueError] and changes
    nothing; with a vector of the right length it stores the vector. *)
Theorem set_weights_checked (self : AntennaArray) :
  (forall w, set_weights (One w) self
             = (Ret tt, with_weights (repeat w (num_antennas self)) self)) /\
  (forall l, length l <> num_antennas self ->
             set_weights (Many l) self = (Raise ValueError, self)) /\
  (forall l, length l = num_antennas self ->
             set_weights (Many l) self = (Ret tt, with_weights l self)).
Proof.
  split; [|split].
  - intros w. unfold set_weights, ones. do 2 f_equal.
    induction (num_antennas self) as [|n IH]; simpl; [reflexivity|].
    now rewrite Cmul_C1_r, IH.
  - intros l Hl. unfold set_weights. apply Nat.eqb_neq in Hl. now rewrite Hl.
  - intros l Hl. unfold set_weights. apply Nat.eqb_eq in Hl. now rewrite Hl.
Qed.

(** X5.  On an array with as many rows and as many weights as
    [num_antennas]: setting the location (whether it succeeds or
    raises), [add_elements] with an array of rows, [reset] and
    [set_weights] (whether it succeeds or raises) leave the three in
    step.  [add_elements] with a plain list of rows does not: it raises
    [AttributeError] after the rows have joined the coordinates, so the
    array is left with more rows than [num_antennas] and weights. *)
Theorem sizes_kept (self : AntennaArray) :
  sized self ->
  (forall loc, sized (snd (set_location loc self))) /\
  (forall dt rows,
     exists self', add_elements (NdArray dt rows) self = (Ret tt, self') /\ sized self') /\
  (forall dt rows, rows <> [] ->
     exists self',
       add_elements (PyList dt rows) self = (Raise AttributeError, self') /\
       length (coordinates self') = num_antennas self' + length rows /\
       length (weights self') = num_antennas self' /\
       ~ sized self') /\
  sized (reset self) /\
  (forall ws, sized (snd (set_weights ws self))).
Proof.
  unfold sized. intros [Hc Hw]. split; [|split; [|split; [|split]]].
  - intros loc. unfold set_location. destruct (coordinates_dtype self); cbn.
    + now split.
    + rewrite length_map. now split.
  - intros dt rows. eexists. split; [reflexivity|]. cbn. unfold ones.
    rewrite !length_app, repeat_length, Hc, Hw. now split.
  - intros dt rows Hne. destruct rows as [|r rows]; [congruence|].
    eexists. split; [reflexivity|]. cbn [coordinates num_antennas weights].
    rewrite length_app, Hc. split; [reflexivity|]. split; [exact Hw|].
    cbn [length]. intros [E _]. lia.
  - cbn. split; [exact Hc | apply repeat_length].
  - intros ws. destruct ws as [w|l]; cbn.
    + unfold ones. rewrite length_map, repeat_length. now split.
    + destruct (Nat.eqb_spec (length l) (num_antennas self)) as [E|E]; cbn; now split.
Qed.

(* ------------------------------------------------------------------ *)
(** *** Matching coordinates *)

Lemma vec3_eqb_eq (p q : vec3) : vec3_eqb p q = true <-> p = q.
Proof.
  destruct p as [[a b] c], q as [[a' b'] c']. unfold vec3_eqb, vx, vy, vz. cbn [fst snd].
  destruct (Req_dec_T a a'), (Req_dec_T b b'), (Req_dec_T c c'); cbn;
    split; intros E; try discriminate; try congruence.
Qed.

Lemma In_combine_seq {A} (l : list A) (s i : nat) (x : A) :
  In (i, x) (combine (seq s (length l)) l) <-> s <= i /\ nth_error l (i - s) = Some x.
Proof.
  revert s. induction l as [|y l IH]; intros s; cbn [length seq combine].
  - split; [intros [] | intros [_ E]]. now destruct (i - s).
  - cbn [In]. rewrite IH. split.
    + intros [E|[Hs E]].
      * injection E as <- <-. rewrite Nat.sub_diag. split; [lia | reflexivity].
      * split; [lia|]. replace (i - s) with (S (i - S s)) by lia. exact E.
    + intros [Hs E]. destruct (Nat.eq_dec s i) as [<-|Hne].
      * left. rewrite Nat.sub_diag in E. cbn in E. congruence.
      * right. split; [lia|]. replace (i - s) with (S (i - S s)) in E by lia. exact E.
Qed.

Lemma take_indices_in_range {A} (l : list A) (indices : list nat) (d : A) :
  (forall i, In i indices -> i < length l) ->
  take_indices l indices = Ret (map (fun i => nth i l d) indices).
Proof.
  induction indices as [|i rest IH]; intros Hr; [reflexivity|].
  cbn [take_indices map]. destruct (nth_error l i) as [x|] eqn:E.
  - rewrite IH by (intros j Hj; apply Hr; now right). cbn [rbind].
    now rewrite (nth_error_nth _ _ d E).
  - apply nth_error_None in E. specialize (Hr i (or_introl eq_refl)). lia.
Qed.

(** X8.  [_match_coordinates] returns the index [i] exactly when row [i] of
    the array is one of the rows asked for. *)
Theorem match_coordinates_indices (self : AntennaArray) (qs : list vec3) (i : nat) :
  In i (_match_coordinates self qs)
  <-> exists q, In q qs /\ nth_error (coordinates self) i = Some q.
Proof.
  unfold _match_coordinates. rewrite in_flat_map. split.
  - intros (q & Hq & Hi). apply in_map_iff in Hi. destruct Hi as ([j p] & Ej & Hf).
    cbn in Ej. subst j. apply filter_In in Hf. destruct Hf as [Hc Hm].
    cbn [snd] in Hm. apply vec3_eqb_eq in Hm. subst p.
    apply In_combine_seq in Hc. rewrite Nat.sub_0_r in Hc. exists q. tauto.
  - intros (q & Hq & Hi). exists q. split; [assumption|].
    apply in_map_iff. exists (i, q). split; [reflexivity|]. apply filter_In. split.
    + apply In_combine_seq. rewrite Nat.sub_0_r. split; [lia | assumption].
    + cbn [snd]. now apply vec3_eqb_eq.
Qed.

Lemma match_coordinates_none (self : AntennaArray) (qs : list vec3) :
  (forall q, In q qs -> ~ In q (coordinates self)) -> _match_coordinates self qs = [].
Proof.
  intros Hno. destruct (_match_coordinates self qs) as [|i l] eqn:E; [reflexivity|].
  assert (Hi : In i (_match_coordinates self qs)) by (rewrite E; now left).
  unfold _match_coordinates in Hi. apply in_flat_map in Hi. destruct Hi as (q & Hq & Hi).
  apply in_map_iff in Hi. destruct Hi as ([j p] & Ej & Hf).
  apply filter_In in Hf. destruct Hf as [Hc Hm]. cbn [snd] in Hm.
  apply vec3_eqb_eq in Hm. subst p. apply In_combine_seq in Hc.
  destruct Hc as [_ Hc]. apply nth_error_In in Hc. exfalso. exact (Hno q Hq Hc).
Qed.

Lemma match_coordinates_in_range (self : AntennaArray) (qs : list vec3) (i : nat) :
  In i (_match_coordinates self qs) -> i < length (coordinates self).
Proof.
  unfold _match_coordinates. rewrite in_flat_map. intros (q & Hq & Hi).
  apply in_map_iff in Hi. destruct Hi as ([j p] & Ej & Hf). cbn in Ej. subst j.
  apply filter_In in Hf. destruct Hf as [Hc _]. apply In_combine_seq in Hc.
  destruct Hc as [_ Hc]. rewrite Nat.sub_0_r in Hc.
  apply nth_error_Some. congruence.
Qed.

(** X9.  [get_weights] without coordinates returns all weights; with
    coordinates of which none is a row of the array it raises
    [ValueError]; and with coordinates that match, on an array with as
    many weights as rows, it returns the weights at the matching rows. *)
Theorem get_weights_by_coordinates (self : AntennaArray) (qs : list vec3) :
  get_weights None self = Ret (weights self) /\
  ((forall q, In q qs -> ~ In q (coordinates self)) ->
   get_weights (Some qs) self = Raise ValueError) /\
  (_match_coordinates self qs <> [] ->
   length (weights self) = length (coordinates self) ->
   get_weights (Some qs) self
   = Ret (map (fun i => nth i (weights self) C0) (_match_coordinates self qs))).
Proof.
  split; [reflexivity|]. split.
  - intros Hno. unfold get_weights. now rewrite (match_coordinates_none self qs Hno).
  - intros Hne Hl. unfold get_weights.
    destruct (_match_coordinates self qs) as [|i l] eqn:E; [congruence|].
    cbn [length Nat.eqb]. rewrite <- E. apply take_indices_in_range.
    intros j Hj. rewrite Hl. now apply (match_coordinates_in_range self qs).
Qed.

(* ------------------------------------------------------------------ *)
(** *** Rotation *)

(** The [rotation_matrix] of [_rotate], row by row. *)
Definition rotation_matrix (x_angle y_angle z_angle : R) : vec3 * vec3 * vec3 :=
  ((cos y_angle * cos z_angle,
    cos z_angle * sin x_angle * sin y_angle - cos x_angle * sin z_angle,
    cos x_angle * cos z_angle * sin y_angle + sin x_angle * sin z_angle),
   (cos y_angle * sin z_angle,
    cos x_angle * cos z_angle + sin x_angle * sin y_angle * sin z_angle,
    - cos z_angle * sin x_angle + cos x_angle * sin y_angle * sin z_angle),
   (- sin y_angle,
    cos y_angle * sin x_angle,
    cos x_angle * cos y_angle))%R.

(** [np.dot(v, m)] for one row [v] *)
Definition dot_row (v : vec3) (m : vec3 * vec3 * vec3) : vec3 :=
  let '(r1, r2, r3) := m in
  (vx v * vx r1 + vy v * vx r2 + vz v * vx r3,
   vx v * vy r1 + vy v * vy r2 + vz v * vy r3,
   vx v * vz r1 + vy v * vz r2 + vz v * vz r3)%R.

(** [np.dot(coordinates, m)] *)
Definition dot_rows (cs : list vec3) (m : vec3 * vec3 * vec3) : list vec3 :=
  map (fun v => dot_row v m) cs.

(** [AntennaArray._rotate].  The class has no method [translate]: the
    call raises before any coordinate is assigned. *)
Definition _rotate (cs : list vec3) (x_angle y_angle z_angle : R)
    : M AntennaArray (list vec3) :=
  let m := rotation_matrix x_angle y_angle z_angle in
  (raise AttributeError : M AntennaArray unit) ;;
  modify (assign_coordinates float64 (dot_rows cs m)) ;;
  (raise AttributeError : M AntennaArray unit) ;;
  ret (dot_rows cs m).

(** [AntennaArray.rotate]; the class has no method [copy] either. *)
Definition rotate (x_angle y_angle z_angle : R) (inplace : bool)
    : M AntennaArray unit :=
  if inplace
  then self <- get ;;
       _rotate (coordinates self) x_angle y_angle z_angle ;;
       ret tt
  else raise AttributeError.

Definition dot3 (a b : vec3) : R := (vx a * vx b + vy a * vy b + vz a * vz b)%R.

Lemma sin_cos_1 (t : R) : (sin t * sin t + cos t * cos t = 1)%R.
Proof. exact (sin2_cos2 t). Qed.

Lemma rotation_rows_orthonormal (x y z : R) :
  let '(r1, r2, r3) := rotation_matrix x y z in
  dot3 r1 r1 = 1%R /\ dot3 r2 r2 = 1%R /\ dot3 r3 r3 = 1%R /\
  dot3 r1 r2 = 0%R /\ dot3 r1 r3 = 0%R /\ dot3 r2 r3 = 0%R.
Proof.
  pose proof (sin_cos_1 x) as Hx. pose proof (sin_cos_1 y) as Hy.
  pose proof (sin_cos_1 z) as Hz.
  unfold rotation_matrix, dot3, vx, vy, vz. cbn [fst snd].
  set (sx := sin x) in *. set (cx := cos x) in *. set (sy := sin y) in *.
  set (cy := cos y) in *. set (sz := sin z) in *. set (cz := cos z) in *.
  repeat split.
  - replace (_ + _ + _)%R
      with ((cz * cz) * (cy * cy) + (cz * cz * (sy * sy) + sz * sz) * (sx * sx + cx * cx))%R
      by ring.
    rewrite Hx. replace (_ + _)%R with (cz * cz * (sy * sy + cy * cy) + sz * sz)%R by ring.
    rewrite Hy. lra.
  - replace (_ + _ + _)%R
      with ((sz * sz) * (cy * cy) + (cz * cz + sy * sy * (sz * sz)) * (sx * sx + cx * cx))%R
      by ring.
    rewrite Hx. replace (_ + _)%R with (sz * sz * (sy * sy + cy * cy) + cz * cz)%R by ring.
    rewrite Hy. lra.
  - replace (_ + _ + _)%R with (sy * sy + cy * cy * (sx * sx + cx * cx))%R by ring.
    rewrite Hx. lra.
  - replace (_ + _ + _)%R
      with (cz * sz * (cy * cy) + cz * sz * (sy * sy) * (sx * sx + cx * cx)
            - cz * sz * (sx * sx + cx * cx))%R by ring.
    rewrite Hx. replace (_ - _)%R with (cz * sz * (sy * sy + cy * cy) - cz * sz)%R by ring.
    rewrite Hy. ring.
  - replace (_ + _ + _)%R
      with (cy * cz * sy * (sx * sx + cx * cx) - sy * cy * cz)%R by ring.
    rewrite Hx. ring.
  - replace (_ + _ + _)%R
      with (cy * sy * sz * (sx * sx + cx * cx) - sy * cy * sz)%R by ring.
    rewrite Hx. ring.
Qed.

(** X11.  The matrix [_rotate] builds from three angles has orthonormal rows,
    so multiplying rows of coordinates by it keeps the inner products
    of the rows.  [rotate] itself never gets that far: in place or not
    it raises [AttributeError] and leaves the array as it was. *)
Theorem rotation_matrix_orthogonal (x y z : R) :
  (forall u v, dot3 (dot_row u (rotation_matrix x y z)) (dot_row v (rotation_matrix x y z))
               = dot3 u v) /\
  (forall (self : AntennaArray) (inplace : bool),
     rotate x y z inplace self = (Raise AttributeError, self)).
Proof.
  split.
  - intros u v. pose proof (rotation_rows_orthonormal x y z) as H.
    destruct (rotation_matrix x y z) as [[r1 r2] r3].
    destruct H as (H11 & H22 & H33 & H12 & H13 & H23).
    unfold dot_row.
    transitivity (vx u * vx v * dot3 r1 r1 + vy u * vy v * dot3 r2 r2
                  + vz u * vz v * dot3 r3 r3
                  + (vx u * vy v + vy u * vx v) * dot3 r1 r2
                  + (vx u * vz v + vz u * vx v) * dot3 r1 r3
                  + (vy u * vz v + vz u * vy v) * dot3 r2 r3)%R.
    + unfold dot3, vx, vy, vz. cbn [fst snd]. ring.
    + rewrite H11, H22, H33, H12, H13, H23. unfold dot3. ring.
  - intros self [|]; reflexivity.
Qed.

(* ------------------------------------------------------------------ *)
(** *** The properties above on the two-element array *)

(** The two-element array with a noise power of one. *)
Definition two_elements_noisy : AntennaArray :=
  {| num_antennas := 2; coordinates := [(0, 0, 0)%R; (1 / 2, 0, 0)%R];
     coordinates_dtype := float64;
     weights := [C1; C1]; name := "AntennaArray"; frequency := 1;
     power := 1; noise_power := 1 |}.

Lemma noise_power_floor_witness :
  _noise_power two_elements = tiny /\ _noise_power two_elements_noisy = 1%R.
Proof.
  split.
  - apply (proj2 (proj2 (noise_power_floor two_elements))). cbn. lra.
  - apply (proj1 (proj2 (noise_power_floor two_elements_noisy))). cbn. lra.
Defined.

Lemma set_weights_checked_witness :
  set_weights (Many [C1]) two_elements = (Raise ValueError, two_elements) /\
  set_weights (Many [C0; C1]) two_elements = (Ret tt, with_weights [C0; C1] two_elements).
Proof.
  split.
  - apply (proj1 (proj2 (set_weights_checked two_elements))). cbn. lia.
  - apply (proj2 (proj2 (set_weights_checked two_elements))). reflexivity.
Defined.

Lemma sizes_kept_witness :
  sized (snd (set_location (1, 2, 3)%R two_elements)) /\
  ~ sized (snd (add_elements (PyList float64 [(1, 0, 0)%R]) two_elements)).
Proof.
  assert (Hs : sized two_elements) by (split; reflexivity).
  destruct (sizes_kept Hs) as (Hloc & _ & Hlist & _).
  split; [apply Hloc|].
  destruct (Hlist float64 [(1, 0, 0)%R]) as (self' & E & _ & _ & Hn); [discriminate|].
  rewrite E. exact Hn.
Defined.

Lemma get_weights_by_coordinates_witness :
  get_weights (Some [(5, 5, 5)%R]) two_elements = Raise ValueError.
Proof.
  apply (proj1 (proj2 (get_weights_by_coordinates two_elements [(5, 5, 5)%R]))).
  intros q [<-|[]] [E|[E|[]]]; injection E; intros; lra.
Defined.

End Ant.

(* ------------------------------------------------------------------ *)
(** ** [channels/ray_cluster.py]: the channel matrix of a ray cluster *)

Module RayCluster.
Import Ant.

(** What [_n_rays] holds.  [__init__] and the setter of [n_rays] make
    an [int64] array of an [int] and store anything else as it was
    given: an [int64] array of counts, or a plain list or tuple of
    them. *)
Inductive ray_counts : Type :=
| CountsArray (counts : list Z)
| CountsList (counts : list Z).

(** The attributes of a [RayClusterChannel] that the synthesis of the
    matrix reads.  [_n_rays] holds the ray counts, one per cluster;
    [device] is what is handed on as [torch_device]. *)
Record RayClusterChannel : Type :=
  { tx : AntennaArray;
    rx : AntennaArray;
    n_clusters : nat;
    _n_rays : ray_counts;
    device : option string }.

(** The value an [int64] holds after a sum that has left its range. *)
Definition wrap64 (z : Z) : Z := ((z + 2 ^ 63) mod 2 ^ 64 - 2 ^ 63)%Z.

(** [RayClusterChannel.total_n_rays]: [self.n_rays.sum()].  The sum of
    an [int64] array wraps around; a list has no [sum]. *)
Definition total_n_rays (self : RayClusterChannel) : res Z :=
  match _n_rays self with
  | CountsArray counts => Ret (wrap64 (fold_left Z.add counts 0%Z))
  | CountsList _ => Raise AttributeError
  end.

(** The length of an axis that two operands share: equal, or one of
    them of length one, which NumPy stretches. *)
Definition broadcast2 (a b : nat) : option nat :=
  if Nat.eqb a 1 then Some b
  else if Nat.eqb b 1 then Some a
  else if Nat.eqb a b then Some a
  else None.

Definition broadcast3 (a b c : nat) : option nat :=
  match broadcast2 a b with
  | Some ab => broadcast2 ab c
  | None => None
  end.

(** The index into an axis of length [d] for position [i] of the
    shared axis: an axis of length one is read at 0 throughout. *)
Definition bidx (d i : nat) : nat := if Nat.eqb d 1 then 0 else i.

(** [np.einsum("bn,bnr,bnt->brt", g, x, y)].  The axes that share a
    letter must agree, up to stretching; entry [b, r, t] is the sum
    over [n] of [g[b, n] * x[b, n, r] * y[b, n, t]]. *)
Definition einsum_bn_bnr_bnt (g x y : ndarray C) : res (ndarray C) :=
  match shape g, shape x, shape y with
  | [b0; n0], [b1; n1; r], [b2; n2; t] =>
      match broadcast3 b0 b1 b2, broadcast3 n0 n1 n2 with
      | Some b, Some n =>
          Ret {| shape := [b; r; t];
                 data :=
                   flat_map (fun bi =>
                     flat_map (fun ri =>
                       map (fun ti =>
                         fold_left Cadd
                           (map (fun ni =>
                                   Cmul (Cmul (at2 g (bidx b0 bi) (bidx n0 ni) C0)
                                              (at3 x (bidx b1 bi) (bidx n1 ni) ri C0))
                                        (at3 y (bidx b2 bi) (bidx n2 ni) ti C0))
                                (seq 0 n))
                           C0)
                         (seq 0 t))
                       (seq 0 r))
                     (seq 0 b) |}
      | _, _ => Raise ValueError
      end
  | _, _, _ => Raise ValueError
  end.

(** [a.conj()], entry by entry *)
Definition conj (a : ndarray C) : ndarray C :=
  {| shape := shape a; data := map Cconj (data a) |}.

(** [a /= x] for a real [x] *)
Definition div_real (a : ndarray C) (x : R) : ndarray C :=
  {| shape := shape a; data := map (fun z => Cdivr z x) (data a) |}.

(** The part the two variants share: the responses at the flattened
    angles, at elevation 0, brought back to the shape of the angles, and
    the contraction over the rays. *)
Definition superpose (self : RayClusterChannel) (aoa aod : ndarray R) (gain : ndarray C)
    : res (ndarray C) :=
  arx <~ get_array_response (rx self) (data aoa) [0%R] (device self) ;;
  atx <~ get_array_response (tx self) (data aod) [0%R] (device self) ;;
  arx <~ reshape_rest (shape aoa) arx ;;
  atx <~ reshape_rest (shape aod) atx ;;
  einsum_bn_bnr_bnt gain arx (conj atx).

(** [RayClusterChannel._torch_generate_channel_matrix].  [np.sqrt] of
    the ray count is a NumPy scalar, which has no attribute [cpu]. *)
Definition _torch_generate_channel_matrix (self : RayClusterChannel)
    (aoa aod : ndarray R) (gain : ndarray C) : res (ndarray C) :=
  _H <~ superpose self aoa aod gain ;;
  _total <~ total_n_rays self ;;
  Raise AttributeError.

(** [RayClusterChannel.generate_channel_matrix].  The ray count is read
    after the contraction.  For a count that is not positive the source
    divides by [nan] or by zero and returns entries that are not
    numbers; the reals have no such entries, and nothing below is said
    about that case. *)
Definition generate_channel_matrix (self : RayClusterChannel)
    (aoa aod : ndarray R) (gain : ndarray C) (use_torch : bool) : res (ndarray C) :=
  if use_torch then _torch_generate_channel_matrix self aoa aod gain
  else
    H <~ superpose self aoa aod gain ;;
    total <~ total_n_rays self ;;
    Ret (div_real H (sqrt (IZR total))).

(** *** The matrix as a sum over rays *)

Definition matrix : Type := list (list C).

Definition zip_with {A B D} (f : A -> B -> D) (l : list A) (l' : list B) : list D :=
  map (fun ab => f (fst ab) (snd ab)) (combine l l').

(** [u v^T]: entry [r, t] is [u_r * v_t] *)
Definition outer (u v : list C) : matrix := map (fun a => map (fun b => Cmul a b) v) u.
Definition madd (m m' : matrix) : matrix := zip_with (zip_with Cadd) m m'.
Definition mscale (g : C) (m : matrix) : matrix := map (map (Cmul g)) m.
Definition mdivr (m : matrix) (x : R) : matrix := map (map (fun z => Cdivr z x)) m.
Definition mzero (r t : nat) : matrix := repeat (repeat C0 t) r.

(** The response vector of an array at one azimuth, elevation 0. *)
Definition steering (a : AntennaArray) (az : R) (dev : option string) : list C :=
  match get_array_response a [az] [0%R] dev with
  | Ret r => data r
  | Raise _ => []
  end.

(** One ray: its gain, its angle of arrival, its angle of departure. *)
Definition ray : Type := (C * R * R)%type.

(** The rays of realisation [bi]. *)
Definition rays_of (aoa aod : ndarray R) (gain : ndarray C) (bi n : nat) : list ray :=
  map (fun ni => (at2 gain bi ni C0, at2 aoa bi ni 0%R, at2 aod bi ni 0%R)) (seq 0 n).

(** The sum over the rays of gain times the outer product of the receive
    response with the conjugated transmit response. *)
Definition ray_sum (self : RayClusterChannel) (rays : list ray) : matrix :=
  fold_left
    (fun acc (y : ray) =>
       madd acc (mscale (fst (fst y))
                        (outer (steering (rx self) (snd (fst y)) (device self))
                               (map Cconj (steering (tx self) (snd y) (device self))))))
    rays
    (mzero (length (coordinates (rx self))) (length (coordinates (tx self)))).

(** The total ray count, summed across the clusters. *)
Definition rays_over_clusters (counts : list Z) : Z := fold_right Z.add 0%Z counts.

(** The sum over the rays, divided by the square root of the total. *)
Definition normalized_ray_sum (self : RayClusterChannel) (rays : list ray) (total : Z)
    : matrix :=
  mdivr (ray_sum self rays) (sqrt (IZR total)).

(* ------------------------------------------------------------------ *)
(** *** Entries of the sum over rays *)

Lemma Cmul_assoc (a b c : C) : Cmul (Cmul a b) c = Cmul a (Cmul b c).
Proof. unfold Cmul. simpl. f_equal; ring. Qed.

Lemma Cdivr_C0 (x : R) : Cdivr C0 x = C0.
Proof. unfold Cdivr, C0, Rdiv. simpl. f_equal; ring. Qed.

(** Entry [r, t] of a matrix given by its rows. *)
Definition entry (m : matrix) (ri ti : nat) : C := nth ti (nth ri m []) C0.

(** [m] has [r] rows of [t] entries. *)
Definition dims (r t : nat) (m : matrix) : Prop :=
  length m = r /\ forall i, i < r -> length (nth i m []) = t.

Lemma nth_zip_with {A B D} (f : A -> B -> D) (l : list A) (l' : list B) (i : nat)
    (da : A) (db : B) (dd : D) :
  length l = length l' -> i < length l ->
  nth i (zip_with f l l') dd = f (nth i l da) (nth i l' db).
Proof.
  intros Hl Hi. unfold zip_with.
  rewrite (nth_indep _ dd (f (fst (da, db)) (snd (da, db))))
    by (rewrite length_map, length_combine; lia).
  rewrite (map_nth (fun ab => f (fst ab) (snd ab))), combine_nth by assumption.
  reflexivity.
Qed.

Lemma length_zip_with {A B D} (f : A -> B -> D) (l : list A) (l' : list B) :
  length l = length l' -> length (zip_with f l l') = length l.
Proof. intros Hl. unfold zip_with. rewrite length_map, length_combine. lia. Qed.

Lemma dims_mzero r t : dims r t (mzero r t).
Proof.
  split; [apply repeat_length|]. intros i Hi. unfold mzero.
  rewrite (nth_indep _ [] (repeat C0 t)) by (now rewrite repeat_length).
  rewrite nth_repeat. apply repeat_length.
Qed.

Lemma entry_mzero r t ri ti : ri < r -> entry (mzero r t) ri ti = C0.
Proof.
  intros Hr. unfold entry, mzero.
  rewrite (nth_indep _ [] (repeat C0 t)) by (now rewrite repeat_length).
  rewrite nth_repeat. apply nth_repeat.
Qed.

Lemma dims_scaled_outer g u v : dims (length u) (length v) (mscale g (outer u v)).
Proof.
  unfold mscale, outer. split; [now rewrite !length_map|]. intros i Hi.
  rewrite map_map.
  rewrite (nth_indep _ [] ((fun a => map (Cmul g) (map (fun b => Cmul a b) v)) C0))
    by (now rewrite length_map).
  rewrite (map_nth (fun a => map (Cmul g) (map (fun b => Cmul a b) v))).
  now rewrite !length_map.
Qed.

Lemma entry_scaled_outer g u v ri ti :
  ri < length u -> ti < length v ->
  entry (mscale g (outer u v)) ri ti = Cmul g (Cmul (nth ri u C0) (nth ti v C0)).
Proof.
  intros Hr Ht. unfold entry, mscale, outer. rewrite map_map.
  rewrite (nth_indep _ [] ((fun a => map (Cmul g) (map (fun b => Cmul a b) v)) C0))
    by (now rewrite length_map).
  rewrite (map_nth (fun a => map (Cmul g) (map (fun b => Cmul a b) v))).
  rewrite map_map.
  rewrite (nth_indep _ C0 ((fun b => Cmul g (Cmul (nth ri u C0) b)) C0))
    by (now rewrite length_map).
  now rewrite (map_nth (fun b => Cmul g (Cmul (nth ri u C0) b))).
Qed.

Lemma dims_madd r t m m' : dims r t m -> dims r t m' -> dims r t (madd m m').
Proof.
  intros [Hm Hrow] [Hm' Hrow']. unfold madd. split.
  - rewrite length_zip_with; congruence.
  - intros i Hi. rewrite (nth_zip_with _ _ _ [] [] []) by congruence.
    rewrite length_zip_with; [now apply Hrow|]. rewrite Hrow, Hrow'; auto.
Qed.

Lemma entry_madd r t m m' ri ti :
  dims r t m -> dims r t m' -> ri < r -> ti < t ->
  entry (madd m m') ri ti = Cadd (entry m ri ti) (entry m' ri ti).
Proof.
  intros [Hm Hrow] [Hm' Hrow'] Hr Ht. unfold entry, madd.
  rewrite (nth_zip_with _ _ _ [] [] []) by congruence.
  apply nth_zip_with; rewrite Hrow; auto. now rewrite Hrow'.
Qed.

Lemma entry_mdivr r t m x ri ti :
  dims r t m -> ri < r -> ti < t ->
  entry (mdivr m x) ri ti = Cdivr (entry m ri ti) x.
Proof.
  intros [Hm Hrow] Hr Ht. unfold entry, mdivr.
  change (@nil C) with (map (fun z => Cdivr z x) []) at 1.
  rewrite (map_nth (map (fun z => Cdivr z x))).
  rewrite <- (Cdivr_C0 x) at 1. apply (map_nth (fun z => Cdivr z x)).
Qed.

(** The steering vector of a non-empty array, element by element. *)
Lemma steering_elements (a : AntennaArray) (p0 : vec3) (rest : list vec3) (az : R)
    (dev : option string) :
  coordinates a = p0 :: rest ->
  steering a az dev = map (fun p => element_response p0 p az 0%R) (p0 :: rest).
Proof.
  intros Hc. unfold steering.
  destruct (get_array_response_data a [az] [0%R] dev Hc) as (r & -> & ->).
  unfold response_entries. simpl flat_map. now rewrite !app_nil_r.
Qed.

Lemma nth_steering (a : AntennaArray) (p0 : vec3) (rest : list vec3) (az : R)
    (dev : option string) (k : nat) :
  coordinates a = p0 :: rest -> k < length (p0 :: rest) ->
  nth k (steering a az dev) C0 = element_response p0 (nth k (p0 :: rest) p0) az 0%R.
Proof.
  intros Hc Hk. rewrite (steering_elements _ _ _ Hc).
  rewrite (nth_indep _ C0 ((fun p => element_response p0 p az 0%R) p0))
    by (now rewrite length_map).
  apply (map_nth (fun p => element_response p0 p az 0%R)).
Qed.

(** An entry of the sum over rays is the sum over rays of the entries. *)
Lemma entry_ray_fold (self : RayClusterChannel) (rays : list ray) (m0 : matrix) (ri ti : nat) :
  coordinates (rx self) <> [] -> coordinates (tx self) <> [] ->
  dims (length (coordinates (rx self))) (length (coordinates (tx self))) m0 ->
  ri < length (coordinates (rx self)) -> ti < length (coordinates (tx self)) ->
  entry (fold_left
           (fun acc (y : ray) =>
              madd acc (mscale (fst (fst y))
                               (outer (steering (rx self) (snd (fst y)) (device self))
                                      (map Cconj (steering (tx self) (snd y) (device self))))))
           rays m0) ri ti
  = fold_left
      (fun acc (y : ray) =>
         Cadd acc (Cmul (fst (fst y))
                        (Cmul (nth ri (steering (rx self) (snd (fst y)) (device self)) C0)
                              (Cconj (nth ti (steering (tx self) (snd y) (device self)) C0)))))
      rays (entry m0 ri ti).
Proof.
  intros Hrx Htx. destruct (coordinates (rx self)) as [|pr restr] eqn:Er; [congruence|].
  destruct (coordinates (tx self)) as [|pt restt] eqn:Et; [congruence|].
  revert m0. induction rays as [|y rays IH]; intros m0 Hm0 Hr Ht; simpl; [reflexivity|].
  assert (Lr : length (steering (rx self) (snd (fst y)) (device self)) = length (pr :: restr))
    by (rewrite (steering_elements _ _ _ Er); apply length_map).
  assert (Lt : length (map Cconj (steering (tx self) (snd y) (device self)))
               = length (pt :: restt))
    by (rewrite (steering_elements _ _ _ Et), !length_map; reflexivity).
  assert (Hd : dims (length (pr :: restr)) (length (pt :: restt))
                    (mscale (fst (fst y))
                       (outer (steering (rx self) (snd (fst y)) (device self))
                              (map Cconj (steering (tx self) (snd y) (device self)))))).
  { rewrite <- Lr, <- Lt. apply dims_scaled_outer. }
  rewrite IH; [|now apply dims_madd|assumption|assumption].
  f_equal. rewrite (entry_madd Hm0 Hd Hr Ht). f_equal.
  rewrite entry_scaled_outer by (rewrite ?Lr, ?Lt; assumption).
  do 2 f_equal.
  rewrite (nth_indep _ C0 (Cconj C0)) by (rewrite Lt; exact Ht).
  apply (map_nth Cconj).
Qed.

Lemma fold_sum_map {A B} (f : A -> C) (g : B -> C) (h : A -> B) (l : list A) :
  (forall x, In x l -> f x = g (h x)) ->
  forall acc, fold_left Cadd (map f l) acc
              = fold_left (fun a y => Cadd a (g y)) (map h l) acc.
Proof.
  induction l as [|x l IH]; intros Hfg acc; simpl; [reflexivity|].
  rewrite (Hfg x) by now left. apply IH. intros y Hy. apply Hfg. now right.
Qed.

Lemma dims_ray_fold (self : RayClusterChannel) (rays : list ray) (m0 : matrix) :
  coordinates (rx self) <> [] -> coordinates (tx self) <> [] ->
  dims (length (coordinates (rx self))) (length (coordinates (tx self))) m0 ->
  dims (length (coordinates (rx self))) (length (coordinates (tx self)))
       (fold_left
          (fun acc (y : ray) =>
             madd acc (mscale (fst (fst y))
                              (outer (steering (rx self) (snd (fst y)) (device self))
                                     (map Cconj (steering (tx self) (snd y) (device self))))))
          rays m0).
Proof.
  intros Hrx Htx. destruct (coordinates (rx self)) as [|pr restr] eqn:Er; [congruence|].
  destruct (coordinates (tx self)) as [|pt restt] eqn:Et; [congruence|].
  revert m0. induction rays as [|y rays IH]; intros m0 Hm0; simpl; [assumption|].
  apply IH, dims_madd; [assumption|].
  replace (length (pr :: restr))
    with (length (steering (rx self) (snd (fst y)) (device self)))
    by (rewrite (steering_elements _ _ _ Er); apply length_map).
  replace (length (pt :: restt))
    with (length (map Cconj (steering (tx self) (snd y) (device self))))
    by (rewrite (steering_elements _ _ _ Et), !length_map; reflexivity).
  apply dims_scaled_outer.
Qed.

Lemma reshape_rest_ok {A} (lead : list nat) (a : ndarray A) (p q : nat) :
  size lead = p -> p <> 0 -> length (data a) = q * p ->
  reshape_rest lead a = Ret {| shape := lead ++ [q]; data := data a |}.
Proof.
  intros Hp Hne Hl. unfold reshape_rest. rewrite Hp, Hl.
  destruct (Nat.eqb_spec p 0) as [|_]; [contradiction|].
  rewrite Nat.Div0.mod_mul, Nat.div_mul by assumption. reflexivity.
Qed.

(** Entry [(bi, ri, ti)] of a table laid out in row-major order. *)
Lemma nth_table3 (F : nat -> nat -> nat -> C) (b r t bi ri ti : nat) :
  bi < b -> ri < r -> ti < t ->
  nth ((bi * r + ri) * t + ti)
      (flat_map (fun bi => flat_map (fun ri => map (fun ti => F bi ri ti) (seq 0 t)) (seq 0 r))
                (seq 0 b)) C0
  = F bi ri ti.
Proof.
  intros Hb Hr Ht.
  assert (L1 : forall bi ri, length (map (fun ti => F bi ri ti) (seq 0 t)) = t)
    by (intros; now rewrite length_map, length_seq).
  assert (L2 : forall bi, length (flat_map (fun ri => map (fun ti => F bi ri ti) (seq 0 t))
                                           (seq 0 r)) = r * t).
  { intros bi'. rewrite (length_flat_map_uniform _ _ (L1 bi')). now rewrite length_seq. }
  assert (Hlt : ri * t + ti < r * t).
  { pose proof (Nat.mul_le_mono_r (S ri) r t Hr). simpl in *. lia. }
  replace ((bi * r + ri) * t + ti) with (bi * (r * t) + (ri * t + ti)) by lia.
  rewrite (nth_flat_map_uniform _ (seq 0 b) C0 0 L2) by (rewrite ?length_seq; assumption).
  rewrite seq_nth by assumption. simpl (0 + bi).
  rewrite (nth_flat_map_uniform _ (seq 0 r) C0 0 (L1 bi)) by (rewrite ?length_seq; lia).
  rewrite seq_nth by assumption. simpl (0 + ri).
  rewrite (nth_indep _ C0 (F bi ri 0)) by (now rewrite L1).
  rewrite (map_nth (fun ti => F bi ri ti)), seq_nth by assumption. reflexivity.
Qed.

Lemma broadcast3_same (d : nat) : broadcast3 d d d = Some d.
Proof.
  unfold broadcast3, broadcast2. destruct (Nat.eqb d 1) eqn:E.
  - now rewrite E.
  - now rewrite !Nat.eqb_refl, E.
Qed.

Lemma bidx_lt (d i : nat) : i < d -> bidx d i = i.
Proof.
  unfold bidx. destruct (Nat.eqb_spec d 1) as [->|]; [lia | reflexivity].
Qed.

(** The sum [np.sum] makes of the counts is their total, whichever end
    it starts from, and an [int64] holds it when it is in range. *)
Lemma fold_left_Zadd (l : list Z) (acc : Z) :
  fold_left Z.add l acc = (acc + rays_over_clusters l)%Z.
Proof.
  revert acc. induction l as [|z l IH]; intros acc; cbn [fold_left rays_over_clusters fold_right].
  - lia.
  - rewrite IH. unfold rays_over_clusters. lia.
Qed.

Lemma wrap64_in_range (z : Z) : (- 2 ^ 63 <= z < 2 ^ 63)%Z -> wrap64 z = z.
Proof.
  intros Hz. unfold wrap64. rewrite Z.mod_small; lia.
Qed.

Lemma total_n_rays_in_range (self : RayClusterChannel) (counts : list Z) :
  _n_rays self = CountsArray counts ->
  (- 2 ^ 63 <= rays_over_clusters counts < 2 ^ 63)%Z ->
  total_n_rays self = Ret (rays_over_clusters counts).
Proof.
  intros E Hz. unfold total_n_rays. rewrite E, fold_left_Zadd, Z.add_0_l.
  now rewrite wrap64_in_range.
Qed.

(** C4.  For a channel between two non-empty arrays whose ray counts
    are an array with a positive total that an [int64] holds, and [b]
    draws of [n] rays each (angles of arrival, angles of departure and
    gains of shape [(b, n)]), [generate_channel_matrix] without torch
    returns an array of shape [(b, rx elements, tx elements)], and the
    matrix of draw [bi] is the sum over its rays of the gain times the
    outer product of the receive response with the conjugated transmit
    response, divided by the square root of the total of the ray counts
    over the clusters. *)
Theorem generate_channel_matrix_ray_sum (self : RayClusterChannel)
    (aoa aod : ndarray R) (gain : ndarray C) (b n : nat) (counts : list Z) :
  coordinates (rx self) <> [] -> coordinates (tx self) <> [] ->
  shape aoa = [b; n] -> shape aod = [b; n] -> shape gain = [b; n] ->
  length (data aoa) = b * n -> length (data aod) = b * n ->
  0 < b -> 0 < n ->
  _n_rays self = CountsArray counts ->
  (0 < rays_over_clusters counts < 2 ^ 63)%Z ->
  exists H,
    generate_channel_matrix self aoa aod gain false = Ret H /\
    shape H = [b; length (coordinates (rx self)); length (coordinates (tx self))] /\
    forall bi ri ti,
      bi < b -> ri < length (coordinates (rx self)) -> ti < length (coordinates (tx self)) ->
      at3 H bi ri ti C0
      = entry (normalized_ray_sum self (rays_of aoa aod gain bi n)
                                  (rays_over_clusters counts)) ri ti.
Proof.
  intros Hrx Htx Sa Sd Sg La Ld Hb Hn Hcounts Htotal.
  pose proof (dims_ray_fold self) as Dims. pose proof (entry_ray_fold self) as Entry.
  assert (Htot : total_n_rays self = Ret (rays_over_clusters counts))
    by (apply total_n_rays_in_range; [assumption | lia]).
  set (total := rays_over_clusters counts) in *.
  destruct (coordinates (rx self)) as [|pr restr] eqn:Er; [congruence|].
  destruct (coordinates (tx self)) as [|pt restt] eqn:Et; [congruence|].
  remember (length (pr :: restr)) as Nr eqn:ENr. remember (length (pt :: restt)) as Nt eqn:ENt.
  destruct (get_array_response_data (rx self) (data aoa) [0%R] (device self) Er)
    as (rA & HrA & DA).
  destruct (get_array_response_data (tx self) (data aod) [0%R] (device self) Et)
    as (rT & HrT & DT).
  assert (LA : length (data rA) = Nr * (b * n)).
  { rewrite DA, response_entries_length, La. change (length [0%R]) with 1. rewrite <- ENr. ring. }
  assert (LT : length (data rT) = Nt * (b * n)).
  { rewrite DT, response_entries_length, Ld. change (length [0%R]) with 1. rewrite <- ENt. ring. }
  assert (Hsz : size [b; n] = b * n) by (simpl; lia).
  assert (Hbn : b * n <> 0) by nia.
  unfold generate_channel_matrix, superpose. rewrite HrA, HrT. simpl rbind.
  rewrite Sa, Sd.
  rewrite (@reshape_rest_ok _ [b; n] rA _ _ Hsz Hbn LA). simpl rbind.
  rewrite (@reshape_rest_ok _ [b; n] rT _ _ Hsz Hbn LT). simpl rbind.
  unfold einsum_bn_bnr_bnt. rewrite Sg. simpl shape. cbv beta iota.
  rewrite !broadcast3_same. cbv iota. simpl rbind. rewrite Htot. simpl rbind.
  eexists. split; [reflexivity|]. split; [reflexivity|].
  intros bi ri ti Hbi Hri Hti.
  unfold at3 at 1, div_real. cbn [shape data].
  assert (Hidx : (bi * Nr + ri) * Nt + ti < b * (Nr * Nt)) by nia.
  (* the division, entry by entry *)
  rewrite (nth_indep _ C0 (Cdivr C0 (sqrt (IZR total)))).
  2:{ rewrite length_map.
      rewrite (@length_flat_map_uniform _ _ _ (seq 0 b) (Nr * Nt)), length_seq by
        (intros; rewrite (@length_flat_map_uniform _ _ _ (seq 0 Nr) Nt), length_seq by
           (intros; now rewrite length_map, length_seq); reflexivity).
      exact Hidx. }
  rewrite (map_nth (fun z => Cdivr z (sqrt (IZR total)))).
  rewrite (nth_table3 _ Hbi Hri Hti).
  (* the sum over the rays, entry by entry *)
  unfold normalized_ray_sum, ray_sum. rewrite Er, Et, <- ENr, <- ENt.
  rewrite (@entry_mdivr Nr Nt) by
    (try assumption; apply Dims; try congruence; apply dims_mzero).
  f_equal.
  rewrite Entry by (try congruence; try assumption; apply dims_mzero).
  rewrite entry_mzero by assumption.
  unfold rays_of. apply fold_sum_map. intros ni Hni. apply in_seq in Hni.
  assert (Hrow : bi * n + ni < b * n) by nia.
  rewrite (bidx_lt Hbi), (@bidx_lt n ni) by lia.
  simpl fst. simpl snd. rewrite Cmul_assoc. f_equal.
  unfold at2, at3, conj. rewrite Sa, Sd. cbn [shape data]. f_equal.
  - rewrite DA.
    replace ((bi * n + ni) * Nr + ri)
      with (((bi * n + ni) * length [0%R] + 0) * length (pr :: restr) + ri)
      by (change (length [0%R]) with 1; rewrite <- ENr; lia).
    rewrite response_entries_nth
      by (change (length [0%R]) with 1; rewrite <- ?ENr; lia).
    rewrite (nth_steering _ _ _ Er) by (rewrite <- ENr; exact Hri). reflexivity.
  - rewrite (nth_indep _ C0 (Cconj C0)) by (rewrite length_map, LT; nia).
    rewrite (map_nth Cconj). f_equal. rewrite DT.
    replace ((bi * n + ni) * Nt + ti)
      with (((bi * n + ni) * length [0%R] + 0) * length (pt :: restt) + ti)
      by (change (length [0%R]) with 1; rewrite <- ENt; lia).
    rewrite response_entries_nth
      by (change (length [0%R]) with 1; rewrite <- ?ENt; lia).
    rewrite (nth_steering _ _ _ Et) by (rewrite <- ENt; exact Hti). reflexivity.
Qed.

(** Two arrays of two elements, half a wavelength apart along [x]; two
    clusters of one ray each. *)
Definition two_ray_channel : RayClusterChannel :=
  {| tx := two_elements; rx := two_elements; n_clusters := 2;
     _n_rays := CountsArray [1%Z; 1%Z]; device := Some "cpu"%string |}.

(** One draw of the two rays: the first arrives from azimuth [pi / 2]
    with gain 1, the second from azimuth 0 with gain [i]; both leave at
    azimuth 0. *)
Definition two_rays_aoa : ndarray R := {| shape := [1; 2]; data := [(PI / 2)%R; 0%R] |}.
Definition two_rays_aod : ndarray R := {| shape := [1; 2]; data := [0%R; 0%R] |}.
Definition two_rays_gain : ndarray C := {| shape := [1; 2]; data := [C1; Ci] |}.

Lemma sqrt_2_neq_0 : sqrt 2 <> 0%R.
Proof. intros E. apply sqrt_eq_0 in E; lra. Qed.

Lemma generate_channel_matrix_ray_sum_witness :
  exists H,
    generate_channel_matrix two_ray_channel two_rays_aoa two_rays_aod two_rays_gain false
    = Ret H /\
    shape H = [1; 2; 2] /\
    at3 H 0 1 0 C0 = (- 1 / sqrt 2, 1 / sqrt 2)%R.
Proof.
  destruct (@generate_channel_matrix_ray_sum two_ray_channel two_rays_aoa two_rays_aod
              two_rays_gain 1 2 [1%Z; 1%Z])
    as (H & HH & Hs & He);
    try reflexivity; try discriminate; try lia; [cbn; lia|].
  exists H. split; [exact HH|]. split; [exact Hs|].
  rewrite (He 0 1 0) by (cbn; lia).
  assert (Hc : coordinates two_elements = [(0, 0, 0)%R; (1 / 2, 0, 0)%R]) by reflexivity.
  unfold normalized_ray_sum, ray_sum.
  rewrite (@entry_mdivr 2 2);
    [|apply (dims_ray_fold two_ray_channel); [discriminate | discriminate | apply dims_mzero]
     |lia|lia].
  rewrite (entry_ray_fold two_ray_channel);
    [|discriminate|discriminate|apply dims_mzero|cbn; lia|cbn; lia].
  change (rays_of two_rays_aoa two_rays_aod two_rays_gain 0 2)
    with [(C1, (PI / 2)%R, 0%R); (Ci, 0%R, 0%R)].
  cbn [fold_left fst snd rx tx device two_ray_channel].
  rewrite !(@nth_steering two_elements _ _ _ _ _ Hc) by (cbn; lia).
  rewrite !element_response_claimed.
  cbn [nth vx vy vz fst snd length coordinates two_elements].
  change (rays_over_clusters [1%Z; 1%Z]) with 2%Z.
  rewrite entry_mzero by lia.
  assert (A : claimed_response (1 / 2 - 0) (0 - 0) (0 - 0) (PI / 2) 0 = (-1, 0)%R).
  { unfold claimed_response. rewrite sin_PI2, cos_0, sin_0.
    replace (2 * PI * ((1 / 2 - 0) * 1 * 1 + (0 - 0) * cos (PI / 2) * 1 + (0 - 0) * 0))%R
      with PI by field.
    now rewrite cos_PI, sin_PI. }
  assert (B : forall dx, claimed_response dx (0 - 0) (0 - 0) 0 0 = C1).
  { intros dx. unfold claimed_response, C1. rewrite cos_0, sin_0.
    replace (2 * PI * (dx * 0 * 1 + (0 - 0) * 1 * 1 + (0 - 0) * 0))%R with 0%R by ring.
    now rewrite cos_0, sin_0. }
  rewrite A, !B.
  unfold Cdivr, Cadd, Cmul, Cconj, C0, C1, Ci. cbn [fst snd].
  pose proof sqrt_2_neq_0. f_equal; field; assumption.
Defined.

End RayCluster.

(* ------------------------------------------------------------------ *)
(** ** [network.py]: the topology graph *)

(** The identity of an [AntennaArray] object.  The class defines
    neither [__eq__] nor [__hash__] nor [__iter__]: [==], [in] and
    dictionary keys compare identities, and an array is not an
    [Iterable]. *)
Definition node : Type := nat.

(** Modelled from the spec: the [Channel] base class ([channels/awgn.py])
    is not among the sources.  A channel is an object with a name, a
    transmitter and a receiver, equal to itself only, hashable, and not
    an [Iterable]; it is named by its identity. *)
Definition chan : Type := nat.

(** [list.remove(x)]: drops the first occurrence; [None] stands for the
    [ValueError] of a list without [x]. *)
Fixpoint list_remove (x : nat) (l : list nat) : option (list nat) :=
  match l with
  | [] => None
  | y :: l' =>
      if Nat.eqb y x then Some l'
      else match list_remove x l' with
           | Some r => Some (y :: r)
           | None => None
           end
  end.

(** [x in l] *)
Definition list_mem (x : nat) (l : list nat) : bool := existsb (Nat.eqb x) l.

(** The characters of a [str], as iterating over it yields them. *)
Fixpoint chars (s : string) : list string :=
  match s with
  | EmptyString => []
  | String a s' => String a EmptyString :: chars s'
  end.

(** [link: Channel | str] *)
Inductive link_ref : Type :=
| LObj (c : chan)
| LName (s : string).

(** The key handed to [self.links.pop]: a name, or a [Channel] object. *)
Inductive pop_key : Type :=
| KName (s : string)
| KChan (c : chan).

(** The argument of a metric accessor: nothing, a name, a [Channel], or
    a list of such arguments. *)
#[warnings="-register-all"]
Inductive pyarg : Type :=
| PNone
| PStr (s : string)
| PLink (c : chan)
| PList (l : list pyarg).

(** What can be a key of a result dictionary: [None], a [str] or a
    [Channel]; a list is not hashable. *)
Inductive pykey : Type :=
| KeyNone
| KeyStr (s : string)
| KeyLink (c : chan).

(** What an accessor returns: a number, a dictionary or a list. *)
#[warnings="-register-all"]
Inductive pyval : Type :=
| VNum (x : R)
| VDict (d : list (pykey * pyval))
| VList (l : list pyval).

Definition pykey_eqb (a b : pykey) : bool :=
  match a, b with
  | KeyNone, KeyNone => true
  | KeyStr s, KeyStr s' => String.eqb s s'
  | KeyLink c, KeyLink c' => Nat.eqb c c'
  | _, _ => false
  end.

Lemma pykey_eqb_spec (a b : pykey) : reflect (a = b) (pykey_eqb a b).
Proof.
  destruct a as [|s|c], b as [|s'|c']; simpl; try (constructor; congruence).
  - destruct (String.eqb_spec s s'); constructor; congruence.
  - destruct (Nat.eqb_spec c c'); constructor; congruence.
Qed.

#[export] Instance PyEq_pykey : PyEq pykey :=
{| py_eqb := pykey_eqb; py_eqb_spec := pykey_eqb_spec |}.

(** [hash(x)] succeeds *)
Definition to_key (a : pyarg) : option pykey :=
  match a with
  | PNone => Some KeyNone
  | PStr s => Some (KeyStr s)
  | PLink c => Some (KeyLink c)
  | PList _ => None
  end.

(** [{lk: f(lk) for lk in it}]: the value is computed, then the entry
    is stored under the key, which must be hashable. *)
Fixpoint dict_comp (f : pyarg -> res pyval) (it : list pyarg) (acc : dict pykey pyval)
    : res pyval :=
  match it with
  | [] => Ret (VDict acc)
  | lk :: it' =>
      v <~ f lk ;;
      match to_key lk with
      | Some k => dict_comp f it' (dset k v acc)
      | None => Raise TypeError
      end
  end.

(** [[f(lk) for lk in it]] *)
Fixpoint list_items (f : pyarg -> res pyval) (it : list pyarg) : res (list pyval) :=
  match it with
  | [] => Ret []
  | lk :: it' => v <~ f lk ;; vs <~ list_items f it' ;; Ret (v :: vs)
  end.

Definition list_comp (f : pyarg -> res pyval) (it : list pyarg) : res pyval :=
  vs <~ list_items f it ;; Ret (VList vs).

(** A number where one is needed: [int + dict] is a [TypeError]. *)
Definition as_num (v : pyval) : res R :=
  match v with
  | VNum x => Ret x
  | _ => Raise TypeError
  end.

(** [acc = start; for x in l: acc = body(x, acc)] *)
Fixpoint sum_loop {A} (l : list A) (body : A -> R -> res R) (acc : R) : res R :=
  match l with
  | [] => Ret acc
  | x :: l' => acc' <~ body x acc ;; sum_loop l' body acc'
  end.

(** [node: str | AntennaArray] *)
Inductive node_ref : Type :=
| NObj (n : node)
| NName (s : string).

(** Modelled from the spec: the [Channel] base class ([channels/awgn.py])
    is not among the sources.  Its derived metrics are read-only
    properties computed from the stored matrix and the two arrays; here
    they are the values the properties have in the state at hand. *)
Module Chan.
Record Metrics : Type :=
  { rx_power : R;
    bf_gain : R; bf_gain_db : R;
    signal_power : R; signal_power_db : R;
    bf_noise_power : R; bf_noise_power_db : R;
    snr : R; snr_db : R;
    snr_upper_bound : R; snr_upper_bound_db : R }.
End Chan.

Module Net.

(** [self.connections[node]]: the dictionary [{"dl": [...], "ul": [...]}] *)
Record Adj : Type := { dl : list chan; ul : list chan }.

Record Network : Type :=
  { links : dict string chan;
    connections : dict node Adj;
    target_links : list chan;
    target_nodes : list node }.

(** [Network()] *)
Definition empty : Network :=
  {| links := []; connections := []; target_links := []; target_nodes := [] |}.

Definition with_links (f : dict string chan -> dict string chan) (s : Network) : Network :=
  {| links := f (links s); connections := connections s;
     target_links := target_links s; target_nodes := target_nodes s |}.

Definition with_connections (f : dict node Adj -> dict node Adj) (s : Network) : Network :=
  {| links := links s; connections := f (connections s);
     target_links := target_links s; target_nodes := target_nodes s |}.

Definition with_target_links (f : list chan -> list chan) (s : Network) : Network :=
  {| links := links s; connections := connections s;
     target_links := f (target_links s); target_nodes := target_nodes s |}.

Definition with_target_nodes (f : list node -> list node) (s : Network) : Network :=
  {| links := links s; connections := connections s;
     target_links := target_links s; target_nodes := f (target_nodes s) |}.

(** [self.links.pop(key, None)].  The keys of [links] are names; a
    [Channel] object is equal to no name, so with a [Channel] as the key
    nothing is found and the default is returned. *)
Definition links_pop (k : pop_key) : M Network unit :=
  match k with
  | KName s => modify (with_links (dpop s))
  | KChan _ => ret tt
  end.

(** [self.connections[n]["dl"].append(c)] *)
Definition dl_append (n : node) (c : chan) : M Network unit :=
  fun s => match dget n (connections s) with
           | None => (Raise KeyError, s)
           | Some a =>
               (Ret tt, with_connections (dset n {| dl := dl a ++ [c]; ul := ul a |}) s)
           end.

(** [self.connections[n]["ul"].append(c)] *)
Definition ul_append (n : node) (c : chan) : M Network unit :=
  fun s => match dget n (connections s) with
           | None => (Raise KeyError, s)
           | Some a =>
               (Ret tt, with_connections (dset n {| dl := dl a; ul := ul a ++ [c] |}) s)
           end.

(** [self.connections[n]["dl"].remove(c)] *)
Definition dl_remove (n : node) (c : chan) : M Network unit :=
  fun s => match dget n (connections s) with
           | None => (Raise KeyError, s)
           | Some a =>
               match list_remove c (dl a) with
               | None => (Raise ValueError, s)
               | Some l => (Ret tt, with_connections (dset n {| dl := l; ul := ul a |}) s)
               end
           end.

(** [self.connections[n]["ul"].remove(c)] *)
Definition ul_remove (n : node) (c : chan) : M Network unit :=
  fun s => match dget n (connections s) with
           | None => (Raise KeyError, s)
           | Some a =>
               match list_remove c (ul a) with
               | None => (Raise ValueError, s)
               | Some l => (Ret tt, with_connections (dset n {| dl := dl a; ul := l |}) s)
               end
           end.

(** [self.connections[n][side]], read *)
Definition adj_of (n : node) : M Network Adj :=
  fun s => match dget n (connections s) with
           | None => (Raise KeyError, s)
           | Some a => (Ret a, s)
           end.

(** [Network._add_node] *)
Definition _add_node (n : node) : M Network unit :=
  s <- get ;;
  if negb (dmem n (connections s))
  then modify (with_connections (dset n {| dl := []; ul := [] |}))
  else ret tt.

(** [Network.add_nodes] *)
Definition add_nodes (nodes : arg node) : M Network unit :=
  match nodes with
  | Many l => for_each l _add_node
  | One n => _add_node n
  end.

(** The attributes of a [Channel] that the graph operations read:
    [name], [tx] and [rx].  [Network] never assigns them, so they are
    functions of the identity. *)
Section Graph.
#[local] Set Default Proof Using "Type".
Variable ch_name : chan -> string.
Variables ch_tx ch_rx : chan -> node.

(** [Network._add_link] *)
Definition _add_link (link : chan) : M Network unit :=
  s <- get ;;
  if negb (dmem (ch_name link) (links s)) && negb (list_mem link (dvalues (links s)))
  then
    modify (with_links (dset (ch_name link) link)) ;;
    add_nodes (One (ch_tx link)) ;;
    dl_append (ch_tx link) link ;;
    add_nodes (One (ch_rx link)) ;;
    ul_append (ch_rx link) link
  else ret tt.

(** [Network.add_links] *)
Definition add_links (ls : arg chan) : M Network unit :=
  match ls with
  | Many l => for_each l _add_link
  | One c => _add_link c
  end.

(** [Network._remove_node].  The first loop runs over the node's own
    ["dl"] list and changes ["ul"] lists only, the second runs over its
    ["ul"] list, read after the first loop, and changes ["dl"] lists
    only: neither loop changes the list it runs over. *)
Definition _remove_node (n : node) : M Network unit :=
  s <- get ;;
  if dmem n (connections s)
  then
    a <- adj_of n ;;
    for_each (dl a) (fun link =>
      links_pop (KChan link) ;;
      ul_remove (ch_rx link) link) ;;
    a' <- adj_of n ;;
    for_each (ul a') (fun link =>
      links_pop (KChan link) ;;
      dl_remove (ch_tx link) link)
  else ret tt.

(** [Network.remove_nodes].  [nodes.__iter__] is a bound method, hence
    true, for a list; an [AntennaArray] has no such attribute. *)
Definition remove_nodes (nodes : arg node) : M Network unit :=
  match nodes with
  | Many l => for_each l _remove_node
  | One _ => raise AttributeError
  end.

(** [Network._remove_link] *)
Definition _remove_link (l : link_ref) : M Network unit :=
  link <- match l with
          | LName nm =>
              s <- get ;;
              match dget nm (links s) with
              | Some c => ret c
              | None => raise KeyError
              end
          | LObj c => ret c
          end ;;
  links_pop (KName (ch_name link)) ;;
  dl_remove (ch_tx link) link ;;
  ul_remove (ch_rx link) link.

(** [Network.remove_links].  A [str] is an [Iterable]: a name given
    bare is walked character by character. *)
Definition remove_links (ls : arg link_ref) : M Network unit :=
  match ls with
  | Many l => for_each l _remove_link
  | One (LName nm) => for_each (chars nm) (fun c => _remove_link (LName c))
  | One (LObj c) => _remove_link (LObj c)
  end.

(** [Network.add_target_nodes] *)
Definition add_target_nodes (nodes : arg node) : M Network unit :=
  let one n := _add_node n ;; modify (with_target_nodes (fun t => t ++ [n])) in
  match nodes with
  | Many l => for_each l one
  | One n => one n
  end.

(** [Network.add_target_links] *)
Definition add_target_links (ls : arg chan) : M Network unit :=
  let one c := _add_link c ;; modify (with_target_links (fun t => t ++ [c])) in
  match ls with
  | Many l => for_each l one
  | One c => one c
  end.

(** [self.target_nodes.remove(n)] and [self.target_links.remove(c)] *)
Definition target_node_remove (n : node) : M Network unit :=
  fun s => match list_remove n (target_nodes s) with
           | None => (Raise ValueError, s)
           | Some l => (Ret tt, with_target_nodes (fun _ => l) s)
           end.

Definition target_link_remove (c : chan) : M Network unit :=
  fun s => match list_remove c (target_links s) with
           | None => (Raise ValueError, s)
           | Some l => (Ret tt, with_target_links (fun _ => l) s)
           end.

(** [Network.remove_target_nodes] *)
Definition remove_target_nodes (nodes : arg node) : M Network unit :=
  match nodes with
  | Many l => for_each l target_node_remove
  | One n => target_node_remove n
  end.

(** [Network.remove_target_links] *)
Definition remove_target_links (ls : arg chan) : M Network unit :=
  match ls with
  | Many l => for_each l target_link_remove
  | One c => target_link_remove c
  end.

(** The operations of the public interface that change the graph or
    the target lists. *)
Inductive op : Type :=
| AddNodes (a : arg node)
| AddLinks (a : arg chan)
| RemoveNodes (a : arg node)
| RemoveLinks (a : arg link_ref)
| AddTargetNodes (a : arg node)
| AddTargetLinks (a : arg chan)
| RemoveTargetNodes (a : arg node)
| RemoveTargetLinks (a : arg chan).

Definition run_op (o : op) : M Network unit :=
  match o with
  | AddNodes a => add_nodes a
  | AddLinks a => add_links a
  | RemoveNodes a => remove_nodes a
  | RemoveLinks a => remove_links a
  | AddTargetNodes a => add_target_nodes a
  | AddTargetLinks a => add_target_links a
  | RemoveTargetNodes a => remove_target_nodes a
  | RemoveTargetLinks a => remove_target_links a
  end.

(** A sequence of operations; one that raises leaves the state it had
    reached, and the caller goes on with the next. *)
Fixpoint run_ops (os : list op) (s : Network) : Network :=
  match os with
  | [] => s
  | o :: os' => run_ops os' (snd (run_op o s))
  end.

(** [l.count(c)] *)
Definition count (c : chan) (l : list chan) : nat := count_occ Nat.eq_dec l c.

(** How often [c] stands in the ["dl"] lists, over all nodes. *)
Definition dl_occurrences (c : chan) (s : Network) : nat :=
  list_sum (map (fun kv => count c (dl (snd kv))) (connections s)).

Definition ul_occurrences (c : chan) (s : Network) : nat :=
  list_sum (map (fun kv => count c (ul (snd kv))) (connections s)).

Definition under_tx (c : chan) (s : Network) : bool :=
  match dget (ch_tx c) (connections s) with
  | Some a => list_mem c (dl a)
  | None => false
  end.

Definition under_rx (c : chan) (s : Network) : bool :=
  match dget (ch_rx c) (connections s) with
  | Some a => list_mem c (ul a)
  | None => false
  end.

(** Graph consistency: every registered link is once in the downlink
    lists, under its transmitter, once in the uplink lists, under its
    receiver, and both its ends are nodes of the graph. *)
Definition link_consistent (c : chan) (s : Network) : bool :=
  Nat.eqb (dl_occurrences c s) 1 && under_tx c s &&
  Nat.eqb (ul_occurrences c s) 1 && under_rx c s &&
  dmem (ch_tx c) (connections s) && dmem (ch_rx c) (connections s).

Definition consistent (s : Network) : bool :=
  forallb (fun c => link_consistent c s) (dvalues (links s)).

(** The networks a program can hold: built from [Network()] by the
    operations above. *)
Definition reachable (s : Network) : Prop := exists os, s = run_ops os empty.

(** The objects behind the identities, as the metrics read them. *)
Variable metrics : chan -> Chan.Metrics.
Variable arrays : node -> Ant.AntennaArray.

(** Modelled from the spec: [Channel.realize] of the absent base class
    and its subclasses.  It redraws the channel from the channel's own
    random stream and the geometry of the arrays, stores the matrix in
    the channel, and touches no other object; it may raise. *)
Variable ChanState : Type.
Variable channel_realize : (node -> Ant.AntennaArray) -> chan -> M ChanState unit.

(** [if isinstance(link, str): link = self.links[link]] *)
Definition resolve_name (s : Network) (link : pyarg) : res pyarg :=
  match link with
  | PStr nm =>
      match dget nm (links s) with
      | Some c => Ret (PLink c)
      | None => Raise KeyError
      end
  | _ => Ret link
  end.

(* ------------------------------------------------------------------ *)
(** *** Link metrics *)

(** [Network.rx_power] *)
Fixpoint rx_power (depth : nat) (s : Network) (link : pyarg) : res pyval :=
  match depth with
  | 0 => Raise RecursionError
  | S d =>
      match link with
      | PNone => dict_comp (rx_power d s) (map PLink (dvalues (links s))) []
      | _ =>
          link <~ resolve_name s link ;;
          match link with
          | PList l => dict_comp (rx_power d s) l []
          | PLink c => Ret (VNum (Chan.rx_power (metrics c)))
          | _ => Raise AttributeError
          end
      end
  end.

(** [Network.snr] *)
Fixpoint snr (depth : nat) (s : Network) (link : pyarg) (db : bool) : res pyval :=
  match depth with
  | 0 => Raise RecursionError
  | S d =>
      match link with
      | PNone => dict_comp (fun lk => snr d s lk db) (map PLink (dvalues (links s))) []
      | PList l => list_comp (fun lk => snr d s lk db) l
      | PStr nm => list_comp (fun lk => snr d s lk db) (map PStr (chars nm))
      | PLink c => Ret (VNum (if db then Chan.snr_db (metrics c) else Chan.snr (metrics c)))
      end
  end.

(** [Network.bf_gain] *)
Fixpoint bf_gain (depth : nat) (s : Network) (link : pyarg) (db : bool) : res pyval :=
  match depth with
  | 0 => Raise RecursionError
  | S d =>
      match link with
      | PNone => dict_comp (fun lk => bf_gain d s lk db) (map PLink (dvalues (links s))) []
      | _ =>
          link <~ resolve_name s link ;;
          match link with
          | PList l => dict_comp (fun lk => snr d s lk db) l []
          | PLink c =>
              Ret (VNum (if db then Chan.bf_gain_db (metrics c) else Chan.bf_gain (metrics c)))
          | _ => Raise AttributeError
          end
      end
  end.

(** [Network.signal_power] *)
Fixpoint signal_power (depth : nat) (s : Network) (link : pyarg) (db : bool) : res pyval :=
  match depth with
  | 0 => Raise RecursionError
  | S d =>
      match link with
      | PNone => dict_comp (fun lk => signal_power d s lk db) (map PLink (dvalues (links s))) []
      | _ =>
          link <~ resolve_name s link ;;
          match link with
          | PList l => dict_comp (fun lk => snr d s lk db) l []
          | PLink c =>
              Ret (VNum (if db then Chan.signal_power_db (metrics c)
                         else Chan.signal_power (metrics c)))
          | _ => Raise AttributeError
          end
      end
  end.

(** [Network.bf_noise_power] *)
Fixpoint bf_noise_power (depth : nat) (s : Network) (link : pyarg) (db : bool) : res pyval :=
  match depth with
  | 0 => Raise RecursionError
  | S d =>
      match link with
      | PNone => dict_comp (fun lk => bf_noise_power d s lk db) (map PLink (dvalues (links s))) []
      | _ =>
          link <~ resolve_name s link ;;
          match link with
          | PList l => dict_comp (fun lk => snr d s lk db) l []
          | PLink c =>
              Ret (VNum (if db then Chan.bf_noise_power_db (metrics c)
                         else Chan.bf_noise_power (metrics c)))
          | _ => Raise AttributeError
          end
      end
  end.

(** [Network.snr_upper_bound] *)
Fixpoint snr_upper_bound (depth : nat) (s : Network) (link : pyarg) (db : bool) : res pyval :=
  match depth with
  | 0 => Raise RecursionError
  | S d =>
      match link with
      | PNone => dict_comp (fun lk => snr_upper_bound d s lk db) (map PLink (dvalues (links s))) []
      | _ =>
          link <~ resolve_name s link ;;
          match link with
          | PList l => list_comp (fun lk => snr_upper_bound d s lk db) l
          | PLink c =>
              Ret (VNum (if db then Chan.snr_upper_bound_db (metrics c)
                         else Chan.snr_upper_bound (metrics c)))
          | _ => Raise AttributeError
          end
      end
  end.

(** [10 * log10(x + np.finfo(float).tiny)] *)
Definition to_db (x : R) : R := (10 * (ln (x + Ant.tiny) / ln 10))%R.

(** [self.connections[link.rx]["ul"]] for the argument left after the
    name has been looked up: only a [Channel] has an [rx]. *)
Definition uplinks_at_rx (s : Network) (link : pyarg) : res (chan * list chan) :=
  match link with
  | PLink c =>
      match dget (ch_rx c) (connections s) with
      | Some a => Ret (c, ul a)
      | None => Raise KeyError
      end
  | _ => Raise AttributeError
  end.

(** [Network.interference] *)
Fixpoint interference (depth : nat) (s : Network) (link : pyarg) (db : bool) : res pyval :=
  match depth with
  | 0 => Raise RecursionError
  | S d =>
      match link with
      | PNone => dict_comp (fun lk => interference d s lk db) (map PLink (dvalues (links s))) []
      | _ =>
          link <~ resolve_name s link ;;
          cu <~ uplinks_at_rx s link ;;
          interference <~
            sum_loop (snd cu)
              (fun ul acc =>
                 if negb (Nat.eqb ul (fst cu))
                 then v <~ signal_power d s (PLink ul) false ;;
                      x <~ as_num v ;;
                      Ret (acc + x)%R
                 else Ret acc)
              0%R ;;
          Ret (VNum (if db then to_db interference else interference))
      end
  end.

(** [Network.inr_upper_bound].  The divisor is the attribute
    [noise_power_lin] of the receiving array. *)
Fixpoint inr_upper_bound (depth : nat) (s : Network) (link : pyarg) (db : bool) : res pyval :=
  match depth with
  | 0 => Raise RecursionError
  | S d =>
      match link with
      | PNone => dict_comp (fun lk => inr_upper_bound d s lk db) (map PLink (dvalues (links s))) []
      | _ =>
          link <~ resolve_name s link ;;
          cu <~ uplinks_at_rx s link ;;
          sig_pow_nb <~
            sum_loop (snd cu)
              (fun ul acc =>
                 if negb (Nat.eqb ul (fst cu))
                 then Ret (acc + Chan.rx_power (metrics ul)
                                 * INR (Ant.N (arrays (ch_tx ul)))
                                 * INR (Ant.N (arrays (ch_rx ul))))%R
                 else Ret acc)
              0%R ;;
          match Ant.getattr (arrays (ch_rx (fst cu))) "noise_power_lin" with
          | None => Raise AttributeError
          | Some noise_power_lin =>
              let inr_ub := (sig_pow_nb / noise_power_lin)%R in
              Ret (VNum (if db then to_db inr_ub else inr_ub))
          end
      end
  end.

(* ------------------------------------------------------------------ *)
(** *** Ratios of the link metrics *)

(** [numpy.log2] *)
Definition log2 (x : R) : R := (ln x / ln 2)%R.

(** [Network.inr].  The two operands are evaluated left to right, then
    divided; a value that is not a number cannot be divided. *)
Fixpoint inr (depth : nat) (s : Network) (link : pyarg) (db : bool) : res pyval :=
  match depth with
  | 0 => Raise RecursionError
  | S d =>
      match link with
      | PNone => dict_comp (fun lk => inr d s lk db) (map PLink (dvalues (links s))) []
      | _ =>
          link <~ resolve_name s link ;;
          i <~ interference d s link false ;;
          n <~ bf_noise_power d s link false ;;
          i <~ as_num i ;;
          n <~ as_num n ;;
          let inr := (i / n)%R in
          Ret (VNum (if db then to_db inr else inr))
      end
  end.

(** [Network.sinr] *)
Fixpoint sinr (depth : nat) (s : Network) (link : pyarg) (db : bool) : res pyval :=
  match depth with
  | 0 => Raise RecursionError
  | S d =>
      match link with
      | PNone => dict_comp (fun lk => sinr d s lk db) (map PLink (dvalues (links s))) []
      | _ =>
          link <~ resolve_name s link ;;
          p <~ signal_power d s link false ;;
          i <~ interference d s link false ;;
          n <~ bf_noise_power d s link false ;;
          i <~ as_num i ;;
          n <~ as_num n ;;
          p <~ as_num p ;;
          let sinr := (p / (i + n))%R in
          Ret (VNum (if db then to_db sinr else sinr))
      end
  end.

(** [Network.spectral_efficiency]; the source spells the name with the
    single letter for [fi]. *)
Fixpoint spectral_efficiency (depth : nat) (s : Network) (link : pyarg) : res pyval :=
  match depth with
  | 0 => Raise RecursionError
  | S d =>
      match link with
      | PNone => dict_comp (spectral_efficiency d s) (map PLink (dvalues (links s))) []
      | _ =>
          link <~ resolve_name s link ;;
          x <~ sinr d s link false ;;
          x <~ as_num x ;;
          Ret (VNum (log2 (1 + x)))
      end
  end.

(* ------------------------------------------------------------------ *)

(** *** Moving a node *)

(** The network together with the objects it refers to: the arrays, the
    state of every channel (its random stream and its matrix), and, as a
    record of what happened, the channels [realize] was called on. *)
Record World : Type :=
  { w_net : Network;
    w_arrays : node -> Ant.AntennaArray;
    w_chans : chan -> ChanState;
    w_realized : list chan }.

(** [Network.nodes]: the keys of [connections] by name, a later key
    taking the place of an earlier one of the same name. *)
Definition nodes (w : World) : dict string node :=
  fold_left (fun d key => dset (Ant.name (w_arrays w key)) key d)
            (dkeys (connections (w_net w))) [].

(** [link.realize()] *)
Definition realize_link (c : chan) : M World unit :=
  fun w =>
    let (r, st) := channel_realize (w_arrays w) c (w_chans w c) in
    (r, {| w_net := w_net w; w_arrays := w_arrays w;
           w_chans := fun c' => if Nat.eqb c' c then st else w_chans w c';
           w_realized := w_realized w ++ [c] |}).

(** [node.location = np.asarray(location)]: the setter of the array,
    which may raise. *)
Definition assign_location (n : node) (loc : Ant.vec3) : M World unit :=
  fun w =>
    let (r, a) := Ant.set_location loc (w_arrays w n) in
    (r, {| w_net := w_net w;
           w_arrays := fun m => if Nat.eqb m n then a else w_arrays w m;
           w_chans := w_chans w; w_realized := w_realized w |}).

(** [self.connections[n]] *)
Definition world_adj (n : node) : M World Adj :=
  fun w => match dget n (connections (w_net w)) with
           | Some a => (Ret a, w)
           | None => (Raise KeyError, w)
           end.

(** [node: str | AntennaArray], resolved as the first statement of
    [move_node] does. *)
Definition lookup_node (nd : node_ref) : M World node :=
  match nd with
  | NName nm =>
      w <- get ;;
      match dget nm (nodes w) with
      | Some n => ret n
      | None => raise KeyError
      end
  | NObj n => ret n
  end.

(** [Network.move_node] *)
Definition move_node (nd : node_ref) (loc : Ant.vec3) : M World unit :=
  n <- lookup_node nd ;;
  assign_location n loc ;;
  a <- world_adj n ;;
  for_each (dl a) realize_link ;;
  a' <- world_adj n ;;
  for_each (ul a') realize_link.

(* ------------------------------------------------------------------ *)
(** [Network.realize] *)
Definition realize : M World unit :=
  w <- get ;;
  for_each (dvalues (links (w_net w))) realize_link.

(* ------------------------------------------------------------------ *)

(** *** Running the graph operations *)

Lemma list_mem_In (x : nat) (l : list nat) : list_mem x l = true <-> In x l.
Proof.
  unfold list_mem. rewrite existsb_exists. split.
  - intros [y [Hy E]]. apply Nat.eqb_eq in E. now subst.
  - intros Hx. exists x. split; [assumption | apply Nat.eqb_refl].
Qed.

Lemma list_mem_false (x : nat) (l : list nat) : list_mem x l = false <-> ~ In x l.
Proof.
  rewrite <- list_mem_In. destruct (list_mem x l); split; congruence.
Qed.

Lemma list_remove_None (x : nat) (l : list nat) :
  list_mem x l = false -> list_remove x l = None.
Proof.
  induction l as [|y l IH]; simpl; [reflexivity|].
  rewrite (Nat.eqb_sym x y). destruct (Nat.eqb y x); simpl; [discriminate|].
  intros E. now rewrite IH.
Qed.

Lemma list_remove_incl (x : nat) (l r : list nat) :
  list_remove x l = Some r -> incl r l.
Proof.
  revert r. induction l as [|y l IH]; simpl; intros r; [discriminate|].
  destruct (Nat.eqb y x).
  - intros [= <-]. apply incl_tl, incl_refl.
  - destruct (list_remove x l) as [r'|]; [|discriminate].
    intros [= <-]. apply incl_cons; [now left|]. apply incl_tl. now apply IH.
Qed.

(** A property of the state that an operation keeps, whether it returns
    or raises. *)
Definition stable {A} (P : Network -> Prop) (m : M Network A) : Prop :=
  forall s, P s -> P (snd (m s)).

Lemma stable_ret {A} (P : Network -> Prop) (a : A) : stable P (ret a).
Proof. now intros s Hs. Qed.

Lemma stable_raise {A} (P : Network -> Prop) (e : exn) : stable P (raise e : M Network A).
Proof. now intros s Hs. Qed.

Lemma stable_get (P : Network -> Prop) : stable P get.
Proof. now intros s Hs. Qed.

Lemma stable_bind {A B} (P : Network -> Prop) (m : M Network A) (k : A -> M Network B) :
  stable P m -> (forall a, stable P (k a)) -> stable P (bind m k).
Proof.
  intros Hm Hk s Hs. unfold bind. specialize (Hm s Hs).
  destruct (m s) as [[a|e] s']; simpl in *; [now apply Hk | assumption].
Qed.

Lemma stable_for_each {A} (P : Network -> Prop) (l : list A) (body : A -> M Network unit) :
  (forall x, In x l -> stable P (body x)) -> stable P (for_each l body).
Proof.
  induction l as [|x l IH]; intros Hb; simpl.
  - apply stable_ret.
  - apply stable_bind; [apply Hb; now left|].
    intros _. apply IH. intros y Hy. apply Hb. now right.
Qed.

(** [n] is a key of [connections]. *)
Definition present (n : node) (s : Network) : Prop := dmem n (connections s) = true.

(** The link mapping is not touched. *)
Definition same_links {A} (m : M Network A) : Prop :=
  forall s, links (snd (m s)) = links s.

Lemma same_links_bind {A B} (m : M Network A) (k : A -> M Network B) :
  same_links m -> (forall a, same_links (k a)) -> same_links (bind m k).
Proof.
  intros Hm Hk s. unfold bind. specialize (Hm s).
  destruct (m s) as [[a|e] s']; simpl in *; [now rewrite Hk | assumption].
Qed.

Lemma same_links_for_each {A} (l : list A) (body : A -> M Network unit) :
  (forall x, same_links (body x)) -> same_links (for_each l body).
Proof.
  intros Hb. induction l as [|x l IH]; simpl.
  - now intros s.
  - apply same_links_bind; [apply Hb | intros _; apply IH].
Qed.

Ltac run_adj :=
  intros s; cbv [dl_append ul_append dl_remove ul_remove adj_of _add_node
                 bind get modify ret raise];
  repeat match goal with
         | |- context [match ?x with _ => _ end] => destruct x; simpl
         end; try reflexivity.

Lemma same_links_dl_append n c : same_links (dl_append n c).
Proof. run_adj. Qed.
Lemma same_links_ul_append n c : same_links (ul_append n c).
Proof. run_adj. Qed.
Lemma same_links_dl_remove n c : same_links (dl_remove n c).
Proof. run_adj. Qed.
Lemma same_links_ul_remove n c : same_links (ul_remove n c).
Proof. run_adj. Qed.
Lemma same_links_adj_of n : same_links (adj_of n).
Proof. run_adj. Qed.
Lemma same_links_add_node n : same_links (_add_node n).
Proof. run_adj. Qed.

(** [_remove_node] pops with the [Channel] object as the key, so the
    link mapping comes out as it went in, whatever the node. *)
Lemma _remove_node_same_links n : same_links (_remove_node n).
Proof.
  unfold _remove_node. apply same_links_bind; [now intros s|]. intros s0.
  destruct (dmem n (connections s0)); [|now intros s].
  apply same_links_bind; [apply same_links_adj_of|]. intros a.
  apply same_links_bind.
  - apply same_links_for_each. intros c.
    apply same_links_bind; [now intros s | intros _; apply same_links_ul_remove].
  - intros _. apply same_links_bind; [apply same_links_adj_of|]. intros a'.
    apply same_links_for_each. intros c.
    apply same_links_bind; [now intros s | intros _; apply same_links_dl_remove].
Qed.

Lemma remove_nodes_same_links a : same_links (remove_nodes a).
Proof.
  destruct a as [n|l]; simpl; [now intros s|].
  apply same_links_for_each, _remove_node_same_links.
Qed.

(* ------------------------------------------------------------------ *)
(** *** Adding a link *)

(** The test of [_add_link]: neither the name nor the object is known. *)
Definition is_new (link : chan) (s : Network) : bool :=
  negb (dmem (ch_name link) (links s)) && negb (list_mem link (dvalues (links s))).

Lemma present_dset n m a (s : Network) :
  present m s -> present m (with_connections (dset n a) s).
Proof.
  unfold present. simpl. rewrite dmem_dset. intros ->. apply orb_true_r.
Qed.

Lemma _add_node_ok n s :
  exists s', _add_node n s = (Ret tt, s') /\ links s' = links s /\
             present n s' /\ (forall m, present m s -> present m s').
Proof.
  unfold _add_node, bind, get, modify, ret.
  destruct (dmem n (connections s)) eqn:E; simpl.
  - exists s. repeat split; auto.
  - eexists. repeat split.
    + unfold present. simpl. rewrite dmem_dset, py_eqb_refl. reflexivity.
    + intros m. apply present_dset.
Qed.

Lemma dl_append_ok n c s :
  present n s ->
  exists s', dl_append n c s = (Ret tt, s') /\ links s' = links s /\
             (forall m, present m s -> present m s').
Proof.
  unfold present, dmem, dl_append. destruct (dget n (connections s)); [|discriminate].
  intros _. eexists. repeat split. intros m. apply present_dset.
Qed.

Lemma ul_append_ok n c s :
  present n s ->
  exists s', ul_append n c s = (Ret tt, s') /\ links s' = links s /\
             (forall m, present m s -> present m s').
Proof.
  unfold present, dmem, ul_append. destruct (dget n (connections s)); [|discriminate].
  intros _. eexists. repeat split. intros m. apply present_dset.
Qed.

Lemma _add_link_known link s : is_new link s = false -> _add_link link s = (Ret tt, s).
Proof.
  unfold is_new, _add_link, bind, get. intros ->. reflexivity.
Qed.

Lemma _add_link_fresh link s :
  is_new link s = true ->
  exists s', _add_link link s = (Ret tt, s') /\
             links s' = dset (ch_name link) link (links s) /\
             present (ch_tx link) s' /\ present (ch_rx link) s' /\
             (forall m, present m s -> present m s').
Proof.
  unfold is_new, _add_link. unfold bind at 1. unfold get. intros ->. simpl.
  set (s0 := with_links (dset (ch_name link) link) s).
  unfold bind at 1. unfold modify. fold s0.
  destruct (_add_node_ok (ch_tx link) s0) as (s1 & R1 & L1 & P1 & M1).
  unfold bind at 1. rewrite R1.
  destruct (dl_append_ok link P1) as (s2 & R2 & L2 & M2).
  unfold bind at 1. rewrite R2.
  destruct (_add_node_ok (ch_rx link) s2) as (s3 & R3 & L3 & P3 & M3).
  unfold bind at 1. rewrite R3.
  destruct (ul_append_ok link P3) as (s4 & R4 & L4 & M4).
  rewrite R4. exists s4. split; [reflexivity|]. split; [|split; [|split]].
  - rewrite L4, L3, L2, L1. reflexivity.
  - auto.
  - auto.
  - intros m Hm. apply M4, M3, M2, M1. subst s0. exact Hm.
Qed.

Lemma _add_link_registers link s :
  dmem (ch_name link) (links (snd (_add_link link s))) = true \/
  In link (dvalues (links (snd (_add_link link s)))).
Proof.
  destruct (is_new link s) eqn:E.
  - destruct (_add_link_fresh _ _ E) as (s' & R & L & _). rewrite R. simpl.
    left. rewrite L, dmem_dset, py_eqb_refl. reflexivity.
  - rewrite (_add_link_known _ _ E). simpl. unfold is_new in E.
    apply andb_false_iff in E. destruct E as [E|E]; apply negb_false_iff in E.
    + now left.
    + right. now apply list_mem_In.
Qed.

Lemma is_new_false link s :
  dmem (ch_name link) (links s) = true \/ In link (dvalues (links s)) ->
  is_new link s = false.
Proof.
  unfold is_new. intros [E|E].
  - now rewrite E.
  - apply list_mem_In in E. rewrite E. apply andb_false_r.
Qed.

(** C10.  Adding a link whose object is registered already, or whose
    name is a key of the link mapping already, returns without an error
    and leaves the whole network (link mapping, adjacency lists, target
    lists) as it was, whether the link is given bare or in a list; and
    adding a link twice gives the result of adding it once. *)
Theorem add_links_idempotent (s : Network) (link : chan) :
  (dmem (ch_name link) (links s) = true \/ In link (dvalues (links s)) ->
   add_links (One link) s = (Ret tt, s) /\
   add_links (Many [link]) s = (Ret tt, s)) /\
  (add_links (One link) ;; add_links (One link)) s = add_links (One link) s /\
  add_links (Many [link; link]) s = add_links (Many [link]) s.
Proof.
  assert (K : forall s0, is_new link s0 = false ->
                         _add_link link s0 = (Ret tt, s0)) by apply _add_link_known.
  assert (T : forall s0, exists s1, _add_link link s0 = (Ret tt, s1) /\
                                    _add_link link s1 = (Ret tt, s1)).
  { intros s0. pose proof (_add_link_registers link s0) as Hreg.
    destruct (is_new link s0) eqn:E.
    - destruct (_add_link_fresh _ _ E) as (s1 & R & _). exists s1. split; [assumption|].
      rewrite R in Hreg. simpl in Hreg. now apply K, is_new_false.
    - exists s0. rewrite (K _ E). auto. }
  split; [|split].
  - intros Hk. apply is_new_false in Hk. simpl. unfold bind. rewrite (K _ Hk). auto.
  - simpl. destruct (T s) as (s1 & R1 & R2). unfold bind. now rewrite R1, R2.
  - simpl. destruct (T s) as (s1 & R1 & R2). unfold bind. rewrite R1, R2. reflexivity.
Qed.

(* ------------------------------------------------------------------ *)
(** *** Two invariants of the graph *)

(** Both ends of every registered link are keys of [connections]. *)
Definition ends_present (s : Network) : Prop :=
  forall c, In c (dvalues (links s)) -> present (ch_tx c) s /\ present (ch_rx c) s.

(** A ["dl"] list holds links transmitted by its node only, a ["ul"]
    list links received by its node only. *)
Definition adj_ok (n : node) (a : Adj) : Prop :=
  (forall c, In c (dl a) -> ch_tx c = n) /\ (forall c, In c (ul a) -> ch_rx c = n).

Definition adj_sound (s : Network) : Prop :=
  forall n a, dget n (connections s) = Some a -> adj_ok n a.

Lemma adj_sound_dset n a s :
  adj_sound s -> adj_ok n a -> adj_sound (with_connections (dset n a) s).
Proof.
  intros Hs Ha m b. simpl. rewrite dget_dset.
  destruct (py_eqb_spec m n) as [->|Hne].
  - now intros [= <-].
  - apply Hs.
Qed.

Lemma stable_adj_sound_add_node n : stable adj_sound (_add_node n).
Proof.
  intros s Hs. unfold _add_node, bind, get, modify, ret.
  destruct (dmem n (connections s)); simpl; [assumption|].
  apply adj_sound_dset; [assumption|]. split; simpl; intros c [].
Qed.

Lemma stable_adj_sound_dl_append c : stable adj_sound (dl_append (ch_tx c) c).
Proof.
  intros s Hs. unfold dl_append.
  destruct (dget (ch_tx c) (connections s)) as [a|] eqn:E; simpl; [|assumption].
  apply adj_sound_dset; [assumption|]. destruct (Hs _ _ E) as [Hd Hu].
  split; simpl; [|assumption]. intros x Hx. apply in_app_or in Hx.
  destruct Hx as [Hx|[<-|[]]]; auto.
Qed.

Lemma stable_adj_sound_ul_append c : stable adj_sound (ul_append (ch_rx c) c).
Proof.
  intros s Hs. unfold ul_append.
  destruct (dget (ch_rx c) (connections s)) as [a|] eqn:E; simpl; [|assumption].
  apply adj_sound_dset; [assumption|]. destruct (Hs _ _ E) as [Hd Hu].
  split; simpl; [assumption|]. intros x Hx. apply in_app_or in Hx.
  destruct Hx as [Hx|[<-|[]]]; auto.
Qed.

Lemma stable_adj_sound_dl_remove n c : stable adj_sound (dl_remove n c).
Proof.
  intros s Hs. unfold dl_remove.
  destruct (dget n (connections s)) as [a|] eqn:E; simpl; [|assumption].
  destruct (list_remove c (dl a)) as [l|] eqn:R; simpl; [|assumption].
  apply adj_sound_dset; [assumption|]. destruct (Hs _ _ E) as [Hd Hu].
  split; simpl; [|assumption]. intros x Hx. apply Hd. eapply list_remove_incl; eauto.
Qed.

Lemma stable_adj_sound_ul_remove n c : stable adj_sound (ul_remove n c).
Proof.
  intros s Hs. unfold ul_remove.
  destruct (dget n (connections s)) as [a|] eqn:E; simpl; [|assumption].
  destruct (list_remove c (ul a)) as [l|] eqn:R; simpl; [|assumption].
  apply adj_sound_dset; [assumption|]. destruct (Hs _ _ E) as [Hd Hu].
  split; simpl; [assumption|]. intros x Hx. apply Hu. eapply list_remove_incl; eauto.
Qed.

(** A step that leaves [connections] alone keeps every property of it. *)
Definition same_connections {A} (m : M Network A) : Prop :=
  forall s, connections (snd (m s)) = connections s.

Lemma same_connections_links_pop k : same_connections (links_pop k).
Proof. now destruct k as [nm|c]; intros s0. Qed.

Lemma same_connections_adj_of n : same_connections (adj_of n).
Proof. intros s. unfold adj_of. now destruct (dget n (connections s)). Qed.

Lemma same_connections_target_node_remove n : same_connections (target_node_remove n).
Proof. intros s. unfold target_node_remove. now destruct (list_remove n (target_nodes s)). Qed.

Lemma same_connections_target_link_remove c : same_connections (target_link_remove c).
Proof. intros s. unfold target_link_remove. now destruct (list_remove c (target_links s)). Qed.

Lemma same_connections_with_links f : same_connections (modify (with_links f)).
Proof. now intros s. Qed.

Lemma same_connections_with_target_links f : same_connections (modify (with_target_links f)).
Proof. now intros s. Qed.

Lemma same_connections_with_target_nodes f : same_connections (modify (with_target_nodes f)).
Proof. now intros s. Qed.

Lemma stable_adj_sound_same {A} (m : M Network A) :
  same_connections m -> stable adj_sound m.
Proof. intros Hm s Hs n a. rewrite Hm. apply Hs. Qed.

Lemma stable_present_same {A} (m : M Network A) n :
  same_connections m -> stable (present n) m.
Proof. intros Hm s. unfold present. now rewrite Hm. Qed.

Create HintDb graph.
#[local] Hint Resolve stable_ret stable_raise stable_get
  same_connections_with_links same_connections_with_target_links
  same_connections_with_target_nodes
  stable_adj_sound_add_node stable_adj_sound_dl_append stable_adj_sound_ul_append
  stable_adj_sound_dl_remove stable_adj_sound_ul_remove
  same_connections_links_pop same_connections_adj_of
  same_connections_target_node_remove same_connections_target_link_remove
  stable_adj_sound_same stable_present_same : graph.

Ltac stable_step :=
  repeat first
    [ solve [ auto with graph ]
    | apply stable_for_each; intros ? _
    | apply stable_bind; [| intros ? ] ].

Lemma stable_adj_sound_add_link c : stable adj_sound (_add_link c).
Proof.
  unfold _add_link. apply stable_bind; [auto with graph|]. intros s0.
  destruct (_ && _); [|auto with graph]. unfold add_nodes. stable_step.
Qed.

Lemma stable_adj_sound_remove_node n : stable adj_sound (_remove_node n).
Proof.
  unfold _remove_node. apply stable_bind; [auto with graph|]. intros s0.
  destruct (dmem n (connections s0)); [|auto with graph]. stable_step.
Qed.

Lemma stable_adj_sound_remove_link l : stable adj_sound (_remove_link l).
Proof.
  unfold _remove_link. apply stable_bind.
  - destruct l as [c|nm]; [auto with graph|]. apply stable_bind; [auto with graph|].
    intros s0. destruct (dget nm (links s0)); auto with graph.
  - intros c. stable_step.
Qed.

#[local] Hint Resolve stable_adj_sound_add_link stable_adj_sound_remove_node
  stable_adj_sound_remove_link : graph.

Lemma stable_adj_sound_op o : stable adj_sound (run_op o).
Proof.
  destruct o as [a|a|a|a|a|a|a|a]; simpl.
  - destruct a; simpl; stable_step.
  - destruct a; simpl; stable_step.
  - destruct a; simpl; stable_step.
  - destruct a as [[c|nm]|l]; simpl; stable_step.
  - destruct a; simpl; stable_step.
  - destruct a; simpl; stable_step.
  - destruct a; simpl; stable_step.
  - destruct a; simpl; stable_step.
Qed.

Lemma stable_present_add_node m n : stable (present m) (_add_node n).
Proof.
  intros s Hs. destruct (_add_node_ok n s) as (s' & R & _ & _ & Hm).
  rewrite R. now apply Hm.
Qed.

Lemma stable_present_dl_append m n c : stable (present m) (dl_append n c).
Proof.
  intros s Hs. unfold dl_append. destruct (dget n (connections s)); simpl; auto.
  now apply present_dset.
Qed.

Lemma stable_present_ul_append m n c : stable (present m) (ul_append n c).
Proof.
  intros s Hs. unfold ul_append. destruct (dget n (connections s)); simpl; auto.
  now apply present_dset.
Qed.

Lemma stable_present_dl_remove m n c : stable (present m) (dl_remove n c).
Proof.
  intros s Hs. unfold dl_remove. destruct (dget n (connections s)) as [a|]; simpl; auto.
  destruct (list_remove c (dl a)); simpl; auto. now apply present_dset.
Qed.

Lemma stable_present_ul_remove m n c : stable (present m) (ul_remove n c).
Proof.
  intros s Hs. unfold ul_remove. destruct (dget n (connections s)) as [a|]; simpl; auto.
  destruct (list_remove c (ul a)); simpl; auto. now apply present_dset.
Qed.

Lemma stable_ends_present_frame {A} (m : M Network A) :
  same_links m -> (forall n, stable (present n) m) -> stable ends_present m.
Proof.
  intros Hl Hp s Hs c. rewrite Hl. intros Hc. destruct (Hs c Hc).
  split; now apply Hp.
Qed.

Lemma stable_ends_present_same {A} (m : M Network A) :
  same_links m -> same_connections m -> stable ends_present m.
Proof.
  intros Hl Hc. apply stable_ends_present_frame; [assumption|].
  intros n. now apply stable_present_same.
Qed.

Lemma same_links_target_node_remove n : same_links (target_node_remove n).
Proof. intros s. unfold target_node_remove. now destruct (list_remove n (target_nodes s)). Qed.

Lemma same_links_target_link_remove c : same_links (target_link_remove c).
Proof. intros s. unfold target_link_remove. now destruct (list_remove c (target_links s)). Qed.

Lemma same_links_with_target_links f : same_links (modify (with_target_links f)).
Proof. now intros s. Qed.

Lemma same_links_with_target_nodes f : same_links (modify (with_target_nodes f)).
Proof. now intros s. Qed.

Lemma stable_ends_present_links_pop k : stable ends_present (links_pop k).
Proof.
  destruct k as [nm|c]; [|apply stable_ret].
  intros s Hs c Hc. simpl in Hc. apply dvalues_dpop_incl in Hc. exact (Hs c Hc).
Qed.

Lemma stable_ends_present_add_link c : stable ends_present (_add_link c).
Proof.
  intros s Hs. destruct (is_new c s) eqn:E.
  - destruct (_add_link_fresh _ _ E) as (s' & R & L & Pt & Pr & Mono).
    rewrite R. simpl. intros x Hx. rewrite L in Hx.
    apply dvalues_dset_In in Hx. destruct Hx as [->|Hx]; [now split|].
    destruct (Hs x Hx). split; now apply Mono.
  - now rewrite (_add_link_known _ _ E).
Qed.

#[local] Hint Resolve stable_present_add_node stable_present_dl_append
  stable_present_ul_append stable_present_dl_remove stable_present_ul_remove
  same_links_dl_append same_links_ul_append same_links_dl_remove
  same_links_ul_remove same_links_adj_of same_links_add_node
  same_links_target_node_remove same_links_target_link_remove
  same_links_with_target_links same_links_with_target_nodes
  stable_ends_present_links_pop stable_ends_present_add_link : graph.
#[local] Hint Resolve stable_ends_present_frame stable_ends_present_same | 5 : graph.

Lemma stable_ends_present_remove_node n : stable ends_present (_remove_node n).
Proof.
  unfold _remove_node. apply stable_bind; [auto with graph|]. intros s0.
  destruct (dmem n (connections s0)); [|auto with graph]. stable_step.
Qed.

Lemma stable_ends_present_remove_link l : stable ends_present (_remove_link l).
Proof.
  unfold _remove_link. apply stable_bind.
  - destruct l as [c|nm]; [auto with graph|]. apply stable_bind; [auto with graph|].
    intros s0. destruct (dget nm (links s0)); auto with graph.
  - intros c. stable_step.
Qed.

#[local] Hint Resolve stable_ends_present_remove_node
  stable_ends_present_remove_link : graph.

Lemma stable_ends_present_op o : stable ends_present (run_op o).
Proof.
  destruct o as [a|a|a|a|a|a|a|a]; simpl.
  - destruct a; simpl; stable_step.
  - destruct a; simpl; stable_step.
  - destruct a; simpl; stable_step.
  - destruct a as [[c|nm]|l]; simpl; stable_step.
  - destruct a; simpl; stable_step.
  - destruct a; simpl; stable_step.
  - destruct a; simpl; stable_step.
  - destruct a; simpl; stable_step.
Qed.

Lemma run_ops_stable (P : Network -> Prop) :
  (forall o, stable P (run_op o)) -> forall os s, P s -> P (run_ops os s).
Proof.
  intros Ho os. induction os as [|o os IH]; simpl; intros s Hs; [assumption|].
  apply IH. now apply Ho.
Qed.

(** Every network a program can hold satisfies both invariants. *)
Lemma reachable_inv s : reachable s -> adj_sound s /\ ends_present s.
Proof.
  intros [os ->]. split.
  - apply run_ops_stable; [apply stable_adj_sound_op|]. intros n a. discriminate.
  - apply run_ops_stable; [apply stable_ends_present_op|]. intros c [].
Qed.

(* ------------------------------------------------------------------ *)
(** *** Interference *)

(** The uplinks at the receiver of [c] other than [c] itself. *)
Definition others (c : chan) (uls : list chan) : list chan :=
  filter (fun u => negb (Nat.eqb u c)) uls.

Lemma signal_power_link (d : nat) (s : Network) (c : chan) :
  signal_power (S d) s (PLink c) false = Ret (VNum (Chan.signal_power (metrics c))).
Proof. reflexivity. Qed.

Lemma interference_loop (d : nat) (s : Network) (c : chan) (uls : list chan) (acc : R) :
  sum_loop uls
    (fun ul acc =>
       if negb (Nat.eqb ul c)
       then v <~ signal_power (S d) s (PLink ul) false ;;
            x <~ as_num v ;;
            Ret (acc + x)%R
       else Ret acc)
    acc
  = Ret (fold_left Rplus (map (fun u => Chan.signal_power (metrics u)) (others c uls)) acc).
Proof.
  revert acc. induction uls as [|u uls IH]; intros acc; [reflexivity|].
  cbn [sum_loop others filter]. destruct (negb (Nat.eqb u c)).
  - rewrite signal_power_link. cbn [rbind as_num map fold_left]. apply IH.
  - cbn [rbind]. apply IH.
Qed.

Lemma interference_link (d : nat) (s : Network) (c : chan) (a : Adj) :
  dget (ch_rx c) (connections s) = Some a ->
  interference (S (S d)) s (PLink c) false
  = Ret (VNum (fold_left Rplus
                 (map (fun u => Chan.signal_power (metrics u)) (others c (ul a))) 0%R)).
Proof.
  intros Ha. cbn [interference resolve_name rbind uplinks_at_rx]. rewrite Ha.
  cbn [rbind fst snd]. rewrite interference_loop. reflexivity.
Qed.

Lemma registered_rx_present (s : Network) (c : chan) :
  reachable s -> In c (dvalues (links s)) ->
  exists a, dget (ch_rx c) (connections s) = Some a.
Proof.
  intros Hs Hc. destruct (reachable_inv Hs) as [_ He].
  destruct (He c Hc) as [_ Hrx]. unfold present, dmem in Hrx.
  destruct (dget (ch_rx c) (connections s)) as [a|]; [now exists a | discriminate].
Qed.

(** C3.  In a network built by the operations of the class, for a
    registered link [c], [interference(c, db=False)] is the sum of the
    linear signal powers of the uplinks in the adjacency list of the
    receiver of [c] other than [c]: [c] is not among the links summed,
    every other link of that list is, and with the two uplinks [c] and
    [c2] at the receiver the result is the signal power of [c2] added to
    the initial 0.  A name of [c] in the link mapping gives the same. *)
Theorem interference_sums_other_uplinks (s : Network) (c : chan) (d : nat) :
  reachable s -> In c (dvalues (links s)) ->
  exists a,
    dget (ch_rx c) (connections s) = Some a /\
    interference (S (S d)) s (PLink c) false
    = Ret (VNum (fold_left Rplus
                   (map (fun u => Chan.signal_power (metrics u)) (others c (ul a))) 0%R)) /\
    ~ In c (others c (ul a)) /\
    (forall c2, In c2 (ul a) -> c2 <> c -> In c2 (others c (ul a))) /\
    (forall c2, c2 <> c -> ul a = [c; c2] ->
       interference (S (S d)) s (PLink c) false
       = Ret (VNum (0 + Chan.signal_power (metrics c2))%R)) /\
    (forall nm, dget nm (links s) = Some c ->
       interference (S (S d)) s (PStr nm) false = interference (S (S d)) s (PLink c) false).
Proof.
  intros Hs Hc. destruct (@registered_rx_present s c Hs Hc) as [a Ha]. exists a.
  split; [assumption|]. split; [now apply interference_link|]. split; [|split; [|split]].
  - unfold others. rewrite filter_In, Nat.eqb_refl. intros [_ E]. discriminate.
  - intros c2 Hin Hne. unfold others. rewrite filter_In. split; [assumption|].
    apply negb_true_iff, Nat.eqb_neq. assumption.
  - intros c2 Hne Hul. rewrite (interference_link d s c Ha), Hul. unfold others.
    cbn [filter]. rewrite Nat.eqb_refl. apply Nat.eqb_neq in Hne. rewrite Hne.
    reflexivity.
  - intros nm Hnm. cbn [interference resolve_name rbind]. rewrite Hnm. reflexivity.
Qed.

(* ------------------------------------------------------------------ *)
(** *** The dispatch of the accessors *)

(** With an iterable, [rx_power] maps itself over the elements. *)
Lemma rx_power_iterable (d : nat) (s : Network) (l : list pyarg) :
  rx_power (S d) s (PList l) = dict_comp (rx_power d s) l [].
Proof. reflexivity. Qed.

(** With an iterable, [bf_gain], [signal_power] and [bf_noise_power]
    map [snr] over the elements. *)
Lemma bf_gain_iterable (d : nat) (s : Network) (l : list pyarg) (db : bool) :
  bf_gain (S d) s (PList l) db = dict_comp (fun lk => snr d s lk db) l [].
Proof. reflexivity. Qed.

Lemma signal_power_iterable (d : nat) (s : Network) (l : list pyarg) (db : bool) :
  signal_power (S d) s (PList l) db = dict_comp (fun lk => snr d s lk db) l [].
Proof. reflexivity. Qed.

Lemma bf_noise_power_iterable (d : nat) (s : Network) (l : list pyarg) (db : bool) :
  bf_noise_power (S d) s (PList l) db = dict_comp (fun lk => snr d s lk db) l [].
Proof. reflexivity. Qed.

Lemma bf_gain_one_in_list (d : nat) (s : Network) (c : chan) (db : bool) :
  bf_gain (S (S d)) s (PList [PLink c]) db
  = Ret (VDict [(KeyLink c,
                 VNum (if db then Chan.snr_db (metrics c) else Chan.snr (metrics c)))]).
Proof. reflexivity. Qed.

(** [snr] tests for an iterable before it tests for a name, and a
    non-empty [str] iterates into non-empty [str]s: whatever the depth
    allowed, the call ends in [RecursionError]. *)
Lemma snr_name_recursion (depth : nat) (s : Network) (a : ascii) (nm : string) (db : bool) :
  snr depth s (PStr (String a nm)) db = Raise RecursionError.
Proof.
  revert a nm. induction depth as [|d IH]; intros a nm; [reflexivity|].
  cbn [snr chars map]. unfold list_comp. cbn [list_items]. rewrite IH. reflexivity.
Qed.

(* ------------------------------------------------------------------ *)
(** *** The INR upper bound *)

Lemma inr_loop_returns (c : chan) (uls : list chan) (acc : R) :
  exists x,
    sum_loop uls
      (fun ul acc =>
         if negb (Nat.eqb ul c)
         then Ret (acc + Chan.rx_power (metrics ul)
                         * INR (Ant.N (arrays (ch_tx ul)))
                         * INR (Ant.N (arrays (ch_rx ul))))%R
         else Ret acc)
      acc = Ret x.
Proof.
  revert acc. induction uls as [|u uls IH]; intros acc; [now exists acc|].
  cbn [sum_loop]. destruct (negb (Nat.eqb u c)); cbn [rbind]; apply IH.
Qed.

Lemma getattr_noise_power_lin (a : Ant.AntennaArray) :
  Ant.getattr a "noise_power_lin" = None.
Proof. reflexivity. Qed.

(** No attribute [noise_power_lin] exists on an [AntennaArray]: for a
    link whose receiver is a node, [inr_upper_bound] raises. *)
Lemma inr_upper_bound_raises (d : nat) (s : Network) (c : chan) (a : Adj) (db : bool) :
  dget (ch_rx c) (connections s) = Some a ->
  inr_upper_bound (S d) s (PLink c) db = Raise AttributeError.
Proof.
  intros Ha. cbn [inr_upper_bound resolve_name rbind uplinks_at_rx]. rewrite Ha.
  cbn [rbind fst snd]. destruct (inr_loop_returns c (ul a) 0%R) as [x ->].
  cbn [rbind]. rewrite getattr_noise_power_lin. reflexivity.
Qed.

(* ------------------------------------------------------------------ *)
(** *** Moving a node re-realizes its own links only *)

(** Realizing the links of a list, one after the other: the network and
    the arrays stay, the channels outside the list stay, and [realize]
    is called on links of the list only, on all of them unless a call
    raises. *)
Lemma realize_all (l : list chan) (w : World) :
  w_net (snd (for_each l realize_link w)) = w_net w /\
  w_arrays (snd (for_each l realize_link w)) = w_arrays w /\
  (forall c, ~ In c l -> w_chans (snd (for_each l realize_link w)) c = w_chans w c) /\
  exists called,
    w_realized (snd (for_each l realize_link w)) = w_realized w ++ called /\
    incl called l /\
    (fst (for_each l realize_link w) = Ret tt -> called = l).
Proof.
  revert w. induction l as [|c l IH]; intros w.
  - cbn. repeat split; auto. exists []. rewrite app_nil_r. repeat split; auto.
    apply incl_refl.
  - cbn [for_each]. unfold bind. unfold realize_link at 1 3 5 7 9.
    destruct (channel_realize (w_arrays w) c (w_chans w c)) as [[[]|e] st].
    + match goal with |- context [for_each l realize_link ?w1] =>
        destruct (IH w1) as (Hn & Ha & Hc & called & Hr & Hi & Hall) end.
      cbn [w_net w_arrays w_chans w_realized] in *.
      split; [assumption|]. split; [assumption|]. split.
      * intros c' Hc'. rewrite Hc by (intros ?; apply Hc'; now right).
        destruct (Nat.eqb_spec c' c) as [->|]; [|reflexivity].
        exfalso. apply Hc'. now left.
      * exists (c :: called). rewrite Hr, <- app_assoc. split; [reflexivity|]. split.
        -- apply incl_cons; [now left | now apply incl_tl].
        -- intros E. now rewrite Hall.
    + cbn. split; [reflexivity|]. split; [reflexivity|]. split.
      * intros c' Hc'. destruct (Nat.eqb_spec c' c) as [->|]; [|reflexivity].
        exfalso. apply Hc'. now left.
      * exists [c]. split; [reflexivity|]. split; [|discriminate].
        apply incl_cons; [now left | apply incl_nil_l].
Qed.

Lemma lookup_node_run (nd : node_ref) (w : World) (n : node) :
  fst (lookup_node nd w) = Ret n -> lookup_node nd w = (Ret n, w).
Proof.
  destruct nd as [m|nm]; cbn.
  - intros [= ->]. reflexivity.
  - unfold bind, get. destruct (dget nm (nodes w)); cbn; [|discriminate].
    intros [= ->]. reflexivity.
Qed.

(** What [move_node] does when the coordinates of the node's array are
    floating-point numbers.  In a network built by the operations of
    the class, for a node [n] of the graph, given as the object or by a
    name that resolves to it: [move_node] leaves the graph as it is,
    moves every row of [n]'s array by the difference between the new
    location and the centre, leaves every other array alone, calls
    [realize] on links of [n]'s downlink and uplink lists only (on all
    of them, downlinks first, when no call raises), and leaves the state
    of every link that [n] neither transmits nor receives, its stored
    matrix included, exactly as it was. *)
Lemma move_node_on_float_coordinates (w : World) (nd : node_ref) (n : node)
    (loc : Ant.vec3) :
  reachable (w_net w) ->
  fst (lookup_node nd w) = Ret n ->
  present n (w_net w) ->
  Ant.coordinates_dtype (w_arrays w n) = Ant.float64 ->
  exists a,
    dget n (connections (w_net w)) = Some a /\
    w_net (snd (move_node nd loc w)) = w_net w /\
    w_arrays (snd (move_node nd loc w)) n
    = Ant.with_coordinates
        (map (fun p => Ant.vadd p (Ant.vsub loc (Ant.location (w_arrays w n)))))
        (w_arrays w n) /\
    (forall m, m <> n -> w_arrays (snd (move_node nd loc w)) m = w_arrays w m) /\
    (exists called,
       w_realized (snd (move_node nd loc w)) = w_realized w ++ called /\
       incl called (dl a ++ ul a) /\
       (fst (move_node nd loc w) = Ret tt -> called = dl a ++ ul a)) /\
    (forall c, ch_tx c <> n -> ch_rx c <> n ->
               w_chans (snd (move_node nd loc w)) c = w_chans w c).
Proof.
  intros Hreach Hlook Hpres Hfloat.
  destruct (reachable_inv Hreach) as [Hadj _].
  unfold present, dmem in Hpres.
  destruct (dget n (connections (w_net w))) as [a|] eqn:Ha; [|discriminate].
  destruct (Hadj n a Ha) as [Hdl Hul].
  exists a. split; [reflexivity|].
  set (moved := Ant.with_coordinates
                  (map (fun p => Ant.vadd p (Ant.vsub loc (Ant.location (w_arrays w n)))))
                  (w_arrays w n)).
  set (w1 := {| w_net := w_net w;
                w_arrays := fun m => if Nat.eqb m n then moved else w_arrays w m;
                w_chans := w_chans w; w_realized := w_realized w |}).
  assert (A0 : assign_location n loc w = (Ret tt, w1)).
  { unfold assign_location. now rewrite (Ant.set_location_float64 loc _ Hfloat). }
  assert (A1 : world_adj n w1 = (Ret a, w1)) by (unfold world_adj; cbn; now rewrite Ha).
  destruct (realize_all (dl a) w1) as (N2 & R2 & C2 & called2 & L2 & I2 & All2).
  assert (Hrun : move_node nd loc w
                 = match for_each (dl a) realize_link w1 with
                   | (Ret _, w2) => for_each (ul a) realize_link w2
                   | (Raise e, w2) => (Raise e, w2)
                   end).
  { unfold move_node, bind. rewrite (lookup_node_run nd w Hlook).
    rewrite A0, A1.
    destruct (for_each (dl a) realize_link w1) as [[[]|e] w2]; [|reflexivity].
    cbn [snd] in N2. unfold world_adj. rewrite N2. cbn [w_net w1]. now rewrite Ha. }
  rewrite Hrun. clear Hrun.
  destruct (for_each (dl a) realize_link w1) as [[[]|e] w2] eqn:E2; cbn [fst snd] in *.
  - destruct (realize_all (ul a) w2) as (N3 & R3 & C3 & called3 & L3 & I3 & All3).
    destruct (for_each (ul a) realize_link w2) as [r3 w3] eqn:E3; cbn [fst snd] in *.
    split; [now rewrite N3, N2|]. rewrite R3, R2. cbn [w_arrays w1].
    rewrite Nat.eqb_refl. split; [reflexivity|]. split.
    + intros m Hm. apply Nat.eqb_neq in Hm. now rewrite Hm.
    + split.
      * exists (called2 ++ called3). rewrite L3, L2, <- app_assoc. split; [reflexivity|].
        split.
        -- apply incl_app; [now apply incl_appl | now apply incl_appr].
        -- intros E. now rewrite All2, All3.
      * intros c Ht Hr. rewrite C3, C2; [reflexivity| |]; intros Hin.
        -- apply Ht. now apply Hdl.
        -- apply Hr. now apply Hul.
  - split; [exact N2|]. rewrite R2. cbn [w_arrays w1].
    rewrite Nat.eqb_refl. split; [reflexivity|]. split.
    + intros m Hm. apply Nat.eqb_neq in Hm. now rewrite Hm.
    + split.
      * exists called2. split; [exact L2|]. split; [now apply incl_appl | discriminate].
      * intros c Ht Hr. rewrite C2; [reflexivity|]. intros Hin. apply Ht. now apply Hdl.
Qed.

(** On integer coordinates the setter raises before anything else is
    done: [move_node] raises [TypeError], for a node given as the
    object or by a name that resolves to it; the array is not moved,
    [realize] is called on no link, and nothing else changes. *)
Lemma move_node_on_integer_coordinates (w : World) (nd : node_ref) (n : node)
    (loc : Ant.vec3) :
  fst (lookup_node nd w) = Ret n ->
  Ant.coordinates_dtype (w_arrays w n) = Ant.int64 ->
  fst (move_node nd loc w) = Raise TypeError /\
  w_net (snd (move_node nd loc w)) = w_net w /\
  (forall m, w_arrays (snd (move_node nd loc w)) m = w_arrays w m) /\
  w_chans (snd (move_node nd loc w)) = w_chans w /\
  w_realized (snd (move_node nd loc w)) = w_realized w.
Proof.
  intros Hlook Hint.
  assert (Hrun : move_node nd loc w
                 = (Raise TypeError,
                    {| w_net := w_net w;
                       w_arrays := fun m => if Nat.eqb m n then w_arrays w n
                                            else w_arrays w m;
                       w_chans := w_chans w; w_realized := w_realized w |})).
  { unfold move_node, bind. rewrite (lookup_node_run nd w Hlook).
    unfold assign_location. now rewrite (Ant.set_location_int64 loc _ Hint). }
  rewrite Hrun. cbn [fst snd w_net w_arrays w_chans w_realized].
  repeat split. intros m. now destruct (Nat.eqb_spec m n) as [->|].
Qed.

(* ------------------------------------------------------------------ *)
(** *** Removing what is not there *)

Lemma with_links_id (f : dict string chan -> dict string chan) (s : Network) :
  f (links s) = links s -> with_links f s = s.
Proof. destruct s. unfold with_links. cbn. now intros ->. Qed.

Lemma links_pop_absent (nm : string) (s : Network) :
  dget nm (links s) = None -> links_pop (KName nm) s = (Ret tt, s).
Proof.
  intros Hnm. cbn. unfold modify. now rewrite with_links_id by now apply dpop_absent.
Qed.

Lemma dl_remove_absent (c : chan) (s : Network) :
  under_tx c s = false -> exists e, dl_remove (ch_tx c) c s = (Raise e, s).
Proof.
  unfold under_tx, dl_remove. destruct (dget (ch_tx c) (connections s)) as [a|].
  - intros Hm. rewrite (list_remove_None _ _ Hm). now exists ValueError.
  - intros _. now exists KeyError.
Qed.

Lemma _remove_link_unknown_name (nm : string) (s : Network) :
  dget nm (links s) = None -> _remove_link (LName nm) s = (Raise KeyError, s).
Proof. intros Hnm. unfold _remove_link, bind, get. now rewrite Hnm. Qed.

Lemma _remove_link_unknown_object (c : chan) (s : Network) :
  dget (ch_name c) (links s) = None -> under_tx c s = false ->
  exists e, _remove_link (LObj c) s = (Raise e, s).
Proof.
  intros Hnm Htx. destruct (dl_remove_absent c s Htx) as [e He]. exists e.
  unfold _remove_link, bind, ret. now rewrite (links_pop_absent _ _ Hnm), He.
Qed.

Lemma _remove_node_absent (n : node) (s : Network) :
  dmem n (connections s) = false -> _remove_node n s = (Ret tt, s).
Proof. intros Hn. unfold _remove_node, bind, get. now rewrite Hn. Qed.

(** C8, as the code has it.  Removing a link that is not present --
    by a name, in a list, that is not a key of the link mapping, or as
    an object, bare or in a list, whose name is not a key and which is
    not in the downlink list of its transmitter -- raises an error and
    leaves the link mapping and the adjacency structure exactly as they
    were; removing a node, in a list, that is not a key of the
    adjacency structure returns without an error and changes nothing;
    and [remove_elements] with coordinates that match no row of the
    array raises an error and leaves the array exactly as it was. *)
Theorem lookup_failures_change_nothing (s : Network) :
  (forall nm, dget nm (links s) = None ->
     _remove_link (LName nm) s = (Raise KeyError, s) /\
     remove_links (Many [LName nm]) s = (Raise KeyError, s)) /\
  (forall c, dget (ch_name c) (links s) = None -> under_tx c s = false ->
     exists e, _remove_link (LObj c) s = (Raise e, s) /\
               remove_links (One (LObj c)) s = (Raise e, s) /\
               remove_links (Many [LObj c]) s = (Raise e, s)) /\
  (forall n, dmem n (connections s) = false ->
     _remove_node n s = (Ret tt, s) /\
     remove_nodes (Many [n]) s = (Ret tt, s)) /\
  (forall (arr : Ant.AntennaArray) (coords : list Ant.vec3),
     Ant._match_coordinates arr coords = [] ->
     exists e, Ant.remove_elements (Some coords) None arr = (Raise e, arr)).
Proof.
  split; [|split; [|split]].
  - intros nm Hnm. pose proof (_remove_link_unknown_name _ _ Hnm) as E.
    split; [exact E|]. cbn [remove_links for_each]. unfold bind at 1. now rewrite E.
  - intros c Hnm Htx. destruct (_remove_link_unknown_object _ _ Hnm Htx) as [e E].
    exists e. split; [exact E|]. split; [exact E|].
    cbn [remove_links for_each]. unfold bind at 1. now rewrite E.
  - intros n Hn. pose proof (_remove_node_absent _ _ Hn) as E.
    split; [exact E|]. cbn [remove_nodes for_each]. unfold bind at 1. now rewrite E.
  - intros arr coords _. apply Ant.remove_elements_raises.
Qed.

(* ------------------------------------------------------------------ *)
(** *** What the graph operations keep *)

Ltac stable_all :=
  repeat first
    [ solve [ auto with graph ]
    | apply stable_for_each; intros ? _
    | apply stable_bind; [| intros ? ]
    | match goal with
      | |- stable _ (if ?c then _ else _) => destruct c
      | |- stable _ (match ?x with _ => _ end) => destruct x
      end ].

Lemma stable_present_op n o : stable (present n) (run_op o).
Proof.
  destruct o as [[x|l]|[x|l]|[x|l]|[[c|nm]|l]|[x|l]|[x|l]|[x|l]|[x|l]]; cbn [run_op];
    cbn [add_nodes add_links remove_nodes remove_links add_target_nodes
         add_target_links remove_target_nodes remove_target_links];
    unfold _add_link, _remove_node, _remove_link, add_nodes; stable_all.
Qed.

(** X13.  A node of the graph stays a node of the graph, whatever is done
    next: no operation, [remove_nodes] included, deletes a key of
    [connections]. *)
Theorem nodes_are_never_removed (os : list op) (s : Network) (n : node) :
  present n s -> present n (run_ops os s).
Proof. apply run_ops_stable. intros o. apply stable_present_op. Qed.

(** X14.  In a network built by the operations of the class, a downlink list
    holds links transmitted by its node only, and an uplink list links
    received by its node only. *)
Theorem adjacency_lists_hold_own_links (s : Network) (n : node) (a : Adj) :
  reachable s -> dget n (connections s) = Some a ->
  (forall c, In c (dl a) -> ch_tx c = n) /\ (forall c, In c (ul a) -> ch_rx c = n).
Proof. intros Hs Ha. destruct (reachable_inv Hs) as [Hadj _]. exact (Hadj n a Ha). Qed.

(** X15.  In a network built by the operations of the class, the transmitter
    and the receiver of every registered link are nodes of the graph. *)
Theorem registered_links_have_nodes (s : Network) (nm : string) (c : chan) :
  reachable s -> dget nm (links s) = Some c ->
  dmem (ch_tx c) (connections s) = true /\ dmem (ch_rx c) (connections s) = true.
Proof.
  intros Hs Hc. destruct (reachable_inv Hs) as [_ He].
  apply (He c). exact (dget_Some_In _ _ Hc).
Qed.

(** Every entry of the link mapping has the name of its link as key. *)
Definition names_ok (s : Network) : Prop :=
  forall k c, In (k, c) (links s) -> ch_name c = k.

Lemma stable_names_same {A} (m : M Network A) : same_links m -> stable names_ok m.
Proof. intros Hm s Hs k c. rewrite Hm. apply Hs. Qed.

Lemma stable_names_register c :
  stable names_ok (modify (with_links (dset (ch_name c) c))).
Proof.
  intros s Hs k c' Hin. cbn in Hin. apply In_dset in Hin.
  destruct Hin as [E|Hin]; [congruence | now apply Hs].
Qed.

Lemma stable_names_links_pop k : stable names_ok (links_pop k).
Proof.
  destruct k as [nm|c]; [|apply stable_ret].
  intros s Hs k c Hin. cbn in Hin. apply In_dpop in Hin. now apply Hs.
Qed.

Lemma same_links_with_connections f : same_links (modify (with_connections f)).
Proof. now intros s. Qed.

Lemma same_links_get : same_links (@get Network).
Proof. now intros s. Qed.

Lemma same_links_ret {A} (a : A) : same_links (ret a : M Network A).
Proof. now intros s. Qed.

Lemma same_links_raise {A} e : same_links (raise e : M Network A).
Proof. now intros s. Qed.

#[local] Hint Resolve stable_names_same stable_names_register stable_names_links_pop
  same_links_with_connections same_links_get same_links_ret same_links_raise : graph.

Lemma stable_names_op o : stable names_ok (run_op o).
Proof.
  destruct o as [[x|l]|[x|l]|[x|l]|[[c|nm]|l]|[x|l]|[x|l]|[x|l]|[x|l]]; cbn [run_op];
    cbn [add_nodes add_links remove_nodes remove_links add_target_nodes
         add_target_links remove_target_nodes remove_target_links];
    unfold _add_link, _remove_node, _remove_link, add_nodes; stable_all.
Qed.

(** X16.  In a network built by the operations of the class, a link is
    registered under its own name, and under that name only. *)
Theorem links_registered_under_own_name (s : Network) (k k' : string) (c : chan) :
  reachable s -> dget k (links s) = Some c ->
  ch_name c = k /\ (dget k' (links s) = Some c -> k' = k).
Proof.
  intros [os ->] Hk.
  assert (Hn : names_ok (run_ops os empty)).
  { apply run_ops_stable; [apply stable_names_op|]. intros ? ? []. }
  split.
  - apply Hn. now apply dget_In.
  - intros Hk'. apply dget_In in Hk, Hk'. rewrite <- (Hn _ _ Hk), <- (Hn _ _ Hk').
    reflexivity.
Qed.

(** The target lists and the keys of [connections] are as before. *)
Definition keeps_marks {A} (m : M Network A) : Prop :=
  forall s, target_links (snd (m s)) = target_links s /\
            target_nodes (snd (m s)) = target_nodes s /\
            dkeys (connections (snd (m s))) = dkeys (connections s).

Lemma keeps_marks_bind {A B} (m : M Network A) (k : A -> M Network B) :
  keeps_marks m -> (forall a, keeps_marks (k a)) -> keeps_marks (bind m k).
Proof.
  intros Hm Hk s. unfold bind. specialize (Hm s).
  destruct (m s) as [[a|e] s']; cbn [snd] in *; [|assumption].
  destruct (Hk a s') as (H1 & H2 & H3). destruct Hm as (G1 & G2 & G3).
  repeat split; congruence.
Qed.

Lemma keeps_marks_for_each {A} (l : list A) (body : A -> M Network unit) :
  (forall x, keeps_marks (body x)) -> keeps_marks (for_each l body).
Proof.
  intros Hb. induction l as [|x l IH]; cbn [for_each].
  - now intros s.
  - apply keeps_marks_bind; [apply Hb | intros _; apply IH].
Qed.

Lemma keeps_marks_links_pop k : keeps_marks (links_pop k).
Proof. destruct k as [nm|c]; now intros s. Qed.

Lemma keeps_marks_adj_of n : keeps_marks (adj_of n).
Proof. intros s. unfold adj_of. now destruct (dget n (connections s)). Qed.

Lemma keeps_marks_dl_remove n c : keeps_marks (dl_remove n c).
Proof.
  intros s. unfold dl_remove. destruct (dget n (connections s)) as [a|] eqn:E; [|easy].
  destruct (list_remove c (dl a)); [|easy]. cbn. repeat split.
  apply dkeys_dset_present. unfold dmem. now rewrite E.
Qed.

Lemma keeps_marks_ul_remove n c : keeps_marks (ul_remove n c).
Proof.
  intros s. unfold ul_remove. destruct (dget n (connections s)) as [a|] eqn:E; [|easy].
  destruct (list_remove c (ul a)); [|easy]. cbn. repeat split.
  apply dkeys_dset_present. unfold dmem. now rewrite E.
Qed.

Lemma keeps_marks_remove_node n : keeps_marks (_remove_node n).
Proof.
  unfold _remove_node. apply keeps_marks_bind; [now intros s|]. intros s0.
  destruct (dmem n (connections s0)); [|now intros s].
  apply keeps_marks_bind; [apply keeps_marks_adj_of|]. intros a.
  apply keeps_marks_bind.
  - apply keeps_marks_for_each. intros c.
    apply keeps_marks_bind; [apply keeps_marks_links_pop | intros _; apply keeps_marks_ul_remove].
  - intros _. apply keeps_marks_bind; [apply keeps_marks_adj_of|]. intros a'.
    apply keeps_marks_for_each. intros c.
    apply keeps_marks_bind; [apply keeps_marks_links_pop | intros _; apply keeps_marks_dl_remove].
Qed.

Lemma keeps_marks_remove_link l : keeps_marks (_remove_link l).
Proof.
  unfold _remove_link. apply keeps_marks_bind.
  - destruct l as [c|nm]; [now intros s|]. apply keeps_marks_bind; [now intros s|].
    intros s0. destruct (dget nm (links s0)); now intros s.
  - intros c. apply keeps_marks_bind; [apply keeps_marks_links_pop|]. intros _.
    apply keeps_marks_bind; [apply keeps_marks_dl_remove | intros _; apply keeps_marks_ul_remove].
Qed.

(** X17.  Removing nodes or links edits adjacency lists (and, for links, the
    link mapping) and nothing else: the keys of [connections] and both
    target lists are as before, whether the call returns or raises; and
    [remove_nodes] leaves the link mapping as it was. *)
Theorem removals_keep_nodes_and_targets (s : Network) :
  (forall a,
     links (snd (remove_nodes a s)) = links s /\
     target_links (snd (remove_nodes a s)) = target_links s /\
     target_nodes (snd (remove_nodes a s)) = target_nodes s /\
     dkeys (connections (snd (remove_nodes a s))) = dkeys (connections s)) /\
  (forall a,
     target_links (snd (remove_links a s)) = target_links s /\
     target_nodes (snd (remove_links a s)) = target_nodes s /\
     dkeys (connections (snd (remove_links a s))) = dkeys (connections s)).
Proof.
  split; intros a.
  - split; [apply remove_nodes_same_links|].
    destruct a as [n|l]; cbn [remove_nodes]; [easy|].
    apply keeps_marks_for_each, keeps_marks_remove_node.
  - destruct a as [[c|nm]|l]; cbn [remove_links].
    + apply keeps_marks_remove_link.
    + apply keeps_marks_for_each. intros x. apply keeps_marks_remove_link.
    + apply keeps_marks_for_each, keeps_marks_remove_link.
Qed.

(* ------------------------------------------------------------------ *)
(** *** Adding nodes and links, and taking a link out again *)

Lemma bind_run {S A B} (m : M S A) (k : A -> M S B) (s s' : S) (a : A) :
  m s = (Ret a, s') -> bind m k s = k a s'.
Proof. intros E. unfold bind. now rewrite E. Qed.

Definition no_links : Adj := {| dl := []; ul := [] |}.

Lemma _add_node_run n s :
  _add_node n s
  = (Ret tt, if dmem n (connections s) then s else with_connections (dset n no_links) s).
Proof. unfold _add_node, bind, get. now destruct (dmem n (connections s)). Qed.

Lemma dl_append_run n c s a :
  dget n (connections s) = Some a ->
  dl_append n c s = (Ret tt, with_connections (dset n {| dl := dl a ++ [c]; ul := ul a |}) s).
Proof. intros E. unfold dl_append. now rewrite E. Qed.

Lemma ul_append_run n c s a :
  dget n (connections s) = Some a ->
  ul_append n c s = (Ret tt, with_connections (dset n {| dl := dl a; ul := ul a ++ [c] |}) s).
Proof. intros E. unfold ul_append. now rewrite E. Qed.

Lemma dl_remove_run n c s a l :
  dget n (connections s) = Some a -> list_remove c (dl a) = Some l ->
  dl_remove n c s = (Ret tt, with_connections (dset n {| dl := l; ul := ul a |}) s).
Proof. intros E R. unfold dl_remove. now rewrite E, R. Qed.

Lemma ul_remove_run n c s a l :
  dget n (connections s) = Some a -> list_remove c (ul a) = Some l ->
  ul_remove n c s = (Ret tt, with_connections (dset n {| dl := dl a; ul := l |}) s).
Proof. intros E R. unfold ul_remove. now rewrite E, R. Qed.

Lemma list_remove_appended (c : chan) (l : list chan) :
  list_mem c l = false -> list_remove c (l ++ [c]) = Some l.
Proof.
  induction l as [|y l IH]; cbn.
  - intros _. now rewrite Nat.eqb_refl.
  - rewrite (Nat.eqb_sym c y). destruct (Nat.eqb y c); cbn; [discriminate|].
    intros E. now rewrite IH.
Qed.

Lemma list_mem_appended (c : chan) (l : list chan) : list_mem c (l ++ [c]) = true.
Proof. apply list_mem_In, in_or_app. right. now left. Qed.

(** X18.  [add_nodes] never raises, gives every new node two empty lists, and
    leaves the link mapping, the target lists and the adjacency of
    every node that was there untouched. *)
Theorem add_nodes_keeps_adjacency (l : list node) (s : Network) :
  exists s',
    add_nodes (Many l) s = (Ret tt, s') /\
    links s' = links s /\
    target_links s' = target_links s /\ target_nodes s' = target_nodes s /\
    forall m,
      dget m (connections s')
      = match dget m (connections s) with
        | Some a => Some a
        | None => if list_mem m l then Some no_links else None
        end.
Proof.
  revert s. induction l as [|n l IH]; intros s.
  - exists s. repeat split. intros m. now destruct (dget m (connections s)).
  - cbn [add_nodes for_each]. rewrite (@bind_run _ _ _ _ _ _ _ _ (_add_node_run n s)).
    set (s1 := if dmem n (connections s) then s else with_connections (dset n no_links) s).
    destruct (IH s1) as (s' & R & L & TL & TN & Hm). cbn [add_nodes] in R.
    exists s'. split; [exact R|].
    assert (E1 : links s1 = links s /\ target_links s1 = target_links s /\
                 target_nodes s1 = target_nodes s)
      by (subst s1; now destruct (dmem n (connections s))).
    destruct E1 as (E1 & E2 & E3). repeat split; try congruence.
    intros m. rewrite Hm.
    assert (G : dget m (connections s1)
                = match dget m (connections s) with
                  | Some a => Some a
                  | None => if Nat.eqb m n then Some no_links else None
                  end).
    { subst s1. unfold dmem. destruct (dget n (connections s)) as [a|] eqn:En.
      - destruct (Nat.eqb_spec m n) as [->|Hne]; [now rewrite En|].
        now destruct (dget m (connections s)).
      - cbn [connections with_connections]. rewrite dget_dset. cbn [py_eqb PyEq_nat].
        destruct (Nat.eqb_spec m n) as [->|Hne]; [now rewrite En|].
        now destruct (dget m (connections s)). }
    rewrite G. cbn [list_mem existsb]. fold (list_mem m l).
    destruct (dget m (connections s)); [reflexivity|].
    now destruct (Nat.eqb m n).
Qed.

(** The adjacency [_add_link] works on: the node's own, or the two
    empty lists [_add_node] gives a node that is new. *)
Definition adj_or_new (n : node) (d : dict node Adj) : Adj :=
  match dget n d with
  | Some a => a
  | None => no_links
  end.

Definition dl_add (c : chan) (a : Adj) : Adj := {| dl := dl a ++ [c]; ul := ul a |}.
Definition ul_add (c : chan) (a : Adj) : Adj := {| dl := dl a; ul := ul a ++ [c] |}.

(** The adjacency after a new link [c] went in. *)
Definition linked (c : chan) (d : dict node Adj) : dict node Adj :=
  let d1 := dset (ch_tx c) (dl_add c (adj_or_new (ch_tx c) d)) d in
  dset (ch_rx c) (ul_add c (adj_or_new (ch_rx c) d1)) d1.

Lemma node_then_dl n c s :
  exists s1, _add_node n s = (Ret tt, s1) /\
             dl_append n c s1
             = (Ret tt, with_connections (fun d => dset n (dl_add c (adj_or_new n d)) d) s).
Proof.
  rewrite _add_node_run. eexists. split; [reflexivity|].
  unfold dmem, adj_or_new, with_connections.
  destruct (dget n (connections s)) as [a|] eqn:E.
  - now rewrite (@dl_append_run n c s a E).
  - erewrite dl_append_run by (cbn [connections]; apply dget_dset_same).
    unfold with_connections. cbn [links connections target_links target_nodes].
    now rewrite dset_dset.
Qed.

Lemma node_then_ul n c s :
  exists s1, _add_node n s = (Ret tt, s1) /\
             ul_append n c s1
             = (Ret tt, with_connections (fun d => dset n (ul_add c (adj_or_new n d)) d) s).
Proof.
  rewrite _add_node_run. eexists. split; [reflexivity|].
  unfold dmem, adj_or_new, with_connections.
  destruct (dget n (connections s)) as [a|] eqn:E.
  - now rewrite (@ul_append_run n c s a E).
  - erewrite ul_append_run by (cbn [connections]; apply dget_dset_same).
    unfold with_connections. cbn [links connections target_links target_nodes].
    now rewrite dset_dset.
Qed.

Lemma _add_link_run c s :
  is_new c s = true ->
  _add_link c s
  = (Ret tt, with_connections (linked c) (with_links (dset (ch_name c) c) s)).
Proof.
  unfold is_new, _add_link. unfold bind at 1. unfold get. intros ->. cbv beta iota.
  set (s0 := with_links (dset (ch_name c) c) s).
  unfold bind at 1. unfold modify. fold s0. cbn [add_nodes].
  destruct (node_then_dl (ch_tx c) c s0) as (s1 & R1 & R2).
  rewrite (@bind_run _ _ _ _ _ _ _ _ R1), (@bind_run _ _ _ _ _ _ _ _ R2).
  match type of R2 with _ = (_, ?st) => set (s2 := st) end.
  destruct (node_then_ul (ch_rx c) c s2) as (s3 & R3 & R4).
  rewrite (@bind_run _ _ _ _ _ _ _ _ R3), R4. reflexivity.
Qed.

Lemma adj_eta (a : Adj) : {| dl := dl a; ul := ul a |} = a.
Proof. now destruct a. Qed.

(** X19.  A link that is new (neither its name nor its object is known) is
    added without an error: it is registered under its own name, it is
    appended to the downlink list of its transmitter and to the uplink
    list of its receiver, both of which become nodes if they were not,
    and every other node, every other name and the target lists stay
    as they were. *)
Theorem new_link_goes_under_both_ends (c : chan) (s : Network) :
  is_new c s = true ->
  exists s',
    add_links (One c) s = (Ret tt, s') /\
    links s' = dset (ch_name c) c (links s) /\
    target_links s' = target_links s /\ target_nodes s' = target_nodes s /\
    (exists a, dget (ch_tx c) (connections s') = Some a /\
               dl a = dl (adj_or_new (ch_tx c) (connections s)) ++ [c] /\
               ul a = if Nat.eqb (ch_tx c) (ch_rx c)
                      then ul (adj_or_new (ch_tx c) (connections s)) ++ [c]
                      else ul (adj_or_new (ch_tx c) (connections s))) /\
    (exists a, dget (ch_rx c) (connections s') = Some a /\
               ul a = ul (adj_or_new (ch_rx c) (connections s)) ++ [c] /\
               dl a = if Nat.eqb (ch_tx c) (ch_rx c)
                      then dl (adj_or_new (ch_rx c) (connections s)) ++ [c]
                      else dl (adj_or_new (ch_rx c) (connections s))) /\
    (forall m, m <> ch_tx c -> m <> ch_rx c ->
               dget m (connections s') = dget m (connections s)).
Proof.
  intros Hnew. eexists. split; [exact (_add_link_run c s Hnew)|].
  cbn [links connections target_links target_nodes with_connections with_links].
  do 3 (split; [reflexivity|]). unfold linked. cbv zeta.
  set (d := connections s).
  set (d1 := dset (ch_tx c) (dl_add c (adj_or_new (ch_tx c) d)) d).
  assert (T1 : dget (ch_tx c) d1 = Some (dl_add c (adj_or_new (ch_tx c) d)))
    by apply dget_dset_same.
  split; [|split].
  - rewrite dget_dset. cbn [py_eqb PyEq_nat].
    destruct (Nat.eqb_spec (ch_tx c) (ch_rx c)) as [E|N].
    + eexists. split; [reflexivity|]. rewrite <- E. unfold adj_or_new at 1 3.
      rewrite T1. now cbn.
    + eexists. split; [exact T1|]. now cbn.
  - eexists. split; [apply dget_dset_same|].
    destruct (Nat.eqb_spec (ch_tx c) (ch_rx c)) as [E|N].
    + rewrite <- E. unfold adj_or_new at 1 3. rewrite T1. now cbn.
    + unfold adj_or_new at 1 3. subst d1.
      rewrite dget_dset_other by (intros E; now apply N). now cbn.
  - intros m Ht Hr. subst d1. now rewrite !dget_dset_other by assumption.
Qed.

(** X20.  Adding a new link between two nodes of the graph, neither of which
    lists it yet, and removing it again by its object gives back the
    network as it was: link mapping, adjacency lists with their order,
    target lists. *)
Theorem add_then_remove_link (c : chan) (s : Network) :
  is_new c s = true ->
  present (ch_tx c) s -> present (ch_rx c) s ->
  under_tx c s = false -> under_rx c s = false ->
  exists s1,
    add_links (One c) s = (Ret tt, s1) /\
    remove_links (One (LObj c)) s1 = (Ret tt, s).
Proof.
  intros Hnew Ptx Prx Utx Urx. eexists. split; [exact (_add_link_run c s Hnew)|].
  unfold is_new in Hnew. apply andb_true_iff in Hnew. destruct Hnew as [Hname _].
  apply negb_true_iff in Hname.
  destruct s as [L d TL TN].
  unfold present, dmem, under_tx, under_rx in *. cbn [links connections] in *.
  destruct (dget (ch_tx c) d) as [a1|] eqn:E1; [|discriminate].
  destruct (dget (ch_rx c) d) as [a2|] eqn:E2; [|discriminate].
  clear Ptx Prx.
  assert (HL : dpop (ch_name c) (dset (ch_name c) c L) = L).
  { apply dpop_dset_fresh. unfold dmem in Hname.
    now destruct (dget (ch_name c) L). }
  unfold with_connections, with_links.
  cbn [links connections target_links target_nodes].
  unfold remove_links, _remove_link. unfold ret. unfold bind at 1.
  unfold bind at 1. cbn [links_pop]. unfold modify, with_links.
  cbn [links connections target_links target_nodes].
  rewrite HL. unfold linked. cbv zeta.
  replace (adj_or_new (ch_tx c) d) with a1 by (unfold adj_or_new; now rewrite E1).
  set (A1 := dl_add c a1). set (d1 := dset (ch_tx c) A1 d).
  assert (T1 : dget (ch_tx c) d1 = Some A1) by apply dget_dset_same.
  destruct (Nat.eq_dec (ch_rx c) (ch_tx c)) as [E|N].
  - (* a link from a node to itself *)
    rewrite E in *. assert (a2 = a1) by congruence. subst a2.
    unfold adj_or_new. rewrite T1.
    erewrite bind_run;
      [|apply dl_remove_run with (a := ul_add c A1);
        [cbn [connections]; apply dget_dset_same
        |cbn [ul_add dl A1 dl_add]; now apply list_remove_appended]].
    erewrite ul_remove_run;
      [|cbn [connections with_connections]; apply dget_dset_same
       |cbn [ul_add ul A1 dl_add]; now apply list_remove_appended].
    unfold with_connections.
    cbn [links connections target_links target_nodes dl ul ul_add A1 dl_add].
    subst d1. rewrite !dset_dset, adj_eta, (dset_same _ _ E1). reflexivity.
  - (* two different nodes *)
    assert (T2 : dget (ch_rx c) d1 = Some a2)
      by (subst d1; now rewrite dget_dset_other).
    unfold adj_or_new. rewrite T2.
    erewrite bind_run;
      [|apply dl_remove_run with (a := A1);
        [cbn [connections]; rewrite dget_dset_other by congruence; exact T1
        |cbn [dl A1 dl_add]; now apply list_remove_appended]].
    erewrite ul_remove_run;
      [|cbn [connections with_connections];
        rewrite dget_dset_other by exact N; apply dget_dset_same
       |cbn [ul_add ul]; now apply list_remove_appended].
    unfold with_connections.
    cbn [links connections target_links target_nodes dl ul ul_add A1 dl_add].
    rewrite !adj_eta. subst d1.
    assert (M1 : dmem (ch_tx c) (dset (ch_tx c) A1 d) = true)
      by (unfold dmem; now rewrite dget_dset_same).
    assert (M2 : dmem (ch_rx c) (dset (ch_tx c) A1 d) = true)
      by (unfold dmem; rewrite dget_dset_other by exact N; now rewrite E2).
    rewrite (@dset_comm _ _ _ (ch_tx c) (ch_rx c) a1 (ul_add c a2) _
               (fun E => N (eq_sym E)) M1 M2).
    rewrite !dset_dset, (dset_same _ _ E1), (dset_same _ _ E2). reflexivity.
Qed.

(* ------------------------------------------------------------------ *)
(** *** The metric accessors over several links *)

(** [{lk: g(lk) for lk in cs}] for links [cs] *)
Definition per_link (g : chan -> R) (cs : list chan) : dict pykey pyval :=
  fold_left (fun d c => dset (KeyLink c) (VNum (g c)) d) cs [].

Lemma dict_comp_links (f : pyarg -> res pyval) (g : chan -> R) (cs : list chan)
    (acc : dict pykey pyval) :
  (forall c, f (PLink c) = Ret (VNum (g c))) ->
  dict_comp f (map PLink cs) acc
  = Ret (VDict (fold_left (fun d c => dset (KeyLink c) (VNum (g c)) d) cs acc)).
Proof.
  intros Hf. revert acc. induction cs as [|c cs IH]; intros acc; [reflexivity|].
  cbn [map dict_comp fold_left]. rewrite Hf. cbn [rbind to_key]. apply IH.
Qed.

Lemma list_items_links (f : pyarg -> res pyval) (g : chan -> R) (cs : list chan) :
  (forall c, f (PLink c) = Ret (VNum (g c))) ->
  list_items f (map PLink cs) = Ret (map (fun c => VNum (g c)) cs).
Proof.
  intros Hf. induction cs as [|c cs IH]; [reflexivity|].
  cbn [map list_items]. rewrite Hf, IH. reflexivity.
Qed.

Lemma dget_fold_links (g : chan -> R) (cs : list chan) (acc : dict pykey pyval) (c : chan) :
  dget (KeyLink c) (fold_left (fun d c' => dset (KeyLink c') (VNum (g c')) d) cs acc)
  = if list_mem c cs then Some (VNum (g c)) else dget (KeyLink c) acc.
Proof.
  revert acc. induction cs as [|c' cs IH]; intros acc; [reflexivity|].
  cbn [fold_left]. rewrite IH. cbn [list_mem existsb]. fold (list_mem c cs).
  destruct (list_mem c cs); [now rewrite orb_true_r|]. rewrite orb_false_r.
  rewrite dget_dset. cbn [py_eqb PyEq_pykey pykey_eqb].
  destruct (Nat.eqb_spec c c') as [->|]; reflexivity.
Qed.

(** X21.  Called without a link, each of the six accessors [rx_power],
    [bf_gain], [signal_power], [bf_noise_power], [snr] and
    [snr_upper_bound] returns a dictionary keyed by the registered
    links, holding for each link that accessor's own value of the link
    (in dB or linear, as asked); a link that is not registered has no
    entry. *)
Theorem accessors_without_link_cover_registered (s : Network) (d : nat) (db : bool) :
  let all := dvalues (links s) in
  rx_power (S (S d)) s PNone
  = Ret (VDict (per_link (fun c => Chan.rx_power (metrics c)) all)) /\
  bf_gain (S (S d)) s PNone db
  = Ret (VDict (per_link (fun c => if db then Chan.bf_gain_db (metrics c)
                                   else Chan.bf_gain (metrics c)) all)) /\
  signal_power (S (S d)) s PNone db
  = Ret (VDict (per_link (fun c => if db then Chan.signal_power_db (metrics c)
                                   else Chan.signal_power (metrics c)) all)) /\
  bf_noise_power (S (S d)) s PNone db
  = Ret (VDict (per_link (fun c => if db then Chan.bf_noise_power_db (metrics c)
                                   else Chan.bf_noise_power (metrics c)) all)) /\
  snr (S (S d)) s PNone db
  = Ret (VDict (per_link (fun c => if db then Chan.snr_db (metrics c)
                                   else Chan.snr (metrics c)) all)) /\
  snr_upper_bound (S (S d)) s PNone db
  = Ret (VDict (per_link (fun c => if db then Chan.snr_upper_bound_db (metrics c)
                                   else Chan.snr_upper_bound (metrics c)) all)) /\
  forall g c,
    dget (KeyLink c) (per_link g all)
    = if list_mem c all then Some (VNum (g c)) else None.
Proof.
  intros all. unfold per_link.
  do 6 (split; [apply dict_comp_links; intros c; now destruct db|]).
  intros g c. apply dget_fold_links.
Qed.

(** X22.  Given a list of links, [rx_power] returns the dictionary of the
    received powers of these links, and [snr] and [snr_upper_bound]
    return the list of their values link by link, in the order given. *)
Theorem accessors_map_over_a_list (s : Network) (d : nat) (db : bool) (cs : list chan) :
  rx_power (S (S d)) s (PList (map PLink cs))
  = Ret (VDict (per_link (fun c => Chan.rx_power (metrics c)) cs)) /\
  snr (S (S d)) s (PList (map PLink cs)) db
  = Ret (VList (map (fun c => VNum (if db then Chan.snr_db (metrics c)
                                    else Chan.snr (metrics c))) cs)) /\
  snr_upper_bound (S (S d)) s (PList (map PLink cs)) db
  = Ret (VList (map (fun c => VNum (if db then Chan.snr_upper_bound_db (metrics c)
                                    else Chan.snr_upper_bound (metrics c))) cs)).
Proof.
  split; [|split].
  - apply (@dict_comp_links _ (fun c => Chan.rx_power (metrics c))). reflexivity.
  - cbn [snr]. unfold list_comp.
    rewrite (@list_items_links _ (fun c => if db then Chan.snr_db (metrics c)
                                          else Chan.snr (metrics c)) cs)
      by (intros c; now destruct db).
    reflexivity.
  - cbn [snr_upper_bound resolve_name rbind]. unfold list_comp.
    rewrite (@list_items_links _ (fun c => if db then Chan.snr_upper_bound_db (metrics c)
                                          else Chan.snr_upper_bound (metrics c)) cs)
      by (intros c; now destruct db).
    reflexivity.
Qed.

(** X23.  The accessors that read the receiver of the link do not map over a
    list: given a list, [interference], [inr] and [inr_upper_bound]
    raise [AttributeError], whatever the list holds, and so do [sinr]
    and [spectral_efficiency] for a list of links. *)
Theorem receiver_metrics_reject_lists (s : Network) (d : nat) (db : bool) :
  (forall l,
     interference (S d) s (PList l) db = Raise AttributeError /\
     inr (S (S d)) s (PList l) db = Raise AttributeError /\
     inr_upper_bound (S d) s (PList l) db = Raise AttributeError) /\
  (forall cs,
     sinr (S (S (S d))) s (PList (map PLink cs)) db = Raise AttributeError /\
     spectral_efficiency (S (S (S (S d)))) s (PList (map PLink cs)) = Raise AttributeError).
Proof.
  assert (Hs : forall cs d',
             sinr (S (S (S d'))) s (PList (map PLink cs)) db = Raise AttributeError).
  { intros cs d'. cbn [sinr resolve_name rbind].
    cbn [signal_power resolve_name rbind].
    rewrite (@dict_comp_links _ (fun c => Chan.snr (metrics c)) cs []) by reflexivity.
    reflexivity. }
  split.
  - intros l. repeat split; reflexivity.
  - intros cs. split; [apply Hs|].
    cbn [spectral_efficiency resolve_name rbind].
    cbn [sinr resolve_name rbind]. cbn [signal_power resolve_name rbind].
    rewrite (@dict_comp_links _ (fun c => Chan.snr (metrics c)) cs []) by reflexivity.
    reflexivity.
Qed.

Lemma bf_noise_power_link (d : nat) (s : Network) (c : chan) :
  bf_noise_power (S d) s (PLink c) false = Ret (VNum (Chan.bf_noise_power (metrics c))).
Proof. reflexivity. Qed.

(** The interference a link [c] sees: the signal powers of the other
    uplinks of its receiver, added up from 0. *)
Definition interference_at (c : chan) (a : Adj) : R :=
  fold_left Rplus (map (fun u => Chan.signal_power (metrics u)) (others c (ul a))) 0%R.

(** X24.  For a link [c] whose receiver is a node of the graph, in linear
    scale: [inr] is the interference over the noise power of [c] after
    beamforming, [sinr] is the signal power of [c] over the sum of the
    interference and that noise power, and [spectral_efficiency] is the
    base-2 logarithm of one plus this [sinr]; when [c] is the only
    uplink of its receiver the interference is 0. *)
Theorem sinr_of_a_link (s : Network) (c : chan) (a : Adj) (d : nat) :
  dget (ch_rx c) (connections s) = Some a ->
  let I := interference_at c a in
  let N := Chan.bf_noise_power (metrics c) in
  let P := Chan.signal_power (metrics c) in
  inr (S (S (S d))) s (PLink c) false = Ret (VNum (I / N)%R) /\
  sinr (S (S (S d))) s (PLink c) false = Ret (VNum (P / (I + N))%R) /\
  spectral_efficiency (S (S (S (S d)))) s (PLink c)
  = Ret (VNum (log2 (1 + P / (I + N)))) /\
  (ul a = [c] -> I = 0%R).
Proof.
  intros Ha I N P.
  assert (Hi : forall d', interference (S (S d')) s (PLink c) false = Ret (VNum I))
    by (intros d'; now apply interference_link).
  assert (Hsinr : forall d', sinr (S (S (S d'))) s (PLink c) false
                             = Ret (VNum (P / (I + N))%R)).
  { intros d'. cbn [sinr resolve_name rbind]. rewrite signal_power_link, Hi.
    rewrite bf_noise_power_link. reflexivity. }
  split; [|split; [|split]].
  - cbn [inr resolve_name rbind]. rewrite Hi, bf_noise_power_link. reflexivity.
  - apply Hsinr.
  - cbn [spectral_efficiency resolve_name rbind]. rewrite Hsinr. reflexivity.
  - intros E. unfold I, interference_at, others. rewrite E. cbn [filter].
    rewrite Nat.eqb_refl. reflexivity.
Qed.

(* ------------------------------------------------------------------ *)
(** *** Realizing the network, and its nodes by name *)

Lemma realize_in_order (l : list chan) (w : World) :
  exists called rest,
    l = called ++ rest /\
    w_realized (snd (for_each l realize_link w)) = w_realized w ++ called /\
    (fst (for_each l realize_link w) = Ret tt -> rest = []) /\
    (forall e, fst (for_each l realize_link w) = Raise e -> called <> []).
Proof.
  revert w. induction l as [|c l IH]; intros w.
  - exists [], []. cbn. rewrite app_nil_r. repeat split; auto. discriminate.
  - cbn [for_each]. unfold bind. unfold realize_link at 1 3 5.
    destruct (channel_realize (w_arrays w) c (w_chans w c)) as [[[]|e] st].
    + match goal with |- context [for_each l realize_link ?w1] =>
        destruct (IH w1) as (called & rest & El & Hr & Hok & Hex) end.
      cbn [w_realized] in Hr.
      exists (c :: called), rest. rewrite Hr, <- app_assoc.
      repeat split; [now rewrite El | assumption | discriminate].
    + exists [c], l. cbn. repeat split; discriminate.
Qed.

(** X25.  [Network.realize] calls [realize] on the registered links in the
    order of their registration, each once, and stops at the first call
    that raises; it leaves the graph, the arrays and every channel that
    is not registered as they were. *)
Theorem realize_walks_registered_links (w : World) :
  let all := dvalues (links (w_net w)) in
  w_net (snd (realize w)) = w_net w /\
  w_arrays (snd (realize w)) = w_arrays w /\
  (forall c, ~ In c all -> w_chans (snd (realize w)) c = w_chans w c) /\
  exists called rest,
    all = called ++ rest /\
    w_realized (snd (realize w)) = w_realized w ++ called /\
    (fst (realize w) = Ret tt -> rest = []) /\
    (forall e, fst (realize w) = Raise e -> called <> []).
Proof.
  intros all. unfold realize, bind, get. fold all.
  destruct (realize_all all w) as (Hn & Ha & Hc & _).
  split; [assumption|]. split; [assumption|]. split; [assumption|].
  apply realize_in_order.
Qed.

Lemma find_app {A} (p : A -> bool) (l1 l2 : list A) :
  find p (l1 ++ l2) = match find p l1 with Some x => Some x | None => find p l2 end.
Proof.
  induction l1 as [|x l1 IH]; [reflexivity|]. cbn. now destruct (p x).
Qed.

Lemma nodes_fold (f : node -> string) (ks : list node) (acc : dict string node)
    (nm : string) :
  dget nm (fold_left (fun d key => dset (f key) key d) ks acc)
  = match find (fun k => String.eqb (f k) nm) (rev ks) with
    | Some k => Some k
    | None => dget nm acc
    end.
Proof.
  revert acc. induction ks as [|k ks IH]; intros acc; [reflexivity|].
  cbn [fold_left rev]. rewrite IH, find_app.
  destruct (find (fun k0 => String.eqb (f k0) nm) (rev ks)); [reflexivity|].
  cbn [find]. rewrite dget_dset. cbn [py_eqb PyEq_string].
  rewrite (String.eqb_sym nm (f k)). now destruct (String.eqb (f k) nm).
Qed.

(** X26.  [Network.nodes] maps a name to the node of that name that was added
    last: looking a name up gives the last key of the adjacency
    mapping whose array has this name, and nothing when there is none.
    A node whose name a later node shares cannot be reached by name. *)
Theorem nodes_by_name_gives_last_added (w : World) (nm : string) :
  dget nm (nodes w)
  = find (fun k => String.eqb (Ant.name (w_arrays w k)) nm)
         (rev (dkeys (connections (w_net w)))).
Proof.
  unfold nodes. rewrite nodes_fold.
  now destruct (find _ (rev (dkeys (connections (w_net w))))).
Qed.

(* ------------------------------------------------------------------ *)
(** *** Targets *)

Lemma list_remove_Some (x : nat) (l : list nat) :
  list_mem x l = true ->
  exists r, list_remove x l = Some r /\
            count_occ Nat.eq_dec r x + 1 = count_occ Nat.eq_dec l x /\
            forall y, y <> x -> count_occ Nat.eq_dec r y = count_occ Nat.eq_dec l y.
Proof.
  induction l as [|y l IH]; cbn [list_mem existsb list_remove]; [discriminate|].
  fold (list_mem x l). rewrite (Nat.eqb_sym x y).
  destruct (Nat.eqb_spec y x) as [->|Hne].
  - intros _. exists l. split; [reflexivity|]. split.
    + rewrite count_occ_cons_eq by reflexivity. lia.
    + intros z Hz. now rewrite count_occ_cons_neq by congruence.
  - cbn [orb]. intros Hm. destruct (IH Hm) as (r & -> & Hc & Ho). exists (y :: r).
    split; [reflexivity|]. split.
    + now rewrite !count_occ_cons_neq by assumption.
    + intros z Hz. destruct (Nat.eq_dec y z) as [->|Hyz].
      * rewrite !count_occ_cons_eq by reflexivity. now rewrite Ho.
      * rewrite !count_occ_cons_neq by assumption. now apply Ho.
Qed.

(** X27.  Target nodes are kept as a list with repetitions.
    [add_target_nodes] makes the node a node of the graph and appends
    it to the target list whether or not it is there already;
    [remove_target_nodes] takes out one occurrence, leaves the other
    targets and the graph (the node stays a node) as they are, and
    raises [ValueError], changing nothing, for a node that is no
    target. *)
Theorem target_nodes_are_counted (s : Network) (n : node) :
  (exists s',
     add_target_nodes (One n) s = (Ret tt, s') /\
     target_nodes s' = target_nodes s ++ [n] /\
     present n s' /\
     links s' = links s /\ target_links s' = target_links s) /\
  (list_mem n (target_nodes s) = false ->
   remove_target_nodes (One n) s = (Raise ValueError, s)) /\
  (list_mem n (target_nodes s) = true ->
   exists s',
     remove_target_nodes (One n) s = (Ret tt, s') /\
     count_occ Nat.eq_dec (target_nodes s') n + 1 = count_occ Nat.eq_dec (target_nodes s) n /\
     (forall m, m <> n ->
        count_occ Nat.eq_dec (target_nodes s') m = count_occ Nat.eq_dec (target_nodes s) m) /\
     connections s' = connections s /\
     links s' = links s /\ target_links s' = target_links s).
Proof.
  split; [|split].
  - cbn [add_target_nodes]. rewrite (@bind_run _ _ _ _ _ _ _ _ (_add_node_run n s)).
    eexists. split; [reflexivity|]. unfold present, dmem.
    destruct (dget n (connections s)) as [a|] eqn:E; cbn; rewrite ?E.
    + repeat split; reflexivity.
    + rewrite dget_dset_same. repeat split; reflexivity.
  - intros Hm. cbn [remove_target_nodes]. unfold target_node_remove.
    now rewrite (list_remove_None _ _ Hm).
  - intros Hm. destruct (list_remove_Some _ _ Hm) as (r & Hr & Hc & Ho).
    cbn [remove_target_nodes]. unfold target_node_remove. rewrite Hr.
    eexists. split; [reflexivity|]. cbn. repeat split; assumption.
Qed.

End Graph.

(* ------------------------------------------------------------------ *)
(** *** A small network

    Three channels: [0] and [1] are two objects of the same name ["L"]
    from node [10] to node [11]; [2], named ["M"], goes from node [12]
    to node [11]. *)

Definition demo_name (c : chan) : string :=
  match c with 0 | 1 => "L" | _ => "M" end.
Definition demo_tx (c : chan) : node :=
  match c with 0 | 1 => 10 | _ => 12 end.
Definition demo_rx (c : chan) : node := 11.

Definition demo_metrics (c : chan) : Chan.Metrics :=
  {| Chan.rx_power := 1;
     Chan.bf_gain := 2; Chan.bf_gain_db := 3;
     Chan.signal_power := 4; Chan.signal_power_db := 5;
     Chan.bf_noise_power := 6; Chan.bf_noise_power_db := 7;
     Chan.snr := 8; Chan.snr_db := 9;
     Chan.snr_upper_bound := 10; Chan.snr_upper_bound_db := 11 |}.

Definition demo_array (n : node) : Ant.AntennaArray :=
  {| Ant.num_antennas := 1; Ant.coordinates := [(0, 0, 0)%R];
     Ant.coordinates_dtype := Ant.float64; Ant.weights := [C1];
     Ant.name := "AntennaArray"; Ant.frequency := 1; Ant.power := 1;
     Ant.noise_power := 1 |}.

(** [net = Network(); net.add_links([ch0])] *)
Definition one_link : Network :=
  snd (add_links demo_name demo_tx demo_rx (Many [0]) empty).

(** [net = Network(); net.add_links([ch0, ch2])] *)
Definition two_uplinks : Network :=
  snd (add_links demo_name demo_tx demo_rx (Many [0; 2]) empty).

(** A channel whose state is the number of times it was realized. *)
Definition counting_realize (_ : node -> Ant.AntennaArray) (_ : chan) : M nat unit :=
  modify S.

Definition demo_world : World nat :=
  {| w_net := two_uplinks; w_arrays := demo_array; w_chans := fun _ => 0;
     w_realized := [] |}.

Lemma one_link_reachable : reachable demo_name demo_tx demo_rx one_link.
Proof. exists [AddLinks (Many [0])]. reflexivity. Qed.

Lemma two_uplinks_reachable : reachable demo_name demo_tx demo_rx two_uplinks.
Proof. exists [AddLinks (Many [0; 2])]. reflexivity. Qed.

(** C1.  After [add_links([ch0])], [remove_nodes([tx])] returns, takes
    [ch0] out of the uplink list of its receiver, and leaves it in the
    link mapping: [self.links.pop(link, None)] looks up the [Channel]
    object where the keys are names.  Adding the channel [ch1] of the
    same name afterwards changes nothing, and the name still leads to
    [ch0].  With the node given bare, [remove_nodes] raises and removes
    nothing. *)
Theorem remove_nodes_keeps_link_registered :
  remove_nodes demo_tx demo_rx (Many [10]) one_link
  = (Ret tt,
     {| links := [("L"%string, 0)];
        connections := [(10, {| dl := [0]; ul := [] |}); (11, {| dl := []; ul := [] |})];
        target_links := []; target_nodes := [] |}) /\
  add_links demo_name demo_tx demo_rx (Many [1])
            (snd (remove_nodes demo_tx demo_rx (Many [10]) one_link))
  = (Ret tt, snd (remove_nodes demo_tx demo_rx (Many [10]) one_link)) /\
  dget "L"%string
       (links (snd (add_links demo_name demo_tx demo_rx (Many [1])
                      (snd (remove_nodes demo_tx demo_rx (Many [10]) one_link)))))
  = Some 0 /\
  remove_nodes demo_tx demo_rx (One 10) one_link = (Raise AttributeError, one_link).
Proof. repeat split. Qed.

(** C2.  After [add_links([ch0])] and [remove_nodes([tx])] the channel
    [ch0] is in the link mapping and in no uplink list: the network is
    not consistent. *)
Theorem remove_nodes_breaks_consistency :
  let s := run_ops demo_name demo_tx demo_rx
                   [AddLinks (Many [0]); RemoveNodes (Many [10])] empty in
  In 0 (dvalues (links s)) /\
  dl_occurrences 0 s = 1 /\
  ul_occurrences 0 s = 0 /\
  under_rx demo_rx 0 s = false /\
  consistent demo_tx demo_rx s = false.
Proof. cbv zeta. repeat split. now left. Qed.

(** C7.  With a list of links, [bf_gain], [signal_power] and
    [bf_noise_power] return the SNR of each link, not their own metric;
    and [snr] with a name runs into the recursion limit. *)
Theorem iterable_dispatch_computes_snr :
  bf_gain demo_metrics 3 one_link (PLink 0) true = Ret (VNum 3) /\
  bf_gain demo_metrics 3 one_link (PList [PLink 0]) true
  = Ret (VDict [(KeyLink 0, VNum 9)]) /\
  signal_power demo_metrics 3 one_link (PLink 0) true = Ret (VNum 5) /\
  signal_power demo_metrics 3 one_link (PList [PLink 0]) true
  = Ret (VDict [(KeyLink 0, VNum 9)]) /\
  bf_noise_power demo_metrics 3 one_link (PLink 0) true = Ret (VNum 7) /\
  bf_noise_power demo_metrics 3 one_link (PList [PLink 0]) true
  = Ret (VDict [(KeyLink 0, VNum 9)]) /\
  bf_gain demo_metrics 3 one_link (PList [PLink 0]) true
  <> dict_comp (fun lk => bf_gain demo_metrics 2 one_link lk true) [PLink 0] [] /\
  snr demo_metrics 1000 one_link (PStr "L") true = Raise RecursionError.
Proof.
  do 6 (split; [reflexivity|]). split.
  - cbn. intros E. injection E as E. lra.
  - apply snr_name_recursion.
Qed.

(** C9.  [inr_upper_bound] reads [link.rx.noise_power_lin], which no
    [AntennaArray] has: with two uplinks at the receiver the call
    raises [AttributeError], in linear units and in dB. *)
Theorem inr_upper_bound_attribute_error :
  inr_upper_bound demo_tx demo_rx demo_metrics demo_array 3 two_uplinks (PLink 0) false
  = Raise AttributeError /\
  inr_upper_bound demo_tx demo_rx demo_metrics demo_array 3 two_uplinks (PLink 0) true
  = Raise AttributeError /\
  inr_upper_bound demo_tx demo_rx demo_metrics demo_array 3 two_uplinks (PStr "L") false
  = Raise AttributeError.
Proof.
  split; [|split].
  - now apply (@inr_upper_bound_raises demo_tx demo_rx demo_metrics demo_array 2 two_uplinks
                 0 {| dl := []; ul := [0; 2] |}).
  - now apply (@inr_upper_bound_raises demo_tx demo_rx demo_metrics demo_array 2 two_uplinks
                 0 {| dl := []; ul := [0; 2] |}).
  - change (inr_upper_bound demo_tx demo_rx demo_metrics demo_array 3 two_uplinks
              (PStr "L") false)
      with (inr_upper_bound demo_tx demo_rx demo_metrics demo_array 3 two_uplinks
              (PLink 0) false).
    now apply (@inr_upper_bound_raises demo_tx demo_rx demo_metrics demo_array 2 two_uplinks
                 0 {| dl := []; ul := [0; 2] |}).
Qed.

(** [AntennaArray(1, [[0, 0, 0]], name="rx")]: the coordinates are
    integers, so [np.array] makes an [int64] array of them. *)
Definition origin_int : Ant.AntennaArray :=
  {| Ant.num_antennas := 1; Ant.coordinates := [(0, 0, 0)%R];
     Ant.coordinates_dtype := Ant.int64; Ant.weights := [C1];
     Ant.name := "rx"; Ant.frequency := 1000000000; Ant.power := 1;
     Ant.noise_power := 0 |}.

(** The network of the two uplinks, with [origin_int] as their
    receiver, node [11]. *)
Definition int_world : World nat :=
  {| w_net := two_uplinks;
     w_arrays := fun n => if Nat.eqb n 11 then origin_int else demo_array n;
     w_chans := fun _ => 0;
     w_realized := [] |}.

(** C6.  The receiver of the two uplinks is an array built from the
    integer coordinates [[0, 0, 0]].  [move_node] on it, given as the
    object or by its name, raises [TypeError]: the setter of [location]
    adds the floating-point difference to the integer coordinates in
    place.  The array stays where it was, [realize] is called on
    neither uplink, and no channel changes.  The same call on node
    [12] of the same network, whose coordinates are floating-point
    numbers, moves the array and realizes its one link. *)
Theorem move_node_raises_on_integer_coordinates :
  dget 11 (connections (w_net int_world)) = Some {| dl := []; ul := [0; 2] |} /\
  Ant.coordinates_dtype (w_arrays int_world 11) = Ant.int64 /\
  (forall nd, nd = NObj 11 \/ nd = NName "rx" ->
     fst (move_node counting_realize nd (1, 2, 3)%R int_world) = Raise TypeError /\
     Ant.location (w_arrays (snd (move_node counting_realize nd (1, 2, 3)%R int_world)) 11)
     = Ant.location origin_int /\
     Ant.coordinates
       (w_arrays (snd (move_node counting_realize nd (1, 2, 3)%R int_world)) 11)
     = [(0, 0, 0)%R] /\
     w_realized (snd (move_node counting_realize nd (1, 2, 3)%R int_world)) = [] /\
     w_chans (snd (move_node counting_realize nd (1, 2, 3)%R int_world)) 0 = 0 /\
     w_chans (snd (move_node counting_realize nd (1, 2, 3)%R int_world)) 2 = 0) /\
  Ant.coordinates_dtype (w_arrays int_world 12) = Ant.float64 /\
  fst (move_node counting_realize (NObj 12) (1, 2, 3)%R int_world) = Ret tt /\
  Ant.coordinates
    (w_arrays (snd (move_node counting_realize (NObj 12) (1, 2, 3)%R int_world)) 12)
  = [(1, 2, 3)%R] /\
  w_realized (snd (move_node counting_realize (NObj 12) (1, 2, 3)%R int_world)) = [2].
Proof.
  split; [reflexivity|]. split; [reflexivity|]. split.
  - intros nd Hnd.
    destruct (@move_node_on_integer_coordinates nat counting_realize int_world nd 11
                (1, 2, 3)%R) as (Hr & _ & Ha & Hc & Hz).
    + destruct Hnd as [-> | ->]; reflexivity.
    + reflexivity.
    + rewrite Hr, Ha, Hc, Hz. repeat split.
  - split; [reflexivity|]. split; [reflexivity|]. split; [|reflexivity].
    cbn. unfold Ant.vadd, Ant.vsub, Ant.location, Ant.mean, Ant.vx, Ant.vy, Ant.vz. cbn.
    do 2 f_equal; [f_equal|]; field.
Qed.

(** Removing a node that is not in the graph raises nothing. *)
Lemma remove_absent_node_is_silent :
  dmem 99 (connections one_link) = false /\
  raised (remove_nodes demo_tx demo_rx (Many [99]) one_link) = false /\
  remove_nodes demo_tx demo_rx (Many [99]) one_link = (Ret tt, one_link).
Proof. repeat split. Qed.

(** A name given bare is walked character by character: removing
    ["LX"] removes the link named ["L"] and then raises. *)
Lemma remove_links_bare_name_is_walked :
  dget "LX"%string (links one_link) = None /\
  remove_links demo_name demo_tx demo_rx (One (LName "LX")) one_link
  = (Raise KeyError,
     {| links := [];
        connections := [(10, {| dl := []; ul := [] |}); (11, {| dl := []; ul := [] |})];
        target_links := []; target_nodes := [] |}).
Proof. split; reflexivity. Qed.

(** A node given bare has no [__iter__]: [remove_nodes] raises, whether
    the node is in the graph or not. *)
Lemma remove_nodes_bare_node_raises :
  remove_nodes demo_tx demo_rx (One 99) one_link = (Raise AttributeError, one_link) /\
  remove_nodes demo_tx demo_rx (One 10) one_link = (Raise AttributeError, one_link).
Proof. split; reflexivity. Qed.

(** Removing an unregistered channel whose name is taken raises, after
    the registered channel of that name has left the link mapping. *)
Lemma remove_link_name_collision :
  remove_links demo_name demo_tx demo_rx (Many [LObj 1]) one_link
  = (Raise ValueError,
     {| links := [];
        connections := [(10, {| dl := [0]; ul := [] |}); (11, {| dl := []; ul := [0] |})];
        target_links := []; target_nodes := [] |}).
Proof. reflexivity. Qed.

Lemma add_links_idempotent_witness :
  dmem (demo_name 0) (links one_link) = true /\
  add_links demo_name demo_tx demo_rx (One 0) one_link = (Ret tt, one_link) /\
  add_links demo_name demo_tx demo_rx (Many [0; 0]) empty
  = add_links demo_name demo_tx demo_rx (Many [0]) empty.
Proof.
  split; [reflexivity|]. split.
  - apply (proj1 (add_links_idempotent demo_name demo_tx demo_rx one_link 0)).
    left. reflexivity.
  - apply (proj2 (add_links_idempotent demo_name demo_tx demo_rx empty 0)).
Defined.

Lemma lookup_failures_change_nothing_witness :
  remove_links demo_name demo_tx demo_rx (Many [LName "zz"]) one_link
  = (Raise KeyError, one_link) /\
  (exists e, remove_links demo_name demo_tx demo_rx (One (LObj 2)) one_link
             = (Raise e, one_link)) /\
  remove_nodes demo_tx demo_rx (Many [99]) one_link = (Ret tt, one_link) /\
  (exists e, Ant.remove_elements (Some [(5, 5, 5)%R]) None Ant.two_elements
             = (Raise e, Ant.two_elements)).
Proof.
  pose proof (lookup_failures_change_nothing demo_name demo_tx demo_rx one_link)
    as (Hname & Hobj & Hnode & Hrows).
  split; [|split; [|split]].
  - apply (Hname "zz"%string). reflexivity.
  - destruct (Hobj 2) as (e & _ & E & _); [reflexivity | reflexivity |].
    exists e. exact E.
  - apply (Hnode 99). reflexivity.
  - apply Hrows. apply Ant.match_coordinates_none.
    intros q [<-|[]] [E|[E|[]]]; injection E; intros; lra.
Defined.

Lemma interference_sums_other_uplinks_witness :
  In 0 (dvalues (links two_uplinks)) /\
  interference demo_rx demo_metrics 2 two_uplinks (PLink 0) false = Ret (VNum (0 + 4)).
Proof.
  split; [now left|].
  destruct (@interference_sums_other_uplinks demo_name demo_tx demo_rx demo_metrics
              two_uplinks 0 0 two_uplinks_reachable (or_introl eq_refl))
    as (a & Ha & _ & _ & _ & Htwo & _).
  injection Ha as <-. apply (Htwo 2); [discriminate | reflexivity].
Defined.

(* ------------------------------------------------------------------ *)
(** *** The graph properties on the small network *)

Lemma nodes_are_never_removed_witness :
  present 10 (run_ops demo_name demo_tx demo_rx
                [RemoveNodes (Many [10]); RemoveLinks (Many [LObj 0])] one_link).
Proof.
  apply nodes_are_never_removed. reflexivity.
Defined.

Lemma adjacency_lists_hold_own_links_witness :
  exists a, dget 11 (connections two_uplinks) = Some a /\
            forall c, In c (ul a) -> demo_rx c = 11.
Proof.
  eexists. split; [reflexivity|].
  apply (proj2 (@adjacency_lists_hold_own_links demo_name demo_tx demo_rx two_uplinks 11 _
                  two_uplinks_reachable eq_refl)).
Defined.

Lemma registered_links_have_nodes_witness :
  dmem (demo_tx 0) (connections one_link) = true /\
  dmem (demo_rx 0) (connections one_link) = true.
Proof.
  exact (@registered_links_have_nodes demo_name demo_tx demo_rx one_link "L" 0
           one_link_reachable eq_refl).
Defined.

Lemma links_registered_under_own_name_witness :
  dget "M"%string (links two_uplinks) = Some 2 /\ demo_name 2 = "M"%string.
Proof.
  split; [reflexivity|].
  exact (proj1 (@links_registered_under_own_name demo_name demo_tx demo_rx two_uplinks
                  "M" "L" 2 two_uplinks_reachable eq_refl)).
Defined.

Lemma new_link_goes_under_both_ends_witness :
  is_new demo_name 2 one_link = true /\
  exists s', add_links demo_name demo_tx demo_rx (One 2) one_link = (Ret tt, s') /\
             links s' = dset "M"%string 2 (links one_link).
Proof.
  split; [reflexivity|].
  destruct (@new_link_goes_under_both_ends demo_name demo_tx demo_rx 2 one_link eq_refl)
    as (s' & R & L & _).
  exists s'. split; assumption.
Defined.

(** [net = Network(); net.add_links([ch0]); net.add_nodes([n12])] *)
Definition one_link_three_nodes : Network := snd (add_nodes (Many [12]) one_link).

Lemma add_then_remove_link_witness :
  exists s1,
    add_links demo_name demo_tx demo_rx (One 2) one_link_three_nodes = (Ret tt, s1) /\
    remove_links demo_name demo_tx demo_rx (One (LObj 2)) s1
    = (Ret tt, one_link_three_nodes).
Proof.
  apply (@add_then_remove_link demo_name demo_tx demo_rx 2 one_link_three_nodes);
    reflexivity.
Defined.

Lemma sinr_of_a_link_witness :
  exists a,
    dget (demo_rx 0) (connections two_uplinks) = Some a /\
    sinr demo_rx demo_metrics 3 two_uplinks (PLink 0) false
    = Ret (VNum (4 / (interference_at demo_metrics 0%nat a + 6))%R).
Proof.
  eexists. split; [reflexivity|].
  exact (proj1 (proj2 (@sinr_of_a_link demo_rx demo_metrics two_uplinks 0 _ 0 eq_refl))).
Defined.

Lemma target_nodes_are_counted_witness :
  remove_target_nodes (One 10) one_link = (Raise ValueError, one_link).
Proof.
  apply (proj1 (proj2 (target_nodes_are_counted one_link 10))). reflexivity.
Defined.

End Net.
